(** * videooo-cut: the crop editor of [main.py]

    A shallow embedding of the geometry code of [VideoPreviewWidget] and of
    the constraint handlers of [MainWindow] (file [src/main.py]), with the
    properties of the crop rectangle stated and settled on it.

    Modelling conventions.
    - Python [int] is [Z].  Python [float] is an exact rational ([Q]): every
      float of this code is a quotient of small integers ([pixmap / frame],
      [(widget - pixmap) / 2], [ratio_w / ratio_h]) and [int(x)] truncates
      toward zero.  Concrete runs below use inputs on which binary64 gives the
      same integers (values far from an integer boundary, or dyadic scales).
    - A Python exception is an [Err] result; a handler that returns normally
      is [Ok].
    - PyQt value classes are small records with the Qt semantics the code
      relies on: [QRect] stores its two corners, so [right() = x + width - 1];
      [bool(QPoint)] is [not isNull()] and [bool(QRect)] is [isValid()].
    - [MainWindow] owns the widget; the slot connected to [crop_changed] runs
      inside [emit], so the widget methods that emit are functions on the
      window, the others functions on the widget. *)

From Stdlib Require Import ZArith QArith Qround Qabs List Bool String Lia Lqa.
Import ListNotations.
Open Scope Z_scope.

(* ================================================================== *)
(** ** Results of handlers *)

Inductive exn :=
| AttributeError      (* a method called on [None] *)
| ZeroDivisionError
| SignalLoop.         (* signal/slot nesting deeper than the model unrolls *)

Inductive Result (A : Type) :=
| Ok (a : A)
| Err (e : exn).
Arguments Ok {A} a.
Arguments Err {A} e.

Definition bind {A B} (m : Result A) (k : A -> Result B) : Result B :=
  match m with
  | Ok a => k a
  | Err e => Err e
  end.

Notation "x <- m ;; k" := (bind m (fun x => k))
  (at level 61, m at next level, right associativity).
Notation "' pat <- m ;; k" := (bind m (fun x => let 'pat := x in k))
  (at level 61, pat pattern, m at next level, right associativity).

(* ================================================================== *)
(** ** Python numbers *)

(** [a / b] on two ints: true division. *)
Definition true_div (a b : Z) : Q := (inject_Z a / inject_Z b)%Q.

(** [int(x)] on a float: truncation toward zero. *)
Definition int_of_float (x : Q) : Z :=
  if Qle_bool 0 x then Qfloor x else Qceiling x.

(** [x > y] on floats. *)
Definition Qgtb (x y : Q) : bool := negb (Qle_bool x y).

(** [range(lo, hi)]. *)
Definition range (lo hi : Z) : list Z :=
  map (fun k => lo + Z.of_nat k) (seq 0 (Z.to_nat (hi - lo))).

(* ================================================================== *)
(** ** Qt value classes *)

Record QPoint := mkQPoint { px : Z; py : Z }.

Definition QPoint_isNull (p : QPoint) : bool := (px p =? 0) && (py p =? 0).

(** [if point:] on an attribute that holds a point or [None]. *)
Definition point_truthy (p : option QPoint) : bool :=
  match p with
  | Some q => negb (QPoint_isNull q)
  | None => false
  end.

Record QSize := mkQSize { size_width : Z; size_height : Z }.

(** Qt keeps the coordinates of the top-left and bottom-right pixels. *)
Record QRect := mkQRect { rx1 : Z; ry1 : Z; rx2 : Z; ry2 : Z }.

(** [QRect(x, y, w, h)], [QRect(topLeft, bottomRight)], [QRect()]. *)
Definition QRect_xywh (x y w h : Z) : QRect := mkQRect x y (x + w - 1) (y + h - 1).
Definition QRect_points (tl br : QPoint) : QRect := mkQRect (px tl) (py tl) (px br) (py br).
Definition QRect_null : QRect := mkQRect 0 0 (-1) (-1).

Module Rect.

Definition left (r : QRect) : Z := rx1 r.
Definition top (r : QRect) : Z := ry1 r.
Definition right (r : QRect) : Z := rx2 r.
Definition bottom (r : QRect) : Z := ry2 r.
Definition x (r : QRect) : Z := rx1 r.
Definition y (r : QRect) : Z := ry1 r.
Definition width (r : QRect) : Z := rx2 r - rx1 r + 1.
Definition height (r : QRect) : Z := ry2 r - ry1 r + 1.

Definition topLeft (r : QRect) : QPoint := mkQPoint (rx1 r) (ry1 r).
Definition bottomRight (r : QRect) : QPoint := mkQPoint (rx2 r) (ry2 r).

Definition setLeft (v : Z) (r : QRect) : QRect := mkQRect v (ry1 r) (rx2 r) (ry2 r).
Definition setTop (v : Z) (r : QRect) : QRect := mkQRect (rx1 r) v (rx2 r) (ry2 r).
Definition setRight (v : Z) (r : QRect) : QRect := mkQRect (rx1 r) (ry1 r) v (ry2 r).
Definition setBottom (v : Z) (r : QRect) : QRect := mkQRect (rx1 r) (ry1 r) (rx2 r) v.

Definition isValid (r : QRect) : bool := (rx1 r <=? rx2 r) && (ry1 r <=? ry2 r).
Definition isNull (r : QRect) : bool :=
  (rx2 r =? rx1 r - 1) && (ry2 r =? ry1 r - 1).

(** [QRect::center]: C++ integer division, which truncates. *)
Definition center (r : QRect) : QPoint :=
  mkQPoint (Z.quot (rx1 r + rx2 r) 2) (Z.quot (ry1 r + ry2 r) 2).

(** [QRect::moveCenter]. *)
Definition moveCenter (p : QPoint) (r : QRect) : QRect :=
  let w := rx2 r - rx1 r in
  let h := ry2 r - ry1 r in
  let x := px p - Z.quot w 2 in
  let y := py p - Z.quot h 2 in
  mkQRect x y (x + w) (y + h).

(** [QRect::contains(point)]: edges included, a null rectangle holds nothing,
    corners given in the wrong order are swapped. *)
Definition contains (r : QRect) (p : QPoint) : bool :=
  if isNull r then false
  else
    let '(l, rr) := if rx2 r <? rx1 r - 1 then (rx2 r, rx1 r) else (rx1 r, rx2 r) in
    let '(t, b) := if ry2 r <? ry1 r - 1 then (ry2 r, ry1 r) else (ry1 r, ry2 r) in
    negb ((px p <? l) || (rr <? px p)) && negb ((py p <? t) || (b <? py p)).

End Rect.

(** [if rect:] on an attribute that holds a rectangle or [None]. *)
Definition rect_truthy (r : option QRect) : bool :=
  match r with
  | Some q => Rect.isValid q
  | None => false
  end.


(** [QSize::scaled(target, KeepAspectRatio)], as [QPixmap::scaled] uses it: the
    largest size of the same aspect ratio that fits the target (64-bit integer
    arithmetic), no side below one pixel; an empty target or source gives the
    null pixmap, of size 0 x 0. *)
Definition scaled (src target : QSize) : QSize :=
  if (size_width src <=? 0) || (size_height src <=? 0)
     || (size_width target <=? 0) || (size_height target <=? 0)
  then mkQSize 0 0
  else
    let rw := Z.quot (size_height target * size_width src) (size_height src) in
    if rw <=? size_width target
    then mkQSize (Z.max rw 1) (Z.max (size_height target) 1)
    else mkQSize (Z.max (size_width target) 1)
                 (Z.max (Z.quot (size_width target * size_height src) (size_width src)) 1).

(* ================================================================== *)
(** ** The state of the two objects *)

(** [current_frame] is a numpy array; the code reads only [shape[:2]]. *)
Record Frame := mkFrame { shape_height : Z; shape_width : Z }.

(** The values [adjust_mode] takes: the strings [get_crop_handle_at] returns. *)
Inductive Handle :=
| move
| resize_tl | resize_tr | resize_bl | resize_br
| resize_t | resize_b | resize_l | resize_r.

Definition Handle_eqb (a b : Handle) : bool :=
  match a, b with
  | move, move | resize_tl, resize_tl | resize_tr, resize_tr
  | resize_bl, resize_bl | resize_br, resize_br | resize_t, resize_t
  | resize_b, resize_b | resize_l, resize_l | resize_r, resize_r => true
  | _, _ => false
  end.

(** [mode in [...]]. *)
Definition mode_in (m : Handle) (l : list Handle) : bool := existsb (Handle_eqb m) l.

(** The attributes of [VideoPreviewWidget.__init__], under their names. *)
Record VideoPreviewWidget := mkWidget {
  current_frame : option Frame;
  base_pixmap : option QSize;   (* size of the scaled pixmap *)
  crop_rect : option QRect;
  crop_rect_widget : option QRect;
  shadow_crop_rects : list QRect;
  shadow_crop_rects_widget : list QRect;
  drawing : bool;
  adjusting : bool;
  adjust_mode : option Handle;
  start_point : option QPoint;
  end_point : option QPoint;
  start_point_widget : option QPoint;
  end_point_widget : option QPoint;
  original_crop_rect : option QRect;
  original_crop_rect_widget : option QRect;
  frame_to_widget_scale_x : Q;
  frame_to_widget_scale_y : Q;
  widget_offset_x : Q;
  widget_offset_y : Q;
  handle_size : Z;
  lock_aspect_ratio : bool;
  aspect_ratio : option (Z * Z);
  lock_size : bool;
  locked_size : option (Z * Z);
  shadow_count : Z;
  size : QSize   (* [self.size()], kept by Qt *)
}.

(** Attribute assignment, one setter per attribute that is written. *)
Definition with_current_frame (v : option Frame) (w : VideoPreviewWidget) : VideoPreviewWidget :=
  mkWidget v (base_pixmap w) (crop_rect w) (crop_rect_widget w) (shadow_crop_rects w)
    (shadow_crop_rects_widget w) (drawing w) (adjusting w) (adjust_mode w) (start_point w)
    (end_point w) (start_point_widget w) (end_point_widget w) (original_crop_rect w)
    (original_crop_rect_widget w) (frame_to_widget_scale_x w) (frame_to_widget_scale_y w)
    (widget_offset_x w) (widget_offset_y w) (handle_size w) (lock_aspect_ratio w)
    (aspect_ratio w) (lock_size w) (locked_size w) (shadow_count w) (size w).
Definition with_base_pixmap (v : option QSize) (w : VideoPreviewWidget) : VideoPreviewWidget :=
  mkWidget (current_frame w) v (crop_rect w) (crop_rect_widget w) (shadow_crop_rects w)
    (shadow_crop_rects_widget w) (drawing w) (adjusting w) (adjust_mode w) (start_point w)
    (end_point w) (start_point_widget w) (end_point_widget w) (original_crop_rect w)
    (original_crop_rect_widget w) (frame_to_widget_scale_x w) (frame_to_widget_scale_y w)
    (widget_offset_x w) (widget_offset_y w) (handle_size w) (lock_aspect_ratio w)
    (aspect_ratio w) (lock_size w) (locked_size w) (shadow_count w) (size w).
Definition with_crop_rect (v : option QRect) (w : VideoPreviewWidget) : VideoPreviewWidget :=
  mkWidget (current_frame w) (base_pixmap w) v (crop_rect_widget w) (shadow_crop_rects w)
    (shadow_crop_rects_widget w) (drawing w) (adjusting w) (adjust_mode w) (start_point w)
    (end_point w) (start_point_widget w) (end_point_widget w) (original_crop_rect w)
    (original_crop_rect_widget w) (frame_to_widget_scale_x w) (frame_to_widget_scale_y w)
    (widget_offset_x w) (widget_offset_y w) (handle_size w) (lock_aspect_ratio w)
    (aspect_ratio w) (lock_size w) (locked_size w) (shadow_count w) (size w).
Definition with_crop_rect_widget (v : option QRect) (w : VideoPreviewWidget) : VideoPreviewWidget :=
  mkWidget (current_frame w) (base_pixmap w) (crop_rect w) v (shadow_crop_rects w)
    (shadow_crop_rects_widget w) (drawing w) (adjusting w) (adjust_mode w) (start_point w)
    (end_point w) (start_point_widget w) (end_point_widget w) (original_crop_rect w)
    (original_crop_rect_widget w) (frame_to_widget_scale_x w) (frame_to_widget_scale_y w)
    (widget_offset_x w) (widget_offset_y w) (handle_size w) (lock_aspect_ratio w)
    (aspect_ratio w) (lock_size w) (locked_size w) (shadow_count w) (size w).
Definition with_shadow_crop_rects (v : list QRect) (w : VideoPreviewWidget) : VideoPreviewWidget :=
  mkWidget (current_frame w) (base_pixmap w) (crop_rect w) (crop_rect_widget w) v
    (shadow_crop_rects_widget w) (drawing w) (adjusting w) (adjust_mode w) (start_point w)
    (end_point w) (start_point_widget w) (end_point_widget w) (original_crop_rect w)
    (original_crop_rect_widget w) (frame_to_widget_scale_x w) (frame_to_widget_scale_y w)
    (widget_offset_x w) (widget_offset_y w) (handle_size w) (lock_aspect_ratio w)
    (aspect_ratio w) (lock_size w) (locked_size w) (shadow_count w) (size w).
Definition with_shadow_crop_rects_widget (v : list QRect) (w : VideoPreviewWidget) : VideoPreviewWidget :=
  mkWidget (current_frame w) (base_pixmap w) (crop_rect w) (crop_rect_widget w)
    (shadow_crop_rects w) v (drawing w) (adjusting w) (adjust_mode w) (start_point w)
    (end_point w) (start_point_widget w) (end_point_widget w) (original_crop_rect w)
    (original_crop_rect_widget w) (frame_to_widget_scale_x w) (frame_to_widget_scale_y w)
    (widget_offset_x w) (widget_offset_y w) (handle_size w) (lock_aspect_ratio w)
    (aspect_ratio w) (lock_size w) (locked_size w) (shadow_count w) (size w).
Definition with_drawing (v : bool) (w : VideoPreviewWidget) : VideoPreviewWidget :=
  mkWidget (current_frame w) (base_pixmap w) (crop_rect w) (crop_rect_widget w)
    (shadow_crop_rects w) (shadow_crop_rects_widget w) v (adjusting w) (adjust_mode w)
    (start_point w) (end_point w) (start_point_widget w) (end_point_widget w)
    (original_crop_rect w) (original_crop_rect_widget w) (frame_to_widget_scale_x w)
    (frame_to_widget_scale_y w) (widget_offset_x w) (widget_offset_y w) (handle_size w)
    (lock_aspect_ratio w) (aspect_ratio w) (lock_size w) (locked_size w) (shadow_count w)
    (size w).
Definition with_adjusting (v : bool) (w : VideoPreviewWidget) : VideoPreviewWidget :=
  mkWidget (current_frame w) (base_pixmap w) (crop_rect w) (crop_rect_widget w)
    (shadow_crop_rects w) (shadow_crop_rects_widget w) (drawing w) v (adjust_mode w)
    (start_point w) (end_point w) (start_point_widget w) (end_point_widget w)
    (original_crop_rect w) (original_crop_rect_widget w) (frame_to_widget_scale_x w)
    (frame_to_widget_scale_y w) (widget_offset_x w) (widget_offset_y w) (handle_size w)
    (lock_aspect_ratio w) (aspect_ratio w) (lock_size w) (locked_size w) (shadow_count w)
    (size w).
Definition with_adjust_mode (v : option Handle) (w : VideoPreviewWidget) : VideoPreviewWidget :=
  mkWidget (current_frame w) (base_pixmap w) (crop_rect w) (crop_rect_widget w)
    (shadow_crop_rects w) (shadow_crop_rects_widget w) (drawing w) (adjusting w) v
    (start_point w) (end_point w) (start_point_widget w) (end_point_widget w)
    (original_crop_rect w) (original_crop_rect_widget w) (frame_to_widget_scale_x w)
    (frame_to_widget_scale_y w) (widget_offset_x w) (widget_offset_y w) (handle_size w)
    (lock_aspect_ratio w) (aspect_ratio w) (lock_size w) (locked_size w) (shadow_count w)
    (size w).
Definition with_start_point (v : option QPoint) (w : VideoPreviewWidget) : VideoPreviewWidget :=
  mkWidget (current_frame w) (base_pixmap w) (crop_rect w) (crop_rect_widget w)
    (shadow_crop_rects w) (shadow_crop_rects_widget w) (drawing w) (adjusting w)
    (adjust_mode w) v (end_point w) (start_point_widget w) (end_point_widget w)
    (original_crop_rect w) (original_crop_rect_widget w) (frame_to_widget_scale_x w)
    (frame_to_widget_scale_y w) (widget_offset_x w) (widget_offset_y w) (handle_size w)
    (lock_aspect_ratio w) (aspect_ratio w) (lock_size w) (locked_size w) (shadow_count w)
    (size w).
Definition with_end_point (v : option QPoint) (w : VideoPreviewWidget) : VideoPreviewWidget :=
  mkWidget (current_frame w) (base_pixmap w) (crop_rect w) (crop_rect_widget w)
    (shadow_crop_rects w) (shadow_crop_rects_widget w) (drawing w) (adjusting w)
    (adjust_mode w) (start_point w) v (start_point_widget w) (end_point_widget w)
    (original_crop_rect w) (original_crop_rect_widget w) (frame_to_widget_scale_x w)
    (frame_to_widget_scale_y w) (widget_offset_x w) (widget_offset_y w) (handle_size w)
    (lock_aspect_ratio w) (aspect_ratio w) (lock_size w) (locked_size w) (shadow_count w)
    (size w).
Definition with_start_point_widget (v : option QPoint) (w : VideoPreviewWidget) : VideoPreviewWidget :=
  mkWidget (current_frame w) (base_pixmap w) (crop_rect w) (crop_rect_widget w)
    (shadow_crop_rects w) (shadow_crop_rects_widget w) (drawing w) (adjusting w)
    (adjust_mode w) (start_point w) (end_point w) v (end_point_widget w) (original_crop_rect w)
    (original_crop_rect_widget w) (frame_to_widget_scale_x w) (frame_to_widget_scale_y w)
    (widget_offset_x w) (widget_offset_y w) (handle_size w) (lock_aspect_ratio w)
    (aspect_ratio w) (lock_size w) (locked_size w) (shadow_count w) (size w).
Definition with_end_point_widget (v : option QPoint) (w : VideoPreviewWidget) : VideoPreviewWidget :=
  mkWidget (current_frame w) (base_pixmap w) (crop_rect w) (crop_rect_widget w)
    (shadow_crop_rects w) (shadow_crop_rects_widget w) (drawing w) (adjusting w)
    (adjust_mode w) (start_point w) (end_point w) (start_point_widget w) v
    (original_crop_rect w) (original_crop_rect_widget w) (frame_to_widget_scale_x w)
    (frame_to_widget_scale_y w) (widget_offset_x w) (widget_offset_y w) (handle_size w)
    (lock_aspect_ratio w) (aspect_ratio w) (lock_size w) (locked_size w) (shadow_count w)
    (size w).
Definition with_original_crop_rect (v : option QRect) (w : VideoPreviewWidget) : VideoPreviewWidget :=
  mkWidget (current_frame w) (base_pixmap w) (crop_rect w) (crop_rect_widget w)
    (shadow_crop_rects w) (shadow_crop_rects_widget w) (drawing w) (adjusting w)
    (adjust_mode w) (start_point w) (end_point w) (start_point_widget w) (end_point_widget w) v
    (original_crop_rect_widget w) (frame_to_widget_scale_x w) (frame_to_widget_scale_y w)
    (widget_offset_x w) (widget_offset_y w) (handle_size w) (lock_aspect_ratio w)
    (aspect_ratio w) (lock_size w) (locked_size w) (shadow_count w) (size w).
Definition with_original_crop_rect_widget (v : option QRect) (w : VideoPreviewWidget) : VideoPreviewWidget :=
  mkWidget (current_frame w) (base_pixmap w) (crop_rect w) (crop_rect_widget w)
    (shadow_crop_rects w) (shadow_crop_rects_widget w) (drawing w) (adjusting w)
    (adjust_mode w) (start_point w) (end_point w) (start_point_widget w) (end_point_widget w)
    (original_crop_rect w) v (frame_to_widget_scale_x w) (frame_to_widget_scale_y w)
    (widget_offset_x w) (widget_offset_y w) (handle_size w) (lock_aspect_ratio w)
    (aspect_ratio w) (lock_size w) (locked_size w) (shadow_count w) (size w).
Definition with_frame_to_widget_scale_x (v : Q) (w : VideoPreviewWidget) : VideoPreviewWidget :=
  mkWidget (current_frame w) (base_pixmap w) (crop_rect w) (crop_rect_widget w)
    (shadow_crop_rects w) (shadow_crop_rects_widget w) (drawing w) (adjusting w)
    (adjust_mode w) (start_point w) (end_point w) (start_point_widget w) (end_point_widget w)
    (original_crop_rect w) (original_crop_rect_widget w) v (frame_to_widget_scale_y w)
    (widget_offset_x w) (widget_offset_y w) (handle_size w) (lock_aspect_ratio w)
    (aspect_ratio w) (lock_size w) (locked_size w) (shadow_count w) (size w).
Definition with_frame_to_widget_scale_y (v : Q) (w : VideoPreviewWidget) : VideoPreviewWidget :=
  mkWidget (current_frame w) (base_pixmap w) (crop_rect w) (crop_rect_widget w)
    (shadow_crop_rects w) (shadow_crop_rects_widget w) (drawing w) (adjusting w)
    (adjust_mode w) (start_point w) (end_point w) (start_point_widget w) (end_point_widget w)
    (original_crop_rect w) (original_crop_rect_widget w) (frame_to_widget_scale_x w) v
    (widget_offset_x w) (widget_offset_y w) (handle_size w) (lock_aspect_ratio w)
    (aspect_ratio w) (lock_size w) (locked_size w) (shadow_count w) (size w).
Definition with_widget_offset_x (v : Q) (w : VideoPreviewWidget) : VideoPreviewWidget :=
  mkWidget (current_frame w) (base_pixmap w) (crop_rect w) (crop_rect_widget w)
    (shadow_crop_rects w) (shadow_crop_rects_widget w) (drawing w) (adjusting w)
    (adjust_mode w) (start_point w) (end_point w) (start_point_widget w) (end_point_widget w)
    (original_crop_rect w) (original_crop_rect_widget w) (frame_to_widget_scale_x w)
    (frame_to_widget_scale_y w) v (widget_offset_y w) (handle_size w) (lock_aspect_ratio w)
    (aspect_ratio w) (lock_size w) (locked_size w) (shadow_count w) (size w).
Definition with_widget_offset_y (v : Q) (w : VideoPreviewWidget) : VideoPreviewWidget :=
  mkWidget (current_frame w) (base_pixmap w) (crop_rect w) (crop_rect_widget w)
    (shadow_crop_rects w) (shadow_crop_rects_widget w) (drawing w) (adjusting w)
    (adjust_mode w) (start_point w) (end_point w) (start_point_widget w) (end_point_widget w)
    (original_crop_rect w) (original_crop_rect_widget w) (frame_to_widget_scale_x w)
    (frame_to_widget_scale_y w) (widget_offset_x w) v (handle_size w) (lock_aspect_ratio w)
    (aspect_ratio w) (lock_size w) (locked_size w) (shadow_count w) (size w).
Definition with_lock_aspect_ratio (v : bool) (w : VideoPreviewWidget) : VideoPreviewWidget :=
  mkWidget (current_frame w) (base_pixmap w) (crop_rect w) (crop_rect_widget w)
    (shadow_crop_rects w) (shadow_crop_rects_widget w) (drawing w) (adjusting w)
    (adjust_mode w) (start_point w) (end_point w) (start_point_widget w) (end_point_widget w)
    (original_crop_rect w) (original_crop_rect_widget w) (frame_to_widget_scale_x w)
    (frame_to_widget_scale_y w) (widget_offset_x w) (widget_offset_y w) (handle_size w) v
    (aspect_ratio w) (lock_size w) (locked_size w) (shadow_count w) (size w).
Definition with_aspect_ratio (v : option (Z * Z)) (w : VideoPreviewWidget) : VideoPreviewWidget :=
  mkWidget (current_frame w) (base_pixmap w) (crop_rect w) (crop_rect_widget w)
    (shadow_crop_rects w) (shadow_crop_rects_widget w) (drawing w) (adjusting w)
    (adjust_mode w) (start_point w) (end_point w) (start_point_widget w) (end_point_widget w)
    (original_crop_rect w) (original_crop_rect_widget w) (frame_to_widget_scale_x w)
    (frame_to_widget_scale_y w) (widget_offset_x w) (widget_offset_y w) (handle_size w)
    (lock_aspect_ratio w) v (lock_size w) (locked_size w) (shadow_count w) (size w).
Definition with_lock_size (v : bool) (w : VideoPreviewWidget) : VideoPreviewWidget :=
  mkWidget (current_frame w) (base_pixmap w) (crop_rect w) (crop_rect_widget w)
    (shadow_crop_rects w) (shadow_crop_rects_widget w) (drawing w) (adjusting w)
    (adjust_mode w) (start_point w) (end_point w) (start_point_widget w) (end_point_widget w)
    (original_crop_rect w) (original_crop_rect_widget w) (frame_to_widget_scale_x w)
    (frame_to_widget_scale_y w) (widget_offset_x w) (widget_offset_y w) (handle_size w)
    (lock_aspect_ratio w) (aspect_ratio w) v (locked_size w) (shadow_count w) (size w).
Definition with_locked_size (v : option (Z * Z)) (w : VideoPreviewWidget) : VideoPreviewWidget :=
  mkWidget (current_frame w) (base_pixmap w) (crop_rect w) (crop_rect_widget w)
    (shadow_crop_rects w) (shadow_crop_rects_widget w) (drawing w) (adjusting w)
    (adjust_mode w) (start_point w) (end_point w) (start_point_widget w) (end_point_widget w)
    (original_crop_rect w) (original_crop_rect_widget w) (frame_to_widget_scale_x w)
    (frame_to_widget_scale_y w) (widget_offset_x w) (widget_offset_y w) (handle_size w)
    (lock_aspect_ratio w) (aspect_ratio w) (lock_size w) v (shadow_count w) (size w).
Definition with_shadow_count (v : Z) (w : VideoPreviewWidget) : VideoPreviewWidget :=
  mkWidget (current_frame w) (base_pixmap w) (crop_rect w) (crop_rect_widget w)
    (shadow_crop_rects w) (shadow_crop_rects_widget w) (drawing w) (adjusting w)
    (adjust_mode w) (start_point w) (end_point w) (start_point_widget w) (end_point_widget w)
    (original_crop_rect w) (original_crop_rect_widget w) (frame_to_widget_scale_x w)
    (frame_to_widget_scale_y w) (widget_offset_x w) (widget_offset_y w) (handle_size w)
    (lock_aspect_ratio w) (aspect_ratio w) (lock_size w) (locked_size w) v (size w).
Definition with_size (v : QSize) (w : VideoPreviewWidget) : VideoPreviewWidget :=
  mkWidget (current_frame w) (base_pixmap w) (crop_rect w) (crop_rect_widget w)
    (shadow_crop_rects w) (shadow_crop_rects_widget w) (drawing w) (adjusting w)
    (adjust_mode w) (start_point w) (end_point w) (start_point_widget w) (end_point_widget w)
    (original_crop_rect w) (original_crop_rect_widget w) (frame_to_widget_scale_x w)
    (frame_to_widget_scale_y w) (widget_offset_x w) (widget_offset_y w) (handle_size w)
    (lock_aspect_ratio w) (aspect_ratio w) (lock_size w) (locked_size w) (shadow_count w) v.


(** The attributes of [MainWindow] the crop handlers use, and the state of the
    controls they read and set. *)
Record MainWindow := mkWindow {
  preview_widget : VideoPreviewWidget;
  locale : string;
  main_crop_rect : option QRect;   (* [MainWindow.crop_rect] *)
  crop_aspect_ratio : option (Z * Z);
  main_shadow_count : Z;   (* [MainWindow.shadow_count] *)
  aspect_ratio_combo : string;   (* [currentText()] *)
  custom_width_spin : Z;   (* [value()] *)
  custom_height_spin : Z;   (* [value()] *)
  lock_aspect_checkbox : bool;   (* [isChecked()] *)
  custom_ratio_widget : bool   (* [isVisible()] *)
}.

(** Attribute assignment, one setter per attribute that is written. *)
Definition with_preview_widget (v : VideoPreviewWidget) (w : MainWindow) : MainWindow :=
  mkWindow v (locale w) (main_crop_rect w) (crop_aspect_ratio w) (main_shadow_count w)
    (aspect_ratio_combo w) (custom_width_spin w) (custom_height_spin w)
    (lock_aspect_checkbox w) (custom_ratio_widget w).
Definition with_main_crop_rect (v : option QRect) (w : MainWindow) : MainWindow :=
  mkWindow (preview_widget w) (locale w) v (crop_aspect_ratio w) (main_shadow_count w)
    (aspect_ratio_combo w) (custom_width_spin w) (custom_height_spin w)
    (lock_aspect_checkbox w) (custom_ratio_widget w).
Definition with_crop_aspect_ratio (v : option (Z * Z)) (w : MainWindow) : MainWindow :=
  mkWindow (preview_widget w) (locale w) (main_crop_rect w) v (main_shadow_count w)
    (aspect_ratio_combo w) (custom_width_spin w) (custom_height_spin w)
    (lock_aspect_checkbox w) (custom_ratio_widget w).
Definition with_main_shadow_count (v : Z) (w : MainWindow) : MainWindow :=
  mkWindow (preview_widget w) (locale w) (main_crop_rect w) (crop_aspect_ratio w) v
    (aspect_ratio_combo w) (custom_width_spin w) (custom_height_spin w)
    (lock_aspect_checkbox w) (custom_ratio_widget w).
Definition with_aspect_ratio_combo (v : string) (w : MainWindow) : MainWindow :=
  mkWindow (preview_widget w) (locale w) (main_crop_rect w) (crop_aspect_ratio w)
    (main_shadow_count w) v (custom_width_spin w) (custom_height_spin w)
    (lock_aspect_checkbox w) (custom_ratio_widget w).
Definition with_custom_width_spin (v : Z) (w : MainWindow) : MainWindow :=
  mkWindow (preview_widget w) (locale w) (main_crop_rect w) (crop_aspect_ratio w)
    (main_shadow_count w) (aspect_ratio_combo w) v (custom_height_spin w)
    (lock_aspect_checkbox w) (custom_ratio_widget w).
Definition with_custom_height_spin (v : Z) (w : MainWindow) : MainWindow :=
  mkWindow (preview_widget w) (locale w) (main_crop_rect w) (crop_aspect_ratio w)
    (main_shadow_count w) (aspect_ratio_combo w) (custom_width_spin w) v
    (lock_aspect_checkbox w) (custom_ratio_widget w).
Definition with_lock_aspect_checkbox (v : bool) (w : MainWindow) : MainWindow :=
  mkWindow (preview_widget w) (locale w) (main_crop_rect w) (crop_aspect_ratio w)
    (main_shadow_count w) (aspect_ratio_combo w) (custom_width_spin w) (custom_height_spin w) v
    (custom_ratio_widget w).
Definition with_custom_ratio_widget (v : bool) (w : MainWindow) : MainWindow :=
  mkWindow (preview_widget w) (locale w) (main_crop_rect w) (crop_aspect_ratio w)
    (main_shadow_count w) (aspect_ratio_combo w) (custom_width_spin w) (custom_height_spin w)
    (lock_aspect_checkbox w) v.

(* ================================================================== *)
(** ** VideoPreviewWidget: coordinates and handles *)

(** [__init__].  Qt never lets the widget drop below [setMinimumSize(640, 360)]. *)
Definition VideoPreviewWidget_init : VideoPreviewWidget :=
  mkWidget None None None None [] [] false false None None None None None None None
           1%Q 1%Q 0%Q 0%Q 10 false None false None 1 (mkQSize 640 360).

(** [max(lo, min(v, hi))], the clamp idiom of the file. *)
Definition clamp (lo v hi : Z) : Z := Z.max lo (Z.min v hi).

(** [self.rect()]. *)
Definition widget_rect (w : VideoPreviewWidget) : QRect :=
  QRect_xywh 0 0 (size_width (size w)) (size_height (size w)).

(** [pixmap_rect = self.base_pixmap.rect(); pixmap_rect.moveCenter(self.rect().center())]. *)
Definition centered_pixmap_rect (w : VideoPreviewWidget) (pm : QSize) : QRect :=
  Rect.moveCenter (Rect.center (widget_rect w))
                  (QRect_xywh 0 0 (size_width pm) (size_height pm)).

(** Lines 75-107. *)
Definition update_base_pixmap (w : VideoPreviewWidget) : Result VideoPreviewWidget :=
  match current_frame w with
  | None => Ok w
  | Some frame =>
      let height := shape_height frame in
      let width := shape_width frame in
      let pm := scaled (mkQSize width height) (size w) in
      let w := with_base_pixmap (Some pm) w in
      if (width =? 0) || (height =? 0) then Err ZeroDivisionError
      else
        let w := with_frame_to_widget_scale_x (true_div (size_width pm) width) w in
        let w := with_frame_to_widget_scale_y (true_div (size_height pm) height) w in
        let w := with_widget_offset_x
                   (true_div (size_width (size w) - size_width pm) 2) w in
        let w := with_widget_offset_y
                   (true_div (size_height (size w) - size_height pm) 2) w in
        Ok w
  end.

(** Lines 66-73; [update_display] only schedules a repaint. *)
Definition set_frame (frame : option Frame) (w : VideoPreviewWidget)
  : Result VideoPreviewWidget :=
  match frame with
  | None => Ok w
  | Some f => update_base_pixmap (with_current_frame (Some f) w)
  end.

(** Lines 109-121.  [Ok None] is the Python [None]. *)
Definition widget_to_frame_coords (w : VideoPreviewWidget) (widget_point : QPoint)
  : Result (option QPoint) :=
  match current_frame w with
  | None => Ok None
  | Some frame =>
      if Qeq_bool (frame_to_widget_scale_x w) 0 || Qeq_bool (frame_to_widget_scale_y w) 0
      then Err ZeroDivisionError
      else
        let x := ((inject_Z (px widget_point) - widget_offset_x w)
                  / frame_to_widget_scale_x w)%Q in
        let y := ((inject_Z (py widget_point) - widget_offset_y w)
                  / frame_to_widget_scale_y w)%Q in
        let frame_height := shape_height frame in
        let frame_width := shape_width frame in
        Ok (Some (mkQPoint (clamp 0 (int_of_float x) frame_width)
                           (clamp 0 (int_of_float y) frame_height)))
  end.

(** Lines 123-127. *)
Definition frame_to_widget_coords (w : VideoPreviewWidget) (frame_point : QPoint) : QPoint :=
  let x := (inject_Z (px frame_point) * frame_to_widget_scale_x w + widget_offset_x w)%Q in
  let y := (inject_Z (py frame_point) * frame_to_widget_scale_y w + widget_offset_y w)%Q in
  mkQPoint (int_of_float x) (int_of_float y).

(** Lines 129-161. *)
Definition get_crop_handle_at (w : VideoPreviewWidget) (point : QPoint) : option Handle :=
  if negb (rect_truthy (crop_rect_widget w)) then None
  else
    match crop_rect_widget w with
    | None => None
    | Some rect =>
        let handle_size := handle_size w in
        let near (a b : Z) := Z.abs (a - b) <=? handle_size in
        (* corners first *)
        if near (px point) (Rect.left rect) && near (py point) (Rect.top rect)
        then Some resize_tl
        else if near (px point) (Rect.right rect) && near (py point) (Rect.top rect)
        then Some resize_tr
        else if near (px point) (Rect.left rect) && near (py point) (Rect.bottom rect)
        then Some resize_bl
        else if near (px point) (Rect.right rect) && near (py point) (Rect.bottom rect)
        then Some resize_br
        (* edges *)
        else if near (py point) (Rect.top rect)
                && ((Rect.left rect <=? px point) && (px point <=? Rect.right rect))
        then Some resize_t
        else if near (py point) (Rect.bottom rect)
                && ((Rect.left rect <=? px point) && (px point <=? Rect.right rect))
        then Some resize_b
        else if near (px point) (Rect.left rect)
                && ((Rect.top rect <=? py point) && (py point <=? Rect.bottom rect))
        then Some resize_l
        else if near (px point) (Rect.right rect)
                && ((Rect.top rect <=? py point) && (py point <=? Rect.bottom rect))
        then Some resize_r
        (* inside *)
        else if Rect.contains rect point then Some move
        else None
    end.

(* ================================================================== *)
(** ** VideoPreviewWidget: constraints and replicas *)

(** Lines 670-689.  The tuple [(x1, y1, x2, y2)] is a nested pair. *)
Definition apply_aspect_ratio_constraint (x1 y1 x2 y2 : Z) (aspect_ratio : option (Z * Z))
  : Result (Z * Z * Z * Z) :=
  match aspect_ratio with
  | None => Ok (x1, y1, x2, y2)
  | Some (rw, rh) =>
      let width := x2 - x1 in
      let height := y2 - y1 in
      if rh =? 0 then Err ZeroDivisionError
      else
        let target_ratio := true_div rw rh in
        let current_ratio := if 0 <? height then true_div width height else 0%Q in
        if Qgtb current_ratio target_ratio then
          (* too wide, adjust height *)
          if Qeq_bool target_ratio 0 then Err ZeroDivisionError
          else
            let new_height := int_of_float (inject_Z width / target_ratio)%Q in
            Ok (x1, y1, x2, y1 + new_height)
        else
          (* too tall, adjust width *)
          let new_width := int_of_float (inject_Z height * target_ratio)%Q in
          Ok (x1, y1, x1 + new_width, y2)
  end.

(** Lines 691-700. *)
Definition apply_size_constraint (x1 y1 x2 y2 : Z) (locked_size : option (Z * Z))
  : Z * Z * Z * Z :=
  match locked_size with
  | None => (x1, y1, x2, y2)
  | Some (target_width, target_height) => (x1, y1, x1 + target_width, y1 + target_height)
  end.

(** The [if self.lock_size and self.locked_size: ... elif self.lock_aspect_ratio and
    self.aspect_ratio: ...] of lines 630-634 and 713-718 (a tuple is truthy). *)
Definition apply_constraints (w : VideoPreviewWidget) (x1 y1 x2 y2 : Z)
  : Result (Z * Z * Z * Z) :=
  match lock_size w, locked_size w, lock_aspect_ratio w, aspect_ratio w with
  | true, Some sz, _, _ => Ok (apply_size_constraint x1 y1 x2 y2 (Some sz))
  | _, _, true, Some ar => apply_aspect_ratio_constraint x1 y1 x2 y2 (Some ar)
  | _, _, _, _ => Ok (x1, y1, x2, y2)
  end.

(** One turn of the loop of lines 780-793. *)
Definition shadow_step (frame_width : Z) (crop : QRect) (w : VideoPreviewWidget) (i : Z)
  : VideoPreviewWidget :=
  let crop_width := Rect.width crop in
  let crop_height := Rect.height crop in
  let shadow_x := Rect.x crop + crop_width * i in
  if shadow_x + crop_width <=? frame_width then
    let shadow_rect := QRect_xywh shadow_x (Rect.y crop) crop_width crop_height in
    let w := with_shadow_crop_rects (shadow_crop_rects w ++ [shadow_rect]) w in
    let top_left_widget := frame_to_widget_coords w (Rect.topLeft shadow_rect) in
    let bottom_right_widget := frame_to_widget_coords w (Rect.bottomRight shadow_rect) in
    if point_truthy (Some top_left_widget) && point_truthy (Some bottom_right_widget)
    then with_shadow_crop_rects_widget
           (shadow_crop_rects_widget w ++ [QRect_points top_left_widget bottom_right_widget]) w
    else w
  else w.

(** Lines 762-793. *)
Definition update_shadow_crops (num_segments : Z) (w : VideoPreviewWidget)
  : Result VideoPreviewWidget :=
  let cleared := with_shadow_crop_rects_widget [] (with_shadow_crop_rects [] w) in
  if negb (rect_truthy (crop_rect w)) || (num_segments <=? 1) then Ok cleared
  else
    match crop_rect w, current_frame w with
    | Some crop, Some frame =>
        Ok (fold_left (shadow_step (shape_width frame) crop) (range 1 num_segments) cleared)
    | _, _ => Err AttributeError
    end.

(** Lines 795-805. *)
Definition clear_crop (w : VideoPreviewWidget) : VideoPreviewWidget :=
  let w := with_crop_rect None w in
  let w := with_crop_rect_widget None w in
  let w := with_shadow_crop_rects [] w in
  let w := with_shadow_crop_rects_widget [] w in
  let w := with_start_point None w in
  let w := with_end_point None w in
  let w := with_start_point_widget None w in
  with_end_point_widget None w.

(* ================================================================== *)
(** ** Drawing a rectangle: [update_crop_rect] *)

(** [MainWindow.on_crop_changed], the slot connected to [crop_changed]
    (lines 1373-1378); a widget object is truthy. *)
Definition on_crop_changed (rect : QRect) (mw : MainWindow) : Result MainWindow :=
  let mw := with_main_crop_rect (Some rect) mw in
  w <- update_shadow_crops (main_shadow_count mw) (preview_widget mw) ;;
  Ok (with_preview_widget w mw).

(** [self.base_pixmap.rect() if self.base_pixmap else QRect()], centred. *)
Definition pixmap_rect_or_null (w : VideoPreviewWidget) : QRect :=
  centered_pixmap_rect w (match base_pixmap w with Some pm => pm | None => mkQSize 0 0 end).

(** Lines 734-756: the widget rectangle of a drawing gesture. *)
Definition drawn_widget_rect (w : VideoPreviewWidget) (spw epw : QPoint) : QRect :=
  let pixmap_rect := pixmap_rect_or_null w in
  let x1_w := Z.min (px spw) (px epw) in
  let y1_w := Z.min (py spw) (py epw) in
  let x2_w := Z.max (px spw) (px epw) in
  let y2_w := Z.max (py spw) (py epw) in
  let x1_w := clamp (Rect.left pixmap_rect) x1_w (Rect.right pixmap_rect) in
  let y1_w := clamp (Rect.top pixmap_rect) y1_w (Rect.bottom pixmap_rect) in
  let x2_w := clamp (Rect.left pixmap_rect) x2_w (Rect.right pixmap_rect) in
  let y2_w := clamp (Rect.top pixmap_rect) y2_w (Rect.bottom pixmap_rect) in
  let x2_w := if x2_w <=? x1_w then Z.min (x1_w + 1) (Rect.right pixmap_rect) else x2_w in
  let y2_w := if y2_w <=? y1_w then Z.min (y1_w + 1) (Rect.bottom pixmap_rect) else y2_w in
  QRect_xywh x1_w y1_w (x2_w - x1_w) (y2_w - y1_w).

(** Lines 705-732: the frame rectangle of a drawing gesture. *)
Definition drawn_frame_rect (w : VideoPreviewWidget) (sp ep : QPoint) (frame : Frame)
  : Result QRect :=
  let frame_height := shape_height frame in
  let frame_width := shape_width frame in
  (* raw coordinates *)
  let x1 := Z.min (px sp) (px ep) in
  let y1 := Z.min (py sp) (py ep) in
  let x2 := Z.max (px sp) (px ep) in
  let y2 := Z.max (py sp) (py ep) in
  '(x1, y1, x2, y2) <- apply_constraints w x1 y1 x2 y2 ;;
  (* clamp to frame boundaries *)
  let x1 := clamp 0 x1 (frame_width - 1) in
  let y1 := clamp 0 y1 (frame_height - 1) in
  let x2 := clamp 0 x2 frame_width in
  let y2 := clamp 0 y2 frame_height in
  (* at least 1x1 *)
  let x2 := if x2 <=? x1 then Z.min (x1 + 1) frame_width else x2 in
  let y2 := if y2 <=? y1 then Z.min (y1 + 1) frame_height else y2 in
  Ok (QRect_xywh x1 y1 (x2 - x1) (y2 - y1)).

(** Lines 735-756: [crop_rect_widget] is redrawn when both widget points are there. *)
Definition redraw_widget_rect (w : VideoPreviewWidget) : VideoPreviewWidget :=
  match start_point_widget w, end_point_widget w with
  | Some spw, Some epw =>
      if point_truthy (Some spw) && point_truthy (Some epw)
      then with_crop_rect_widget (Some (drawn_widget_rect w spw epw)) w
      else w
  | _, _ => w
  end.

(** Lines 702-760. *)
Definition update_crop_rect (mw : MainWindow) : Result MainWindow :=
  let w := preview_widget mw in
  match start_point w, end_point w, current_frame w with
  | Some sp, Some ep, Some frame =>
      if point_truthy (Some sp) && point_truthy (Some ep) then
        crop <- drawn_frame_rect w sp ep frame ;;
        let w := with_crop_rect (Some crop) w in
        let w := redraw_widget_rect w in
        mw <- on_crop_changed crop (with_preview_widget w mw) ;;
        w <- update_shadow_crops (shadow_count (preview_widget mw)) (preview_widget mw) ;;
        Ok (with_preview_widget w mw)
      else Ok mw
  | _, _, _ => Ok mw
  end.

(* ================================================================== *)
(** ** Adjusting a rectangle: [adjust_crop_rect] *)

(** Lines 389-394 (and 316-321): the pointer is kept on the pixmap. *)
Definition clamp_to_pixmap (w : VideoPreviewWidget) (p : QPoint) : QPoint :=
  match base_pixmap w with
  | Some pm =>
      let pixmap_rect := centered_pixmap_rect w pm in
      mkQPoint (clamp (Rect.left pixmap_rect) (px p) (Rect.right pixmap_rect))
               (clamp (Rect.top pixmap_rect) (py p) (Rect.bottom pixmap_rect))
  | None => p
  end.

(** Lines 404-437: with a locked ratio, one delta is recomputed from the other. *)
Definition locked_deltas (mode : Handle) (orig : QRect) (rw rh : Z) (delta_x delta_y : Z)
  : Result (Z * Z) :=
  if rh =? 0 then Err ZeroDivisionError
  else
    let target_ratio := true_div rw rh in
    if mode_in mode [resize_tl; resize_tr; resize_bl; resize_br] then
      if Z.abs delta_x >? Z.abs delta_y then
        (* width-driven *)
        let new_width := if mode_in mode [resize_tr; resize_br]
                         then Rect.width orig + delta_x else Rect.width orig - delta_x in
        if Qeq_bool target_ratio 0 then Err ZeroDivisionError
        else
          let new_height := int_of_float (inject_Z new_width / target_ratio)%Q in
          Ok (delta_x, if mode_in mode [resize_tl; resize_tr]
                       then Rect.height orig - new_height else new_height - Rect.height orig)
      else
        (* height-driven *)
        let new_height := if mode_in mode [resize_tl; resize_tr]
                          then Rect.height orig - delta_y else Rect.height orig + delta_y in
        let new_width := int_of_float (inject_Z new_height * target_ratio)%Q in
        Ok (if mode_in mode [resize_tl; resize_bl]
            then Rect.width orig - new_width else new_width - Rect.width orig, delta_y)
    else if mode_in mode [resize_t; resize_b] then
      let new_height := if Handle_eqb mode resize_t
                        then Rect.height orig - delta_y else Rect.height orig + delta_y in
      let new_width := int_of_float (inject_Z new_height * target_ratio)%Q in
      Ok (new_width - Rect.width orig, delta_y)
    else if mode_in mode [resize_l; resize_r] then
      let new_width := if Handle_eqb mode resize_l
                       then Rect.width orig - delta_x else Rect.width orig + delta_x in
      if Qeq_bool target_ratio 0 then Err ZeroDivisionError
      else
        let new_height := int_of_float (inject_Z new_width / target_ratio)%Q in
        Ok (delta_x, new_height - Rect.height orig)
    else Ok (delta_x, delta_y).

(** Lines 439-515: the new widget rectangle of each mode. *)
Definition new_rect_widget (w : VideoPreviewWidget) (mode : Handle) (orig : QRect)
  (delta_x delta_y : Z) : QRect :=
  let ox := Rect.x orig in
  let oy := Rect.y orig in
  let ow := Rect.width orig in
  let oh := Rect.height orig in
  match mode with
  | move =>
      let new_x := ox + delta_x in
      let new_y := oy + delta_y in
      let '(new_x, new_y) :=
        match base_pixmap w with
        | Some pm =>
            let pixmap_rect := centered_pixmap_rect w pm in
            (clamp (Rect.left pixmap_rect) new_x (Rect.right pixmap_rect - ow),
             clamp (Rect.top pixmap_rect) new_y (Rect.bottom pixmap_rect - oh))
        | None => (new_x, new_y)
        end in
      QRect_xywh new_x new_y ow oh
  | resize_tl => QRect_xywh (ox + delta_x) (oy + delta_y) (ow - delta_x) (oh - delta_y)
  | resize_tr => QRect_xywh ox (oy + delta_y) (ow + delta_x) (oh - delta_y)
  | resize_bl => QRect_xywh (ox + delta_x) oy (ow - delta_x) (oh + delta_y)
  | resize_br => QRect_xywh ox oy (ow + delta_x) (oh + delta_y)
  | resize_t => QRect_xywh ox (oy + delta_y) ow (oh - delta_y)
  | resize_b => QRect_xywh ox oy ow (oh + delta_y)
  | resize_l => QRect_xywh (ox + delta_x) oy (ow - delta_x) oh
  | resize_r => QRect_xywh ox oy (ow + delta_x) oh
  end.

(** Lines 519-561: a resized rectangle is brought back onto the pixmap. *)
Definition constrain_to_pixmap (w : VideoPreviewWidget) (mode : Handle) (orig r : QRect)
  : QRect :=
  match base_pixmap w with
  | None => r
  | Some pm =>
      let pixmap_rect := centered_pixmap_rect w pm in
      if Handle_eqb mode move then r
      else
        let r :=
          if Rect.left r <? Rect.left pixmap_rect then
            if mode_in mode [resize_tl; resize_bl; resize_l]
            then Rect.setLeft (Rect.left pixmap_rect) r
            else Rect.setRight (Rect.left pixmap_rect + Rect.width orig)
                   (Rect.setLeft (Rect.left pixmap_rect) r)
          else r in
        let r :=
          if Rect.top r <? Rect.top pixmap_rect then
            if mode_in mode [resize_tl; resize_tr; resize_t]
            then Rect.setTop (Rect.top pixmap_rect) r
            else Rect.setBottom (Rect.top pixmap_rect + Rect.height orig)
                   (Rect.setTop (Rect.top pixmap_rect) r)
          else r in
        let r :=
          if Rect.right pixmap_rect <? Rect.right r then
            if mode_in mode [resize_tr; resize_br; resize_r]
            then Rect.setRight (Rect.right pixmap_rect) r
            else Rect.setLeft (Rect.right pixmap_rect - Rect.width orig)
                   (Rect.setRight (Rect.right pixmap_rect) r)
          else r in
        if Rect.bottom pixmap_rect <? Rect.bottom r then
          if mode_in mode [resize_bl; resize_br; resize_b]
          then Rect.setBottom (Rect.bottom pixmap_rect) r
          else Rect.setTop (Rect.bottom pixmap_rect - Rect.height orig)
                 (Rect.setBottom (Rect.bottom pixmap_rect) r)
        else r
  end.

(** Lines 563-573: at least 10 widget pixels each way. *)
Definition ensure_minimum_size (mode : Handle) (r : QRect) : QRect :=
  let r :=
    if Rect.width r <? 10 then
      if mode_in mode [resize_tl; resize_bl; resize_l]
      then Rect.setLeft (Rect.right r - 10) r
      else Rect.setRight (Rect.left r + 10) r
    else r in
  if Rect.height r <? 10 then
    if mode_in mode [resize_tl; resize_tr; resize_t]
    then Rect.setTop (Rect.bottom r - 10) r
    else Rect.setBottom (Rect.top r + 10) r
  else r.

(** Lines 583-649: the frame rectangle [(x1, y1, x2, y2)] that is committed,
    from the two converted corners. *)
Definition adjusted_frame_rect (w : VideoPreviewWidget) (mode : Handle)
  (top_left_frame bottom_right_frame : QPoint) (frame_width frame_height : Z)
  : Result (Z * Z * Z * Z) :=
  let orig_width :=
    match original_crop_rect w with
    | Some r => if Rect.isValid r then Rect.width r
                else px bottom_right_frame - px top_left_frame
    | None => px bottom_right_frame - px top_left_frame
    end in
  let orig_height :=
    match original_crop_rect w with
    | Some r => if Rect.isValid r then Rect.height r
                else py bottom_right_frame - py top_left_frame
    | None => py bottom_right_frame - py top_left_frame
    end in
  let '(x1, y1, x2, y2) :=
    if Handle_eqb mode move then
      (* keep the size *)
      let x1 := clamp 0 (px top_left_frame) (frame_width - orig_width) in
      let y1 := clamp 0 (py top_left_frame) (frame_height - orig_height) in
      let x2 := x1 + orig_width in
      let y2 := y1 + orig_height in
      let '(x1, x2) := if frame_width <? x2
                       then (frame_width - orig_width, frame_width) else (x1, x2) in
      let '(y1, y2) := if frame_height <? y2
                       then (frame_height - orig_height, frame_height) else (y1, y2) in
      (x1, y1, x2, y2)
    else
      let x1 := clamp 0 (px top_left_frame) (frame_width - 1) in
      let y1 := clamp 0 (py top_left_frame) (frame_height - 1) in
      let x2 := Z.max (x1 + 1) (Z.min (px bottom_right_frame) frame_width) in
      let y2 := Z.max (y1 + 1) (Z.min (py bottom_right_frame) frame_height) in
      (x1, y1, x2, y2) in
  (* minimum size and valid bounds *)
  let x2 := if x2 <=? x1 then Z.min (x1 + 1) frame_width else x2 in
  let y2 := if y2 <=? y1 then Z.min (y1 + 1) frame_height else y2 in
  (* final validation *)
  let '(x1, y1, x2, y2) :=
    if (x1 <? 0) || (y1 <? 0) || (frame_width <? x2) || (frame_height <? y2) then
      let '(x1, x2) := if x1 <? 0 then (0, x2 - x1) else (x1, x2) in
      let '(y1, y2) := if y1 <? 0 then (0, y2 - y1) else (y1, y2) in
      let '(x1, x2) := if frame_width <? x2
                       then (Z.max 0 (x1 - (x2 - frame_width)), frame_width)
                       else (x1, x2) in
      let '(y1, y2) := if frame_height <? y2
                       then (Z.max 0 (y1 - (y2 - frame_height)), frame_height)
                       else (y1, y2) in
      (x1, y1, x2, y2)
    else (x1, y1, x2, y2) in
  (* constraints *)
  '(x1, y1, x2, y2) <- apply_constraints w x1 y1 x2 y2 ;;
  (* re-clamp after the constraint *)
  if Handle_eqb mode move && (lock_size w || lock_aspect_ratio w) then
    let final_width := x2 - x1 in
    let final_height := y2 - y1 in
    let x1 := clamp 0 x1 (frame_width - final_width) in
    let y1 := clamp 0 y1 (frame_height - final_height) in
    Ok (x1, y1, x1 + final_width, y1 + final_height)
  else
    Ok (clamp 0 x1 (frame_width - 1), clamp 0 y1 (frame_height - 1),
        clamp 0 x2 frame_width, clamp 0 y2 frame_height).

(** Lines 384-661. *)
Definition adjust_crop_rect (mouse_pos_widget : QPoint) (mw : MainWindow)
  : Result MainWindow :=
  let w := preview_widget mw in
  match original_crop_rect_widget w, current_frame w with
  | Some orig, Some frame =>
      if negb (Rect.isValid orig) then Ok mw
      else
        let mouse_pos_widget := clamp_to_pixmap w mouse_pos_widget in
        match start_point_widget w with
        | None => Err AttributeError
        | Some spw =>
            let delta_x := px mouse_pos_widget - px spw in
            let delta_y := py mouse_pos_widget - py spw in
            let frame_height := shape_height frame in
            let frame_width := shape_width frame in
            let ratio_locked :=
              match lock_aspect_ratio w, aspect_ratio w with
              | true, Some ar => Some ar
              | _, _ => None
              end in
            match adjust_mode w with
            | None =>
                (* no branch of lines 440-515 applies: [return] at line 517 *)
                match ratio_locked with
                | Some (_, 0) => Err ZeroDivisionError
                | _ => Ok mw
                end
            | Some mode =>
                '(delta_x, delta_y) <-
                  match ratio_locked with
                  | Some (rw, rh) =>
                      if Handle_eqb mode move then Ok (delta_x, delta_y)
                      else locked_deltas mode orig rw rh delta_x delta_y
                  | None => Ok (delta_x, delta_y)
                  end ;;
                let r := new_rect_widget w mode orig delta_x delta_y in
                let r := constrain_to_pixmap w mode orig r in
                let r := ensure_minimum_size mode r in
                let w := with_crop_rect_widget (Some r) w in
                top_left_frame <- widget_to_frame_coords w (Rect.topLeft r) ;;
                bottom_right_frame <- widget_to_frame_coords w (Rect.bottomRight r) ;;
                match top_left_frame, bottom_right_frame with
                | Some tl, Some br =>
                    if point_truthy (Some tl) && point_truthy (Some br) then
                      '(x1, y1, x2, y2) <-
                        adjusted_frame_rect w mode tl br frame_width frame_height ;;
                      let crop := QRect_xywh x1 y1 (x2 - x1) (y2 - y1) in
                      let w := with_crop_rect (Some crop) w in
                      let top_left_widget := frame_to_widget_coords w (Rect.topLeft crop) in
                      let bottom_right_widget :=
                        frame_to_widget_coords w (Rect.bottomRight crop) in
                      let w :=
                        if point_truthy (Some top_left_widget)
                           && point_truthy (Some bottom_right_widget)
                        then with_crop_rect_widget
                               (Some (QRect_points top_left_widget bottom_right_widget)) w
                        else w in
                      on_crop_changed crop (with_preview_widget w mw)
                    else Ok (with_preview_widget w mw)
                | _, _ => Ok (with_preview_widget w mw)
                end
            end
        end
  | _, _ => Ok mw
  end.

(* ================================================================== *)
(** ** Mouse and resize events *)

Inductive MouseButton := LeftButton | OtherButton.

(** Lines 267-297. *)
Definition mousePressEvent (button : MouseButton) (mouse_pos : QPoint) (mw : MainWindow)
  : Result MainWindow :=
  let w := preview_widget mw in
  match current_frame w, button with
  | None, _ => Ok mw
  | Some _, OtherButton => Ok mw
  | Some _, LeftButton =>
      let handle := if rect_truthy (crop_rect_widget w)
                    then get_crop_handle_at w mouse_pos else None in
      match handle with
      | Some h =>
          (* fine-tuning the existing rectangle *)
          let w := with_adjusting true w in
          let w := with_adjust_mode (Some h) w in
          let w := with_original_crop_rect
                     (if rect_truthy (crop_rect w) then crop_rect w else None) w in
          let w := with_original_crop_rect_widget
                     (if rect_truthy (crop_rect_widget w) then crop_rect_widget w else None) w in
          let w := with_start_point_widget (Some mouse_pos) w in
          let w := with_end_point_widget (Some mouse_pos) w in
          Ok (with_preview_widget w mw)
      | None =>
          (* a new selection *)
          let w := with_drawing true w in
          let w := with_adjusting false w in
          let w := with_adjust_mode None w in
          frame_point <- widget_to_frame_coords w mouse_pos ;;
          if point_truthy frame_point then
            let w := with_start_point frame_point w in
            let w := with_end_point frame_point w in
            let w := with_start_point_widget (Some mouse_pos) w in
            let w := with_end_point_widget (Some mouse_pos) w in
            update_crop_rect (with_preview_widget w mw)
          else Ok (with_preview_widget w mw)
      end
  end.

(** Lines 323-360: while drawing with a locked ratio the pointer is moved onto
    the ratio, then back onto the pixmap. *)
Definition ratio_constrained_pos (w : VideoPreviewWidget) (mouse_pos : QPoint)
  : Result QPoint :=
  match lock_aspect_ratio w, aspect_ratio w, start_point_widget w with
  | true, Some (rw, rh), Some spw =>
      if point_truthy (Some spw) then
        let delta_x := px mouse_pos - px spw in
        let delta_y := py mouse_pos - py spw in
        if rh =? 0 then Err ZeroDivisionError
        else
          let target_ratio := true_div rw rh in
          '(constrained_width, constrained_height) <-
            (if Z.abs delta_x >? Z.abs delta_y then
               if Qeq_bool target_ratio 0 then Err ZeroDivisionError
               else Ok (Z.abs delta_x,
                        int_of_float (inject_Z (Z.abs delta_x) / target_ratio)%Q)
             else Ok (int_of_float (inject_Z (Z.abs delta_y) * target_ratio)%Q,
                      Z.abs delta_y)) ;;
          let x := if delta_x <? 0 then px spw - constrained_width
                   else px spw + constrained_width in
          let y := if delta_y <? 0 then py spw - constrained_height
                   else py spw + constrained_height in
          Ok (clamp_to_pixmap w (mkQPoint x y))
      else Ok mouse_pos
  | _, _, _ => Ok mouse_pos
  end.

(** Lines 299-368; the cursor shape is not part of the state. *)
Definition mouseMoveEvent (mouse_pos : QPoint) (mw : MainWindow) : Result MainWindow :=
  let w := preview_widget mw in
  match current_frame w with
  | None => Ok mw
  | Some _ =>
      if adjusting w && rect_truthy (original_crop_rect_widget w)
      then adjust_crop_rect mouse_pos mw
      else if drawing w then
        let mouse_pos := clamp_to_pixmap w mouse_pos in
        mouse_pos <- ratio_constrained_pos w mouse_pos ;;
        frame_point <- widget_to_frame_coords w mouse_pos ;;
        if point_truthy frame_point then
          let w := with_end_point frame_point w in
          let w := with_end_point_widget (Some mouse_pos) w in
          update_crop_rect (with_preview_widget w mw)
        else Ok mw
      else Ok mw
  end.

(** Lines 370-382. *)
Definition mouseReleaseEvent (button : MouseButton) (mw : MainWindow) : Result MainWindow :=
  let w := preview_widget mw in
  match button with
  | OtherButton => Ok mw
  | LeftButton =>
      if adjusting w then
        let w := with_adjusting false w in
        let w := with_adjust_mode None w in
        let w := with_original_crop_rect None w in
        let w := with_original_crop_rect_widget None w in
        Ok (with_preview_widget w mw)
      else
        let w := with_drawing false w in
        if point_truthy (start_point w) && point_truthy (end_point w)
        then update_crop_rect (with_preview_widget w mw)
        else Ok (with_preview_widget w mw)
  end.

(** Lines 663-668. *)
Definition set_shadow_count (count : Z) (w : VideoPreviewWidget) : Result VideoPreviewWidget :=
  let w := with_shadow_count count w in
  if rect_truthy (crop_rect w) then update_shadow_crops count w else Ok w.

(** Lines 807-819; Qt has set the new size when the handler runs. *)
Definition resizeEvent (new_size : QSize) (w : VideoPreviewWidget) : Result VideoPreviewWidget :=
  let w := with_size new_size w in
  match current_frame w with
  | None => Ok w
  | Some _ =>
      w <- update_base_pixmap w ;;
      match crop_rect w with
      | Some crop =>
          if Rect.isValid crop then
            let top_left_widget := frame_to_widget_coords w (Rect.topLeft crop) in
            let bottom_right_widget := frame_to_widget_coords w (Rect.bottomRight crop) in
            let w := with_crop_rect_widget
                       (Some (QRect_points top_left_widget bottom_right_widget)) w in
            update_shadow_crops (shadow_count w) w
          else Ok w
      | None => Ok w
      end
  end.

(* ================================================================== *)
(** ** MainWindow: the constraint controls *)

(** [ratio_map] of [on_aspect_ratio_changed], a dict read with [get]. *)
Definition ratio_map : list (string * (Z * Z)) :=
  [ ("16:9", (16, 9)); ("4:3", (4, 3)); ("1:1", (1, 1));
    ("21:9", (21, 9)); ("9:16", (9, 16)); ("3:4", (3, 4)) ]%string.

Fixpoint dict_get (d : list (string * (Z * Z))) (key : string) : option (Z * Z) :=
  match d with
  | [] => None
  | (k, v) :: rest => if String.eqb k key then Some v else dict_get rest key
  end.

(** [a == b] on two ratios, each a tuple or [None]. *)
Definition ratio_eqb (a b : option (Z * Z)) : bool :=
  match a, b with
  | None, None => true
  | Some (a1, a2), Some (b1, b2) => (a1 =? b1) && (a2 =? b2)
  | _, _ => false
  end.

(** [MainWindow.clear_crop], lines 1380-1383, also written out at lines
    1328-1329 and 1347-1348. *)
Definition MainWindow_clear_crop (mw : MainWindow) : MainWindow :=
  let mw := with_main_crop_rect None mw in
  with_preview_widget (clear_crop (preview_widget mw)) mw.

(** Lines 1368-1371. *)
Definition on_shadow_count_changed (count : Z) (mw : MainWindow) : Result MainWindow :=
  let mw := with_main_shadow_count count mw in
  w <- set_shadow_count count (preview_widget mw) ;;
  Ok (with_preview_widget w mw).

Section Translations.

(** [translations.tr(key, locale)]: the module is not among the sources, so the
    table of labels is a parameter. *)
Variable tr : string -> string -> string.

(** [MainWindow.__init__] and [setup_ui]: the combo box shows its first item. *)
Definition MainWindow_init : MainWindow :=
  mkWindow VideoPreviewWidget_init "en_US" None None 1 (tr "free" "en_US") 16 9 false false.

(** The two handlers call each other through the controls: [setChecked] emits
    [toggled] and [setCurrentText] emits [currentTextChanged], each only when
    the value changes, and the connected slot runs before the setter returns.
    [fuel] bounds the nesting; [signals_settle] below shows that 6 is enough
    for every state. *)
Fixpoint on_aspect_ratio_changed_at (fuel : nat) (ratio_text : string) (mw : MainWindow)
  {struct fuel} : Result MainWindow :=
  match fuel with
  | O => Err SignalLoop
  | S fuel =>
      let setChecked (b : bool) (mw : MainWindow) : Result MainWindow :=
        if Bool.eqb (lock_aspect_checkbox mw) b then Ok mw
        else on_lock_aspect_toggled_at fuel b (with_lock_aspect_checkbox b mw) in
      let free_text := tr "free" (locale mw) in
      let custom_text := tr "custom" (locale mw) in
      (* show or hide the custom inputs *)
      mw <- (if String.eqb ratio_text custom_text then
               let mw := with_custom_ratio_widget true mw in
               let mw := with_crop_aspect_ratio
                           (Some (custom_width_spin mw, custom_height_spin mw)) mw in
               setChecked true mw
             else Ok (with_custom_ratio_widget false mw)) ;;
      let old_ratio := crop_aspect_ratio mw in
      mw <- (if String.eqb ratio_text free_text then
               setChecked false (with_crop_aspect_ratio None mw)
             else if negb (String.eqb ratio_text custom_text) then
               setChecked true (with_crop_aspect_ratio (dict_get ratio_map ratio_text) mw)
             else Ok mw) ;;
      (* clear the crop if the ratio actually changed *)
      let mw := if negb (ratio_eqb old_ratio (crop_aspect_ratio mw))
                then MainWindow_clear_crop mw else mw in
      let w := with_aspect_ratio (crop_aspect_ratio mw) (preview_widget mw) in
      let w := with_lock_aspect_ratio
                 (match crop_aspect_ratio mw with Some _ => true | None => false end) w in
      Ok (with_preview_widget w mw)
  end
with on_lock_aspect_toggled_at (fuel : nat) (locked : bool) (mw : MainWindow)
  {struct fuel} : Result MainWindow :=
  match fuel with
  | O => Err SignalLoop
  | S fuel =>
      let setCurrentText (t : string) (mw : MainWindow) : Result MainWindow :=
        if String.eqb (aspect_ratio_combo mw) t then Ok mw
        else on_aspect_ratio_changed_at fuel t (with_aspect_ratio_combo t mw) in
      mw <- (if negb locked then
               setCurrentText (tr "free" (locale mw)) (with_crop_aspect_ratio None mw)
             else Ok mw) ;;
      let w := with_lock_aspect_ratio locked (preview_widget mw) in
      let w := with_aspect_ratio (if locked then crop_aspect_ratio mw else None) w in
      let mw := with_preview_widget w mw in
      (* an existing crop is updated, not dropped *)
      if rect_truthy (crop_rect (preview_widget mw)) then update_crop_rect mw else Ok mw
  end.

(** Lines 1291-1333 and 1354-1366. *)
Definition on_aspect_ratio_changed : string -> MainWindow -> Result MainWindow :=
  on_aspect_ratio_changed_at 6.
Definition on_lock_aspect_toggled : bool -> MainWindow -> Result MainWindow :=
  on_lock_aspect_toggled_at 6.

(** Lines 1335-1352. *)
Definition on_custom_ratio_changed (mw : MainWindow) : MainWindow :=
  if String.eqb (aspect_ratio_combo mw) (tr "custom" (locale mw)) then
    let old_ratio := crop_aspect_ratio mw in
    let mw := with_crop_aspect_ratio
                (Some (custom_width_spin mw, custom_height_spin mw)) mw in
    let mw := if negb (ratio_eqb old_ratio (crop_aspect_ratio mw))
              then MainWindow_clear_crop mw else mw in
    let w := with_aspect_ratio (crop_aspect_ratio mw) (preview_widget mw) in
    let w := with_lock_aspect_ratio true w in
    with_preview_widget w mw
  else mw.

(** What the user and Qt do to the window.  A control changes its value and
    then emits its signal, and only when the value is new. *)
Inductive Event :=
| LoadFrame (frame : Frame)                 (* [load_frame]: [preview_widget.set_frame] *)
| Resize (new_size : QSize)
| Press (button : MouseButton) (pos : QPoint)
| Move (pos : QPoint)
| Release (button : MouseButton)
| SelectRatio (text : string)               (* an item of [aspect_ratio_combo] *)
| ClickLock                                 (* a click on [lock_aspect_checkbox] *)
| SetCustomWidth (v : Z)
| SetCustomHeight (v : Z)
| SetShadowCount (n : Z)
| ClearCrop.

Definition handle (e : Event) (mw : MainWindow) : Result MainWindow :=
  match e with
  | LoadFrame frame =>
      w <- set_frame (Some frame) (preview_widget mw) ;; Ok (with_preview_widget w mw)
  | Resize new_size =>
      w <- resizeEvent new_size (preview_widget mw) ;; Ok (with_preview_widget w mw)
  | Press button pos => mousePressEvent button pos mw
  | Move pos => mouseMoveEvent pos mw
  | Release button => mouseReleaseEvent button mw
  | SelectRatio text =>
      if String.eqb (aspect_ratio_combo mw) text then Ok mw
      else on_aspect_ratio_changed text (with_aspect_ratio_combo text mw)
  | ClickLock =>
      let b := negb (lock_aspect_checkbox mw) in
      on_lock_aspect_toggled b (with_lock_aspect_checkbox b mw)
  | SetCustomWidth v =>
      if custom_width_spin mw =? v then Ok mw
      else Ok (on_custom_ratio_changed (with_custom_width_spin v mw))
  | SetCustomHeight v =>
      if custom_height_spin mw =? v then Ok mw
      else Ok (on_custom_ratio_changed (with_custom_height_spin v mw))
  | SetShadowCount n =>
      if main_shadow_count mw =? n then Ok mw else on_shadow_count_changed n mw
  | ClearCrop => Ok (MainWindow_clear_crop mw)
  end.

(** The events of a session, in order; an exception ends it. *)
Fixpoint run (events : list Event) (mw : MainWindow) : Result MainWindow :=
  match events with
  | [] => Ok mw
  | e :: rest => mw <- handle e mw ;; run rest mw
  end.

End Translations.

(* ================================================================== *)
(** ** Sample sessions and specification vocabulary *)

(** A table of English labels, to run concrete sessions. *)
Definition tr_en (key locale : string) : string :=
  if String.eqb key "free" then "Free"
  else if String.eqb key "custom" then "Custom"
  else key.

(** The [i]-th replica candidate of [crop] and the test of line 784. *)
Definition shadow_rect (crop : QRect) (i : Z) : QRect :=
  QRect_xywh (Rect.x crop + Rect.width crop * i) (Rect.y crop)
             (Rect.width crop) (Rect.height crop).
Definition shadow_fits (frame_width : Z) (crop : QRect) (i : Z) : bool :=
  Rect.x crop + Rect.width crop * i + Rect.width crop <=? frame_width.

(** The widget of the tiling example: a 250 x 200 frame with the primary
    rectangle [{x: 0, y: 0, width: 100, height: 50}]. *)
Definition tiling_widget : VideoPreviewWidget :=
  with_crop_rect (Some (QRect_xywh 0 0 100 50))
    (with_current_frame (Some (mkFrame 200 250)) VideoPreviewWidget_init).

(** A 2560 x 1440 frame shown in the 640 x 360 widget: the scale is 1/4 on
    both axes and the offsets are 0, all exact in binary64. *)
Definition qhd_widget : VideoPreviewWidget :=
  match set_frame (Some (mkFrame 1440 2560)) VideoPreviewWidget_init with
  | Ok w => w
  | Err _ => VideoPreviewWidget_init
  end.


(** The ratios the controls can produce: the entries of [ratio_map] and the
    two spin boxes, whose range is 1..1000. *)
Definition ratio_well_formed (w : VideoPreviewWidget) : Prop :=
  match aspect_ratio w with
  | Some (rw, rh) => 0 < rw /\ 0 < rh
  | None => True
  end.

(** The state a session of events leaves, from a fresh window. *)
Definition state_after (events : list Event) : MainWindow :=
  match run tr_en events (MainWindow_init tr_en) with
  | Ok mw => mw
  | Err _ => MainWindow_init tr_en
  end.

(** A 640 x 360 frame fills the 640 x 360 widget (scale 1, no offset).  A
    rectangle is drawn from (100, 100) to (300, 200), then dragged 50 pixels to
    the right by its interior. *)
Definition adjusted_session : list Event :=
  [ LoadFrame (mkFrame 360 640);
    Press LeftButton (mkQPoint 100 100); Move (mkQPoint 300 200); Release LeftButton;
    Press LeftButton (mkQPoint 200 150); Move (mkQPoint 250 150); Release LeftButton ].

(** A portrait 360 x 640 frame in a 640 x 640 widget (scale 1, horizontal
    offset 140) with the ratio 16:9 selected.  A rectangle is drawn from
    the widget point (150, 10) toward (400, 610), then dragged 10 pixels down
    by its interior. *)
Definition portrait_session : list Event :=
  [ Resize (mkQSize 640 640); LoadFrame (mkFrame 640 360); SelectRatio "16:9";
    Press LeftButton (mkQPoint 150 10); Move (mkQPoint 400 610); Release LeftButton;
    Press LeftButton (mkQPoint 300 300); Move (mkQPoint 300 310) ].

(** A 640 x 360 frame in the 640 x 360 widget with 16:9 selected.  A rectangle
    is drawn from (100, 100) toward (300, 200), then its bottom-right corner
    is dragged from (300, 212) to (132, 120). *)
Definition corner_resize_session : list Event :=
  [ LoadFrame (mkFrame 360 640); SelectRatio "16:9";
    Press LeftButton (mkQPoint 100 100); Move (mkQPoint 300 200); Release LeftButton;
    Press LeftButton (mkQPoint 300 212); Move (mkQPoint 132 120) ].

(** No code of the repository sets [lock_size]; a caller of the widget does,
    here on a 640 x 360 frame in the 640 x 360 widget. *)
Definition fixed_size_window : MainWindow :=
  let mw := state_after [LoadFrame (mkFrame 360 640)] in
  with_preview_widget
    (with_locked_size (Some (320, 240)) (with_lock_size true (preview_widget mw))) mw.

(** A rectangle drawn from (400, 100), then its bottom-right corner dragged
    from (499, 199) to (520, 220). *)
Definition fixed_size_session : list Event :=
  [ Press LeftButton (mkQPoint 400 100); Move (mkQPoint 500 200); Release LeftButton;
    Press LeftButton (mkQPoint 499 199); Move (mkQPoint 520 220) ].

(** The bounds of the committed rectangle in a frame. *)
Definition within_frame (frame : Frame) (r : QRect) : Prop :=
  0 <= Rect.x r /\ 0 <= Rect.y r
  /\ Rect.x r + Rect.width r <= shape_width frame
  /\ Rect.y r + Rect.height r <= shape_height frame
  /\ 1 <= Rect.width r /\ 1 <= Rect.height r.

(* ================================================================== *)
(** ** Further vocabulary *)

(** The two halves of [adjusted_frame_rect], for the statements below.
    Lines 583-628: the frame rectangle [(x1, y1, x2, y2)] of the two converted
    corners, brought into the frame. *)
Definition clamped_frame_rect (w : VideoPreviewWidget) (mode : Handle)
  (top_left_frame bottom_right_frame : QPoint) (frame_width frame_height : Z)
  : Z * Z * Z * Z :=
  let orig_width :=
    match original_crop_rect w with
    | Some r => if Rect.isValid r then Rect.width r
                else px bottom_right_frame - px top_left_frame
    | None => px bottom_right_frame - px top_left_frame
    end in
  let orig_height :=
    match original_crop_rect w with
    | Some r => if Rect.isValid r then Rect.height r
                else py bottom_right_frame - py top_left_frame
    | None => py bottom_right_frame - py top_left_frame
    end in
  let '(x1, y1, x2, y2) :=
    if Handle_eqb mode move then
      (* keep the size *)
      let x1 := clamp 0 (px top_left_frame) (frame_width - orig_width) in
      let y1 := clamp 0 (py top_left_frame) (frame_height - orig_height) in
      let x2 := x1 + orig_width in
      let y2 := y1 + orig_height in
      let '(x1, x2) := if frame_width <? x2
                       then (frame_width - orig_width, frame_width) else (x1, x2) in
      let '(y1, y2) := if frame_height <? y2
                       then (frame_height - orig_height, frame_height) else (y1, y2) in
      (x1, y1, x2, y2)
    else
      let x1 := clamp 0 (px top_left_frame) (frame_width - 1) in
      let y1 := clamp 0 (py top_left_frame) (frame_height - 1) in
      let x2 := Z.max (x1 + 1) (Z.min (px bottom_right_frame) frame_width) in
      let y2 := Z.max (y1 + 1) (Z.min (py bottom_right_frame) frame_height) in
      (x1, y1, x2, y2) in
  (* minimum size and valid bounds *)
  let x2 := if x2 <=? x1 then Z.min (x1 + 1) frame_width else x2 in
  let y2 := if y2 <=? y1 then Z.min (y1 + 1) frame_height else y2 in
  (* final validation *)
  if (x1 <? 0) || (y1 <? 0) || (frame_width <? x2) || (frame_height <? y2) then
    let '(x1, x2) := if x1 <? 0 then (0, x2 - x1) else (x1, x2) in
    let '(y1, y2) := if y1 <? 0 then (0, y2 - y1) else (y1, y2) in
    let '(x1, x2) := if frame_width <? x2
                     then (Z.max 0 (x1 - (x2 - frame_width)), frame_width)
                     else (x1, x2) in
    let '(y1, y2) := if frame_height <? y2
                     then (Z.max 0 (y1 - (y2 - frame_height)), frame_height)
                     else (y1, y2) in
    (x1, y1, x2, y2)
  else (x1, y1, x2, y2).

(** Lines 636-649: the re-clamp after the constraint. *)
Definition reclamp (w : VideoPreviewWidget) (mode : Handle) (frame_width frame_height : Z)
  (x1 y1 x2 y2 : Z) : Z * Z * Z * Z :=
  if Handle_eqb mode move && (lock_size w || lock_aspect_ratio w) then
    let final_width := x2 - x1 in
    let final_height := y2 - y1 in
    let x1 := clamp 0 x1 (frame_width - final_width) in
    let y1 := clamp 0 y1 (frame_height - final_height) in
    (x1, y1, x1 + final_width, y1 + final_height)
  else
    (clamp 0 x1 (frame_width - 1), clamp 0 y1 (frame_height - 1),
     clamp 0 x2 frame_width, clamp 0 y2 frame_height).

(** The transform has been computed from a non-empty pixmap. *)
Definition scale_nonzero (w : VideoPreviewWidget) : Prop :=
  Qeq_bool (frame_to_widget_scale_x w) 0 = false
  /\ Qeq_bool (frame_to_widget_scale_y w) 0 = false.

(** The state of [fixed_size_session] when the corner drag begins. *)
Definition fixed_size_resizing : MainWindow :=
  match run tr_en (firstn 4 fixed_size_session) fixed_size_window with
  | Ok mw => mw
  | Err _ => fixed_size_window
  end.

(** The state of [corner_resize_session] when the corner drag begins. *)
Definition corner_resizing : MainWindow :=
  state_after (firstn 6 corner_resize_session).


(** The state of [adjusted_session] when the drag of the interior begins. *)
Definition moving : MainWindow := state_after (firstn 5 adjusted_session).

(** ** Vocabulary of the further properties *)

(** The top and the bottom row of [crop] are not drawn on widget row 0. *)
Definition replica_rows_visible (w : VideoPreviewWidget) (crop : QRect) : Prop :=
  py (frame_to_widget_coords w (Rect.topLeft crop)) <> 0
  /\ py (frame_to_widget_coords w (Rect.bottomRight crop)) <> 0.


(** [QCheckBox.setChecked] and [QComboBox.setCurrentText] as the two handlers
    use them: the signal is emitted, and the slot run, only on a change. *)
Definition setChecked_at (tr : string -> string -> string) (fuel : nat) (b : bool)
  (mw : MainWindow) : Result MainWindow :=
  if Bool.eqb (lock_aspect_checkbox mw) b then Ok mw
  else on_lock_aspect_toggled_at tr fuel b (with_lock_aspect_checkbox b mw).

Definition setCurrentText_at (tr : string -> string -> string) (fuel : nat) (t : string)
  (mw : MainWindow) : Result MainWindow :=
  if String.eqb (aspect_ratio_combo mw) t then Ok mw
  else on_aspect_ratio_changed_at tr fuel t (with_aspect_ratio_combo t mw).

(** The controls of the window and its counters, apart from the rectangle. *)
Definition same_controls (mw mw' : MainWindow) : Prop :=
  locale mw' = locale mw
  /\ aspect_ratio_combo mw' = aspect_ratio_combo mw
  /\ lock_aspect_checkbox mw' = lock_aspect_checkbox mw
  /\ crop_aspect_ratio mw' = crop_aspect_ratio mw
  /\ custom_width_spin mw' = custom_width_spin mw
  /\ custom_height_spin mw' = custom_height_spin mw
  /\ custom_ratio_widget mw' = custom_ratio_widget mw
  /\ main_shadow_count mw' = main_shadow_count mw.

(** What a widget keeps when only its rectangles are rewritten. *)
Definition same_gesture (w w' : VideoPreviewWidget) : Prop :=
  current_frame w' = current_frame w
  /\ drawing w' = drawing w /\ adjusting w' = adjusting w
  /\ adjust_mode w' = adjust_mode w
  /\ start_point w' = start_point w /\ end_point w' = end_point w
  /\ start_point_widget w' = start_point_widget w
  /\ end_point_widget w' = end_point_widget w
  /\ original_crop_rect w' = original_crop_rect w
  /\ original_crop_rect_widget w' = original_crop_rect_widget w
  /\ lock_aspect_ratio w' = lock_aspect_ratio w /\ aspect_ratio w' = aspect_ratio w
  /\ lock_size w' = lock_size w /\ locked_size w' = locked_size w
  /\ shadow_count w' = shadow_count w /\ size w' = size w.

(** No rectangle, no replica and no stored frame point, on either object. *)
Definition cleared (mw : MainWindow) : Prop :=
  main_crop_rect mw = None
  /\ crop_rect (preview_widget mw) = None
  /\ crop_rect_widget (preview_widget mw) = None
  /\ shadow_crop_rects (preview_widget mw) = []
  /\ shadow_crop_rects_widget (preview_widget mw) = []
  /\ start_point (preview_widget mw) = None
  /\ end_point (preview_widget mw) = None.

(** The ratio an item of the combo box other than the custom one stands for. *)
Definition item_ratio (tr : string -> string -> string) (mw : MainWindow)
  (ratio_text : string) : option (Z * Z) :=
  if String.eqb ratio_text (tr "free"%string (locale mw)) then None
  else dict_get ratio_map ratio_text.

(** The window's copies agree with the widget: [MainWindow.crop_rect],
    [shadow_count] and [crop_aspect_ratio] against the widget's [crop_rect],
    [shadow_count] and [aspect_ratio]. *)
Definition mirrored (mw : MainWindow) : Prop :=
  main_crop_rect mw = crop_rect (preview_widget mw)
  /\ main_shadow_count mw = shadow_count (preview_widget mw)
  /\ crop_aspect_ratio mw = aspect_ratio (preview_widget mw).

(** A step that leaves the controls alone and keeps the two rectangles in
    step. *)
Definition keeps (mw mw' : MainWindow) : Prop :=
  same_controls mw mw'
  /\ shadow_count (preview_widget mw') = shadow_count (preview_widget mw)
  /\ aspect_ratio (preview_widget mw') = aspect_ratio (preview_widget mw)
  /\ (main_crop_rect mw = crop_rect (preview_widget mw) ->
      main_crop_rect mw' = crop_rect (preview_widget mw')).

(** The part of [mirrored] that the two slots never disturb. *)
Definition rect_mirrored (mw : MainWindow) : Prop :=
  main_crop_rect mw = crop_rect (preview_widget mw)
  /\ main_shadow_count mw = shadow_count (preview_widget mw).

(** Any event but a press of the left button. *)
Definition no_left_press (e : Event) : Prop :=
  match e with
  | Press LeftButton _ => False
  | _ => True
  end.

(** No rectangle on either object, no start point, no adjust gesture. *)
Definition no_selection (mw : MainWindow) : Prop :=
  main_crop_rect mw = None
  /\ crop_rect (preview_widget mw) = None
  /\ start_point (preview_widget mw) = None
  /\ adjusting (preview_widget mw) = false.

(* ================================================================== *)
(** ** MainWindow: what [export_video] writes *)

(** [apply_rotation] (lines 1251-1259) on the shape of a frame: [cv2.rotate] by
    a quarter turn swaps height and width, a half turn keeps them. *)
Definition apply_rotation (rotation : Z) (frame : Frame) : Frame :=
  if rotation =? 90 then mkFrame (shape_width frame) (shape_height frame)
  else if rotation =? 180 then frame
  else if rotation =? 270 then mkFrame (shape_width frame) (shape_height frame)
  else frame.

(** Lines 1424-1429: the rectangles to export, the main one first. *)
Definition all_crop_rects (mw : MainWindow) : list QRect :=
  if rect_truthy (main_crop_rect mw) then
    match main_crop_rect mw with
    | Some r =>
        [r] ++ (match shadow_crop_rects (preview_widget mw) with
                | [] => []
                | l => l
                end)
    | None => []
    end
  else [].

(** The length of [a[start:stop]] on an axis of [n] entries, for
    [0 <= start <= stop]. *)
Definition slice_len (start stop n : Z) : Z := Z.min stop n - Z.min start n.

(** What becomes of one frame of the input (lines 1536-1572): it is skipped
    ([continue]), or the slice [frame[y:y+h, x:x+w]] is written as it is, or
    the slice is first resized to the size of the rectangle. *)
Inductive Written :=
| Skipped
| Copied (x y w h : Z)
| Resized (x y w h : Z).

(** Lines 1538-1572, on the frame after [apply_rotation]. *)
Definition export_frame (crop_rect : QRect) (frame : Frame) : Written :=
  let crop_width := Rect.width crop_rect in
  let crop_height := Rect.height crop_rect in
  let frame_height := shape_height frame in
  let frame_width := shape_width frame in
  let x := Rect.x crop_rect in
  let y := Rect.y crop_rect in
  let w := Rect.width crop_rect in
  let h := Rect.height crop_rect in
  (* clamp crop coordinates to frame bounds *)
  let x := Z.max 0 (Z.min x (frame_width - 1)) in
  let y := Z.max 0 (Z.min y (frame_height - 1)) in
  let w := Z.min w (frame_width - x) in
  let h := Z.min h (frame_height - y) in
  if (w <=? 0) || (h <=? 0) then Skipped
  else
    let rows := slice_len y (y + h) frame_height in
    let cols := slice_len x (x + w) frame_width in
    if rows * cols =? 0 then Skipped
    else if negb (cols =? crop_width) || negb (rows =? crop_height) then
      if (0 <? cols) && (0 <? rows) then Resized x y cols rows else Skipped
    else Copied x y cols rows.

(** The slice is the rectangle itself. *)
Definition exported_as_is (frame : Frame) (r : QRect) : Prop :=
  export_frame r frame = Copied (Rect.x r) (Rect.y r) (Rect.width r) (Rect.height r).

(* ================================================================== *)
(** ** MainWindow: the video, rotation and playback *)

(** An open [cv2.VideoCapture]: [frame_at i] is what
    [set(CAP_PROP_POS_FRAMES, i)] followed by [read()] returns, [None] when
    [ret] is false.  Only the shape of a frame matters here. *)
Record Video := mkVideo { frame_at : Z -> option Frame }.

(** The window with its video attributes ([__init__], lines 906-923) and the
    value and maximum of [frame_slider]. *)
Record Player := mkPlayer {
  main_window : MainWindow;
  video_cap : option Video;
  first_frame : option Frame;
  rotation : Z;
  current_frame_idx : Z;
  total_frames : Z;
  fps : Q;
  is_playing : bool;
  frame_slider_value : Z;
  frame_slider_maximum : Z
}.

Definition with_main_window (v : MainWindow) (p : Player) : Player :=
  mkPlayer v (video_cap p) (first_frame p) (rotation p) (current_frame_idx p)
           (total_frames p) (fps p) (is_playing p) (frame_slider_value p)
           (frame_slider_maximum p).
Definition with_first_frame (v : option Frame) (p : Player) : Player :=
  mkPlayer (main_window p) (video_cap p) v (rotation p) (current_frame_idx p)
           (total_frames p) (fps p) (is_playing p) (frame_slider_value p)
           (frame_slider_maximum p).
Definition with_rotation (v : Z) (p : Player) : Player :=
  mkPlayer (main_window p) (video_cap p) (first_frame p) v (current_frame_idx p)
           (total_frames p) (fps p) (is_playing p) (frame_slider_value p)
           (frame_slider_maximum p).
Definition with_current_frame_idx (v : Z) (p : Player) : Player :=
  mkPlayer (main_window p) (video_cap p) (first_frame p) (rotation p) v
           (total_frames p) (fps p) (is_playing p) (frame_slider_value p)
           (frame_slider_maximum p).
Definition with_is_playing (v : bool) (p : Player) : Player :=
  mkPlayer (main_window p) (video_cap p) (first_frame p) (rotation p)
           (current_frame_idx p) (total_frames p) (fps p) v (frame_slider_value p)
           (frame_slider_maximum p).
Definition with_frame_slider_value (v : Z) (p : Player) : Player :=
  mkPlayer (main_window p) (video_cap p) (first_frame p) (rotation p)
           (current_frame_idx p) (total_frames p) (fps p) (is_playing p) v
           (frame_slider_maximum p).

(** [x is not None]. *)
Definition is_not_None {A} (x : option A) : bool :=
  match x with Some _ => true | None => false end.

(** Lines 1229-1236: the frame [load_frame] takes, the cached first frame
    while a rectangle is there or being drawn, the frame read at [frame_idx]
    otherwise; [None] when [read] fails. *)
Definition source_frame (cap : Video) (frame_idx : Z) (p : Player) : option Frame :=
  let w := preview_widget (main_window p) in
  if (drawing w || is_not_None (crop_rect w)) && is_not_None (first_frame p)
  then first_frame p
  else frame_at cap frame_idx.

(** [load_frame] and [seek_frame] (lines 1222-1249 and 1407-1410).
    [frame_slider.setValue] bounds the value to the range of the slider and,
    when the value changes, emits [valueChanged], whose slot [seek_frame] calls
    [load_frame] again unless the video is playing.  [fuel] bounds that
    nesting; [load_frame_settles] shows that 3 is enough. *)
Fixpoint load_frame_at (fuel : nat) (frame_idx : Z) (p : Player) {struct fuel}
  : Result Player :=
  match fuel with
  | O => Err SignalLoop
  | S fuel =>
      match video_cap p with
      | None => Ok p
      | Some cap =>
          match source_frame cap frame_idx p with
          | None => Ok p
          | Some frame =>
              let p := with_current_frame_idx frame_idx p in
              let frame := apply_rotation (rotation p) frame in
              w <- set_frame (Some frame) (preview_widget (main_window p)) ;;
              let p := with_main_window (with_preview_widget w (main_window p)) p in
              (* frame_slider.setValue(frame_idx) *)
              let v := clamp 0 frame_idx (frame_slider_maximum p) in
              if v =? frame_slider_value p then Ok p
              else
                let p := with_frame_slider_value v p in
                (* seek_frame(v) *)
                if negb (is_playing p) then load_frame_at fuel v p else Ok p
          end
      end
  end.

Definition load_frame : Z -> Player -> Result Player := load_frame_at 3.

(** Lines 1407-1410: the slider is moved by the user. *)
Definition seek_frame (frame_idx : Z) (p : Player) : Result Player :=
  if negb (is_playing p) then load_frame frame_idx p else Ok p.

(** Lines 1273-1288. *)
Definition rotate_video (degrees : Z) (p : Player) : Result Player :=
  let p := with_rotation degrees p in
  (* clear the selection: the dimensions change *)
  let p := with_main_window (MainWindow_clear_crop (main_window p)) p in
  p <- (match first_frame p with
        | Some _ =>
            match video_cap p with
            | None => Err AttributeError
            | Some cap =>
                match frame_at cap 0 with
                | Some first_frame => Ok (with_first_frame (Some first_frame) p)
                | None => Ok p
                end
            end
        | None => Ok p
        end) ;;
  if is_not_None (video_cap p) then load_frame (current_frame_idx p) p else Ok p.

(** Lines 1261-1271; [%] with a positive modulus is [Z.modulo]. *)
Definition rotate_left (p : Player) : Result Player :=
  let new_rotation := (rotation p - 90) mod 360 in
  rotate_video new_rotation p.

Definition rotate_right (p : Player) : Result Player :=
  let new_rotation := (rotation p + 90) mod 360 in
  rotate_video new_rotation p.

(** Lines 1385-1398; the timer itself is not part of the state. *)
Definition toggle_playback (p : Player) : Result Player :=
  match video_cap p with
  | None => Ok p
  | Some _ =>
      if is_playing p then Ok (with_is_playing false p)
      else if Qeq_bool (fps p) 0 then Err ZeroDivisionError
      else Ok (with_is_playing true p)
  end.

(** Lines 1400-1405: the slot of the playback timer. *)
Definition next_frame (p : Player) : Result Player :=
  if current_frame_idx p <? total_frames p - 1
  then load_frame (current_frame_idx p + 1) p
  else toggle_playback p.

(** [n] ticks of the playback timer while it runs. *)
Fixpoint ticks (n : nat) (p : Player) : Result Player :=
  match n with
  | O => Ok p
  | S n => p <- (if is_playing p then next_frame p else Ok p) ;; ticks n p
  end.

(** Every frame the video yields, and the cached first one, has no zero
    side. *)
Definition frames_not_empty (p : Player) : Prop :=
  (forall cap i f, video_cap p = Some cap -> frame_at cap i = Some f ->
     shape_width f <> 0 /\ shape_height f <> 0)
  /\ (forall f, first_frame p = Some f -> shape_width f <> 0 /\ shape_height f <> 0).

(** A frame the player can show: the cached one or one the video yields. *)
Definition frame_of (p : Player) (f : Frame) : Prop :=
  first_frame p = Some f
  \/ exists cap i, video_cap p = Some cap /\ frame_at cap i = Some f.

(** The four positions of [rotation]. *)
Definition quarter_turn (r : Z) : Prop := r = 0 \/ r = 90 \/ r = 180 \/ r = 270.

(** A video of 640 x 360 frames, 100 of them, opened in a fresh window. *)
Definition sample_video : Video :=
  mkVideo (fun i => if (0 <=? i) && (i <? 100) then Some (mkFrame 360 640) else None).

Definition sample_player : Player :=
  match load_frame 0 (mkPlayer (MainWindow_init tr_en) (Some sample_video)
                               (Some (mkFrame 360 640)) 0 0 100 30 false 0 99) with
  | Ok p => p
  | Err _ => mkPlayer (MainWindow_init tr_en) None None 0 0 0 30 false 0 0
  end.

(* ================================================================== *)
(** * [build.py] and [create_icons.py] *)

(** ** [build_app]: the PyInstaller command *)

(** Lines 28-67 of [build.py]: the list [cmd], for a target platform and the
    files [os.path.exists] finds. *)
Definition build_cmd (target_platform : string) (path_exists : string -> bool)
  : list string :=
  let cmd := ["pyinstaller"; "--name=videooo-cut"; "--windowed"; "--clean";
              "--noconfirm"]%string in
  let cmd := cmd ++ ["--hidden-import=translations"]%string in
  let cmd :=
    if String.eqb target_platform "darwin" || String.eqb target_platform "mac" then
      let cmd := cmd ++ ["--onedir"; "--osx-bundle-identifier=com.videooo.cut"]%string in
      let icon_path := "icon.icns"%string in
      if path_exists icon_path then cmd ++ ["--icon"%string; icon_path] else cmd
    else if String.eqb target_platform "windows" || String.eqb target_platform "win" then
      let cmd := cmd ++ ["--onefile"; "--noconsole"]%string in
      let icon_path := "icon.ico"%string in
      if path_exists icon_path then cmd ++ ["--icon"%string; icon_path] else cmd
    else cmd ++ ["--onefile"]%string in
  cmd ++ ["main.py"]%string.

(** What [subprocess.run(cmd, check=True)] does. *)
Inductive RunResult := Completed | CalledProcessError | FileNotFoundError.

(** How [build_app] ends: it returns, or [sys.exit(code)]. *)
Inductive Outcome := Returned | SystemExit (code : Z).

(** Lines 15-95: [target_platform] defaults to [platform.system().lower()]. *)
Definition build_app (target_platform : option string) (system_lower : string)
  (path_exists : string -> bool) (run : list string -> RunResult)
  : list string * Outcome :=
  let target_platform :=
    match target_platform with Some t => t | None => system_lower end in
  let cmd := build_cmd target_platform path_exists in
  (cmd, match run cmd with
        | Completed => Returned
        | CalledProcessError => SystemExit 1
        | FileNotFoundError => SystemExit 1
        end).

(** [x in sys.argv]. *)
Definition in_argv (x : string) (argv : list string) : bool :=
  existsb (String.eqb x) argv.

(** Lines 98-104: the script. *)
Definition build_main (argv : list string) (system_lower : string)
  (path_exists : string -> bool) (run : list string -> RunResult)
  : list string * Outcome :=
  if in_argv "--mac" argv then build_app (Some "mac"%string) system_lower path_exists run
  else if in_argv "--win" argv then
    build_app (Some "win"%string) system_lower path_exists run
  else build_app None system_lower path_exists run.

(** The platforms [build_cmd] tells apart. *)
Definition targets_mac (t : string) : bool := String.eqb t "darwin" || String.eqb t "mac".
Definition targets_windows (t : string) : bool :=
  negb (targets_mac t) && (String.eqb t "windows" || String.eqb t "win").

(** ** [create_icon_image]: the two strokes of the V *)

(** A stroke of [ImageDraw.line]: its two end points and its width. *)
Record Stroke := mkStroke { from_x : Z; from_y : Z; to_x : Z; to_y : Z; stroke_width : Z }.

(** Lines 17-21 of [create_icons.py]; [//] is floor division. *)
Definition create_icon_image (size : Z * Z) : list Stroke :=
  let '(width, height) := size in
  let margin := width / 4 in
  let line_width := Z.max (width / 8) 4 in
  [ mkStroke margin margin (width / 2) (height - margin) line_width;
    mkStroke (width / 2) (height - margin) (width - margin) margin line_width ].

(* ================================================================== *)
(** * Properties *)

(** Reading an attribute back through the setters. *)
Ltac fields :=
  cbn [
       current_frame base_pixmap crop_rect crop_rect_widget shadow_crop_rects
       shadow_crop_rects_widget drawing adjusting adjust_mode start_point end_point
       start_point_widget end_point_widget original_crop_rect
       original_crop_rect_widget frame_to_widget_scale_x frame_to_widget_scale_y
       widget_offset_x widget_offset_y handle_size lock_aspect_ratio aspect_ratio
       lock_size locked_size shadow_count size preview_widget locale main_crop_rect
       crop_aspect_ratio main_shadow_count aspect_ratio_combo custom_width_spin
       custom_height_spin lock_aspect_checkbox custom_ratio_widget
       with_current_frame with_base_pixmap with_crop_rect with_crop_rect_widget
       with_shadow_crop_rects with_shadow_crop_rects_widget with_drawing
       with_adjusting with_adjust_mode with_start_point with_end_point
       with_start_point_widget with_end_point_widget with_original_crop_rect
       with_original_crop_rect_widget with_frame_to_widget_scale_x
       with_frame_to_widget_scale_y with_widget_offset_x with_widget_offset_y
       with_lock_aspect_ratio with_aspect_ratio with_lock_size with_locked_size
       with_shadow_count with_size with_preview_widget with_main_crop_rect
       with_crop_aspect_ratio with_main_shadow_count with_aspect_ratio_combo
       with_custom_width_spin with_custom_height_spin with_lock_aspect_checkbox
       with_custom_ratio_widget ] in *.

(** ** Replicas *)

Lemma shadow_step_rects frame_width crop w i :
  shadow_crop_rects (shadow_step frame_width crop w i)
  = shadow_crop_rects w
    ++ (if shadow_fits frame_width crop i then [shadow_rect crop i] else []).
Proof.
  unfold shadow_step, shadow_fits, shadow_rect.
  destruct (_ <=? frame_width).
  - match goal with |- context [if ?c then _ else _] => destruct c end; reflexivity.
  - now rewrite app_nil_r.
Qed.

Lemma shadow_loop_rects frame_width crop l : forall w,
  shadow_crop_rects (fold_left (shadow_step frame_width crop) l w)
  = shadow_crop_rects w
    ++ map (shadow_rect crop) (filter (shadow_fits frame_width crop) l).
Proof.
  induction l as [|i l IH]; intros w; simpl.
  - now rewrite app_nil_r.
  - rewrite IH, shadow_step_rects.
    destruct (shadow_fits frame_width crop i); simpl; now rewrite <- app_assoc.
Qed.

Lemma in_range lo hi i : In i (range lo hi) <-> lo <= i < hi.
Proof.
  unfold range. rewrite in_map_iff. split.
  - intros (k & <- & Hk). apply in_seq in Hk. lia.
  - intros H. exists (Z.to_nat (i - lo)). split; [lia|].
    apply in_seq. lia.
Qed.

(** After [update_shadow_crops] with a valid primary rectangle, the replica
    list is the candidates that fit, in order. *)
Lemma update_shadow_crops_rects w n crop frame :
  crop_rect w = Some crop -> Rect.isValid crop = true ->
  current_frame w = Some frame -> 1 < n ->
  exists w', update_shadow_crops n w = Ok w'
    /\ shadow_crop_rects w'
       = map (shadow_rect crop) (filter (shadow_fits (shape_width frame) crop) (range 1 n)).
Proof.
  intros Hc Hv Hf Hn. unfold update_shadow_crops.
  rewrite Hc, Hf. simpl. rewrite Hv. simpl.
  destruct (n <=? 1) eqn:E; [apply Z.leb_le in E; lia|].
  eexists; split; [reflexivity|].
  now rewrite shadow_loop_rects.
Qed.

(** C5.  For every widget state with a (valid) primary rectangle and a loaded
    frame and for every count [n], [update_shadow_crops n] returns normally and
    leaves as replicas exactly the candidates [i] in [1..n-1] that fit, each one
    the primary shifted right by [i * width] with the same [y], [width] and
    [height], kept if and only if its [x + width <= frame_width]; for every
    [n <= 1] the replica list is empty. *)
Theorem replicas_tile_right (w : VideoPreviewWidget) (n : Z) (crop : QRect) (frame : Frame) :
  crop_rect w = Some crop -> Rect.isValid crop = true ->
  current_frame w = Some frame ->
  exists w', update_shadow_crops n w = Ok w'
    /\ shadow_crop_rects w'
       = map (shadow_rect crop) (filter (shadow_fits (shape_width frame) crop) (range 1 n))
    /\ (forall r, In r (shadow_crop_rects w') <->
          exists i, 1 <= i < n
            /\ Rect.x r = Rect.x crop + i * Rect.width crop
            /\ Rect.y r = Rect.y crop
            /\ Rect.width r = Rect.width crop
            /\ Rect.height r = Rect.height crop
            /\ Rect.x r + Rect.width r <= shape_width frame)
    /\ (n <= 1 -> shadow_crop_rects w' = []).
Proof.
  intros Hc Hv Hf.
  assert (Hrect : forall i r, r = shadow_rect crop i <->
            Rect.x r = Rect.x crop + i * Rect.width crop /\ Rect.y r = Rect.y crop
            /\ Rect.width r = Rect.width crop /\ Rect.height r = Rect.height crop).
  { intros i [a b c d]. unfold shadow_rect, QRect_xywh, Rect.x, Rect.y, Rect.width, Rect.height.
    destruct crop as [a' b' c' d']; simpl. split.
    - intros H; injection H; intros; subst. lia.
    - intros (H1 & H2 & H3 & H4). f_equal; lia. }
  destruct (Z_lt_le_dec 1 n) as [Hn|Hn].
  - destruct (update_shadow_crops_rects w n crop frame Hc Hv Hf Hn) as (w' & Hu & Hl).
    exists w'. split; [exact Hu|]. split; [exact Hl|]. split; [|lia].
    intros r. rewrite Hl, in_map_iff. split.
    + intros (i & <- & Hi). apply filter_In in Hi. destruct Hi as [Hi Hfit].
      apply in_range in Hi. exists i. split; [exact Hi|].
      destruct (proj1 (Hrect i _) eq_refl) as (H1 & H2 & H3 & H4).
      repeat split; try assumption; try lia.
      unfold shadow_fits in Hfit. apply Z.leb_le in Hfit. lia.
    + intros (i & Hi & H1 & H2 & H3 & H4 & Hfit).
      exists i. split.
      * symmetry. apply Hrect. auto.
      * apply filter_In. split; [now apply in_range|].
        unfold shadow_fits. apply Z.leb_le. lia.
  - exists (with_shadow_crop_rects_widget [] (with_shadow_crop_rects [] w)).
    assert (E : update_shadow_crops n w
                = Ok (with_shadow_crop_rects_widget [] (with_shadow_crop_rects [] w))).
    { unfold update_shadow_crops. apply Z.leb_le in Hn. rewrite Hn.
      now rewrite orb_true_r. }
    split; [exact E|]. simpl.
    assert (Er : range 1 n = []).
    { unfold range. replace (Z.to_nat (n - 1)) with 0%nat by lia. reflexivity. }
    rewrite Er. simpl. split; [reflexivity|]. split; [|reflexivity].
    intros r. split; [intros []|]. intros (i & Hi & _). lia.
Qed.

(** C3, as stated, fails: with the primary rectangle [{0, 0, 100, 50}] in a
    250 x 200 frame and [n = 4], the replicas are not the two at [x = 100] and
    [x = 200]; the candidate at [x = 200] ends at 300 and is dropped. *)
Lemma replica_example_refuted :
  ~ (exists w', update_shadow_crops 4 tiling_widget = Ok w'
                /\ map Rect.x (shadow_crop_rects w') = [100; 200]).
Proof.
  intros (w' & Hu & Hx).
  vm_compute in Hu. injection Hu as <-. vm_compute in Hx. discriminate.
Qed.

(** C3, amended.  With the primary rectangle [{x: 0, y: 0, width: 100,
    height: 50}], a 250 x 200 frame and [n = 4], replica generation yields
    exactly one replica, at [x = 100]; with [n = 1] it yields none. *)
Theorem replica_example (w : VideoPreviewWidget) :
  crop_rect w = Some (QRect_xywh 0 0 100 50) ->
  current_frame w = Some (mkFrame 200 250) ->
  (exists w', update_shadow_crops 4 w = Ok w'
              /\ shadow_crop_rects w' = [QRect_xywh 100 0 100 50])
  /\ (exists w', update_shadow_crops 1 w = Ok w' /\ shadow_crop_rects w' = []).
Proof.
  intros Hc Hf. split.
  - destruct (update_shadow_crops_rects w 4 _ _ Hc eq_refl Hf ltac:(lia)) as (w' & Hu & Hl).
    exists w'. split; [exact Hu|]. rewrite Hl. reflexivity.
  - eexists. split; [|shelve]. unfold update_shadow_crops.
    rewrite orb_true_r. reflexivity.
    Unshelve. reflexivity.
Qed.

Lemma replica_example_witness :
  crop_rect tiling_widget = Some (QRect_xywh 0 0 100 50)
  /\ current_frame tiling_widget = Some (mkFrame 200 250)
  /\ ((exists w', update_shadow_crops 4 tiling_widget = Ok w'
                  /\ shadow_crop_rects w' = [QRect_xywh 100 0 100 50])
      /\ (exists w', update_shadow_crops 1 tiling_widget = Ok w'
                     /\ shadow_crop_rects w' = [])).
Proof.
  split; [reflexivity|]. split; [reflexivity|].
  apply (replica_example tiling_widget); reflexivity.
Defined.

Lemma replicas_tile_right_witness :
  exists w', update_shadow_crops 3 tiling_widget = Ok w'
    /\ shadow_crop_rects w'
       = map (shadow_rect (QRect_xywh 0 0 100 50))
             (filter (shadow_fits 250 (QRect_xywh 0 0 100 50)) (range 1 3))
    /\ (forall r, In r (shadow_crop_rects w') <->
          exists i, 1 <= i < 3
            /\ Rect.x r = Rect.x (QRect_xywh 0 0 100 50) + i * Rect.width (QRect_xywh 0 0 100 50)
            /\ Rect.y r = Rect.y (QRect_xywh 0 0 100 50)
            /\ Rect.width r = Rect.width (QRect_xywh 0 0 100 50)
            /\ Rect.height r = Rect.height (QRect_xywh 0 0 100 50)
            /\ Rect.x r + Rect.width r <= 250)
    /\ (3 <= 1 -> shadow_crop_rects w' = []).
Proof.
  apply (replicas_tile_right tiling_widget 3 (QRect_xywh 0 0 100 50) (mkFrame 200 250));
    reflexivity.
Defined.

(** ** Handles *)



(** ** Press without a frame *)

(** C10.  When no frame is loaded, a press with any button at any point
    returns normally and leaves the whole state of the window and of its
    widget as it was. *)
Theorem press_without_frame (button : MouseButton) (pos : QPoint) (mw : MainWindow) :
  current_frame (preview_widget mw) = None ->
  mousePressEvent button pos mw = Ok mw.
Proof.
  intros H. unfold mousePressEvent. now rewrite H.
Qed.

Lemma press_without_frame_witness :
  current_frame (preview_widget (MainWindow_init tr_en)) = None
  /\ mousePressEvent LeftButton (mkQPoint 320 180) (MainWindow_init tr_en)
     = Ok (MainWindow_init tr_en).
Proof.
  split; [reflexivity|].
  apply (press_without_frame LeftButton (mkQPoint 320 180) (MainWindow_init tr_en)).
  reflexivity.
Defined.
(** ** Truncation of a quotient *)

Ltac push_inject :=
  repeat (rewrite inject_Z_plus || rewrite inject_Z_mult
          || rewrite inject_Z_opp || unfold Z.sub).

Lemma int_of_float_quot (N M : Z) (x : Q) :
  0 < M -> (x == inject_Z N / inject_Z M)%Q -> int_of_float x = Z.quot N M.
Proof.
  intros HM Hx. destruct M as [|m|m]; try lia.
  rewrite <- Qmake_Qdiv in Hx.
  unfold int_of_float.
  destruct (Qle_bool 0 x) eqn:E.
  - apply Qle_bool_iff in E. rewrite Hx in E.
    assert (0 <= N) by (unfold Qle in E; simpl in E; lia).
    rewrite (Qfloor_comp _ _ Hx). simpl.
    symmetry. now apply Z.quot_div_nonneg.
  - assert (Hlt : (x < 0)%Q).
    { apply Qnot_le_lt. intros H. apply Qle_bool_iff in H. congruence. }
    rewrite Hx in Hlt.
    assert (N < 0) by (unfold Qlt in Hlt; simpl in Hlt; lia).
    rewrite (Qceiling_comp _ _ Hx). unfold Qceiling. simpl.
    rewrite <- (Z.opp_involutive N) at 2. rewrite Z.quot_opp_l by lia.
    f_equal. symmetry. apply Z.quot_div_nonneg; lia.
Qed.


(** ** Round trip through widget coordinates *)

Lemma scaled_fits (fw fh W H : Z) :
  0 < fw -> 0 < fh -> 0 < W -> 0 < H ->
  let pm := scaled (mkQSize fw fh) (mkQSize W H) in
  0 < size_width pm <= W /\ 0 < size_height pm <= H.
Proof.
  intros Hfw Hfh HW HH. unfold scaled. simpl.
  destruct (fw <=? 0) eqn:E1; [apply Z.leb_le in E1; lia|].
  destruct (fh <=? 0) eqn:E2; [apply Z.leb_le in E2; lia|].
  destruct (W <=? 0) eqn:E3; [apply Z.leb_le in E3; lia|].
  destruct (H <=? 0) eqn:E4; [apply Z.leb_le in E4; lia|].
  simpl.
  destruct (Z.quot (H * fw) fh <=? W) eqn:E; simpl.
  - apply Z.leb_le in E. lia.
  - apply Z.leb_gt in E.
    rewrite Z.quot_div_nonneg in E by nia.
    rewrite (Z.quot_div_nonneg (W * fh) fw) by nia.
    assert (W * fh / fw < H).
    { apply Z.div_lt_upper_bound; [lia|].
      pose proof (Z.mul_div_le (H * fw) fh Hfh). nia. }
    lia.
Qed.

Lemma Qeq_bool_true_div_pos (a b : Z) :
  0 < a -> 0 < b -> Qeq_bool (true_div a b) 0 = false.
Proof.
  intros Ha Hb. destruct (Qeq_bool (true_div a b) 0) eqn:E; [|reflexivity].
  apply Qeq_bool_iff in E. unfold true_div in E.
  destruct b as [|b|b]; try lia. rewrite <- Qmake_Qdiv in E.
  unfold Qeq in E. simpl in E. lia.
Qed.




(** ** Release while idle *)

Lemma update_shadow_crops_ignores_lists n a b w :
  update_shadow_crops n (with_shadow_crop_rects_widget a (with_shadow_crop_rects b w))
  = update_shadow_crops n w.
Proof. destruct w; reflexivity. Qed.

Lemma shadow_loop_shape frame_width crop w l : forall v,
  with_shadow_crop_rects_widget (shadow_crop_rects_widget v)
    (with_shadow_crop_rects (shadow_crop_rects v) w) = v ->
  let v' := fold_left (shadow_step frame_width crop) l v in
  with_shadow_crop_rects_widget (shadow_crop_rects_widget v')
    (with_shadow_crop_rects (shadow_crop_rects v') w) = v'.
Proof.
  induction l as [|i l IH]; intros v Hv; simpl; [exact Hv|].
  apply IH. unfold shadow_step.
  repeat match goal with |- context [if ?c then _ else _] => destruct c end;
    try exact Hv; rewrite <- Hv; destruct w; reflexivity.
Qed.

(** [update_shadow_crops] writes the two replica lists and nothing else. *)
Lemma update_shadow_crops_shape n w w' :
  update_shadow_crops n w = Ok w' ->
  w' = with_shadow_crop_rects_widget (shadow_crop_rects_widget w')
         (with_shadow_crop_rects (shadow_crop_rects w') w).
Proof.
  unfold update_shadow_crops.
  destruct (negb (rect_truthy (crop_rect w)) || (n <=? 1)).
  - intros H; injection H as <-. destruct w; reflexivity.
  - destruct (crop_rect w) as [crop|]; [|discriminate].
    destruct (current_frame w) as [frame|]; [|discriminate].
    intros H; injection H as <-.
    symmetry. apply shadow_loop_shape. destruct w; reflexivity.
Qed.

(** [update_shadow_crops] never raises inside [update_crop_rect]. *)
Lemma update_shadow_crops_ok n w frame :
  current_frame w = Some frame -> exists w', update_shadow_crops n w = Ok w'.
Proof.
  intros Hf. unfold update_shadow_crops. rewrite Hf.
  destruct (negb (rect_truthy (crop_rect w)) || (n <=? 1)) eqn:E; [eauto|].
  destruct (crop_rect w); [eauto|]. discriminate.
Qed.



(** What [update_crop_rect] does when its guard passes. *)
Lemma update_crop_rect_runs mw sp ep frame crop :
  let w := preview_widget mw in
  let w1 := redraw_widget_rect (with_crop_rect (Some crop) w) in
  start_point w = Some sp -> end_point w = Some ep -> current_frame w = Some frame ->
  point_truthy (Some sp) && point_truthy (Some ep) = true ->
  drawn_frame_rect w sp ep frame = Ok crop ->
  exists v1 v2,
    update_shadow_crops (main_shadow_count mw) w1 = Ok v1
    /\ update_shadow_crops (shadow_count v1) v1 = Ok v2
    /\ v2 = with_shadow_crop_rects_widget (shadow_crop_rects_widget v2)
              (with_shadow_crop_rects (shadow_crop_rects v2) w1)
    /\ update_crop_rect mw
       = Ok (with_preview_widget v2 (with_main_crop_rect (Some crop) mw)).
Proof.
  destruct mw as [w loc mcr car msc arc cws chs lac crw]. fields.
  intros Hs He Hf Ht Hd. unfold update_crop_rect. fields.
  rewrite Hs, He, Hf, Ht, Hd. cbn [bind]. unfold on_crop_changed. fields.
  set (w1 := redraw_widget_rect (with_crop_rect (Some crop) w)).
  assert (Hf1 : current_frame w1 = Some frame).
  { unfold w1, redraw_widget_rect.
    repeat match goal with |- context [match ?c with _ => _ end] => destruct c end;
      fields; exact Hf. }
  destruct (update_shadow_crops_ok msc w1 frame Hf1) as (v1 & Hv1).
  rewrite Hv1. cbn [bind]. fields.
  pose proof (update_shadow_crops_shape _ _ _ Hv1) as S1.
  assert (Hf2 : current_frame v1 = Some frame).
  { rewrite S1. fields. exact Hf1. }
  destruct (update_shadow_crops_ok (shadow_count v1) v1 frame Hf2) as (v2 & Hv2).
  rewrite Hv2. cbn [bind]. fields.
  pose proof (update_shadow_crops_shape _ _ _ Hv2) as S2.
  exists v1, v2. repeat split; try assumption.
  etransitivity; [exact S2|]. rewrite S1. destruct w1; reflexivity.
Qed.

Lemma redraw_widget_rect_keeps w :
  start_point (redraw_widget_rect w) = start_point w
  /\ end_point (redraw_widget_rect w) = end_point w
  /\ current_frame (redraw_widget_rect w) = current_frame w
  /\ drawing (redraw_widget_rect w) = drawing w
  /\ adjusting (redraw_widget_rect w) = adjusting w
  /\ crop_rect (redraw_widget_rect w) = crop_rect w
  /\ aspect_ratio (redraw_widget_rect w) = aspect_ratio w.
Proof.
  unfold redraw_widget_rect.
  repeat match goal with |- context [match ?c with _ => _ end] => destruct c end;
    fields; repeat split.
Qed.


Lemma apply_constraints_ok w x1 y1 x2 y2 :
  ratio_well_formed w -> exists r, apply_constraints w x1 y1 x2 y2 = Ok r.
Proof.
  unfold ratio_well_formed, apply_constraints. intros Hr.
  destruct (lock_size w), (locked_size w), (lock_aspect_ratio w);
    destruct (aspect_ratio w) as [[rw rh]|]; try (eexists; reflexivity).
  all: unfold apply_aspect_ratio_constraint;
    destruct (rh =? 0) eqn:E; [apply Z.eqb_eq in E; lia|];
    rewrite Qeq_bool_true_div_pos by lia;
    destruct (Qgtb _ _); eexists; reflexivity.
Qed.

Lemma drawn_frame_rect_ok w sp ep frame :
  ratio_well_formed w -> exists crop, drawn_frame_rect w sp ep frame = Ok crop.
Proof.
  intros Hr. unfold drawn_frame_rect.
  destruct (apply_constraints_ok w (Z.min (px sp) (px ep)) (Z.min (py sp) (py ep))
              (Z.max (px sp) (px ep)) (Z.max (py sp) (py ep)) Hr) as ([[[x1 y1] x2] y2] & E).
  rewrite E. cbn [bind]. eexists; reflexivity.
Qed.

(** The two ways [update_crop_rect] returns: untouched, or with the rectangle
    of the stored points committed on both objects. *)
Lemma update_crop_rect_cases mw mw' :
  update_crop_rect mw = Ok mw' ->
  mw' = mw
  \/ exists sp ep frame crop v2,
       start_point (preview_widget mw) = Some sp
       /\ end_point (preview_widget mw) = Some ep
       /\ current_frame (preview_widget mw) = Some frame
       /\ point_truthy (Some sp) && point_truthy (Some ep) = true
       /\ drawn_frame_rect (preview_widget mw) sp ep frame = Ok crop
       /\ v2 = with_shadow_crop_rects_widget (shadow_crop_rects_widget v2)
                 (with_shadow_crop_rects (shadow_crop_rects v2)
                    (redraw_widget_rect (with_crop_rect (Some crop) (preview_widget mw))))
       /\ mw' = with_preview_widget v2 (with_main_crop_rect (Some crop) mw).
Proof.
  intros H. pose proof H as H0. unfold update_crop_rect in H.
  destruct (start_point (preview_widget mw)) as [sp|] eqn:Hs;
    [|injection H as <-; now left].
  destruct (end_point (preview_widget mw)) as [ep|] eqn:He;
    [|injection H as <-; now left].
  destruct (current_frame (preview_widget mw)) as [frame|] eqn:Hf;
    [|injection H as <-; now left].
  destruct (point_truthy (Some sp) && point_truthy (Some ep)) eqn:Ht;
    [|injection H as <-; now left].
  destruct (drawn_frame_rect (preview_widget mw) sp ep frame) as [crop|] eqn:Hd;
    [|discriminate].
  clear H.
  destruct (update_crop_rect_runs mw sp ep frame crop Hs He Hf Ht Hd)
    as (v1 & v2 & Hv1 & Hv2 & S2 & Hrun).
  rewrite Hrun in H0. injection H0 as <-.
  right. exists sp, ep, frame, crop, v2. repeat split; assumption.
Qed.


Lemma update_crop_rect_ok mw :
  ratio_well_formed (preview_widget mw) -> exists mw', update_crop_rect mw = Ok mw'.
Proof.
  intros Hr. unfold update_crop_rect.
  destruct (start_point (preview_widget mw)) as [sp|] eqn:Hs; [|eauto].
  destruct (end_point (preview_widget mw)) as [ep|] eqn:He; [|eauto].
  destruct (current_frame (preview_widget mw)) as [frame|] eqn:Hf; [|eauto].
  destruct (point_truthy (Some sp) && point_truthy (Some ep)) eqn:Ht; [|eauto].
  destruct (drawn_frame_rect_ok (preview_widget mw) sp ep frame Hr) as (crop & Hd).
  destruct (update_crop_rect_runs mw sp ep frame crop Hs He Hf Ht Hd)
    as (v1 & v2 & Hv1 & Hv2 & S2 & Hrun).
  unfold update_crop_rect in Hrun. rewrite Hs, He, Hf, Ht in Hrun. eauto.
Qed.






(** ** Sessions that leave the stated bounds *)

(** C1.  The bounds [0 <= x], [0 <= y], [x + width <= frame width],
    [y + height <= frame height], [width >= 1], [height >= 1] are what lines
    614-649 of [adjust_crop_rect] set out to keep, and they fail: in a
    360 x 640 frame with 16:9 locked, a rectangle drawn against the right edge
    and then moved is committed as (0, 20, 1066 x 600), 706 pixels wider than
    the frame.  The move branch of the re-clamp (lines 638-644) keeps the size
    the ratio constraint has just enlarged. *)
Theorem moved_rectangle_leaves_frame :
  let mw := state_after portrait_session in
  run tr_en portrait_session (MainWindow_init tr_en) = Ok mw
  /\ current_frame (preview_widget mw) = Some (mkFrame 640 360)
  /\ crop_rect (preview_widget mw) = Some (QRect_xywh 0 20 1066 600)
  /\ main_crop_rect mw = Some (QRect_xywh 0 20 1066 600)
  /\ ~ within_frame (mkFrame 640 360) (QRect_xywh 0 20 1066 600).
Proof.
  intros mw.
  split; [vm_compute; reflexivity|].
  split; [vm_compute; reflexivity|].
  split; [vm_compute; reflexivity|].
  split; [vm_compute; reflexivity|].
  unfold within_frame. vm_compute. intros (_ & _ & H & _). apply H. reflexivity.
Qed.

(** C7, as stated, fails: with 16:9 locked, dragging the bottom-right corner
    commits the rectangle 31 x 17, and [|31/17 - 16/9| = 7/153] is not below
    [1/31]. *)
Lemma aspect_tolerance_refuted :
  let mw := state_after corner_resize_session in
  run tr_en corner_resize_session (MainWindow_init tr_en) = Ok mw
  /\ lock_aspect_ratio (preview_widget mw) = true
  /\ aspect_ratio (preview_widget mw) = Some (16, 9)
  /\ adjust_mode (preview_widget mw) = Some resize_br
  /\ crop_rect (preview_widget mw) = Some (QRect_xywh 100 100 31 17)
  /\ ~ (Qabs (true_div 31 17 - true_div 16 9) < true_div 1 (Z.max 31 17))%Q.
Proof.
  intros mw.
  do 5 (split; [vm_compute; reflexivity|]).
  vm_compute. discriminate.
Qed.

(** C2, as stated, fails: with the size locked to 320 x 240 in a 640 x 360
    frame, a rectangle whose origin is (400, 100) is committed as 240 x 240
    after a resize update, cut at the right and bottom edges of the frame. *)
Lemma fixed_size_refuted :
  lock_size (preview_widget fixed_size_window) = true
  /\ locked_size (preview_widget fixed_size_window) = Some (320, 240)
  /\ exists mw,
       run tr_en fixed_size_session fixed_size_window = Ok mw
       /\ adjust_mode (preview_widget mw) = Some resize_br
       /\ crop_rect (preview_widget mw) = Some (QRect_xywh 400 100 240 240)
       /\ ~ (Rect.width (QRect_xywh 400 100 240 240) = 320
             /\ Rect.height (QRect_xywh 400 100 240 240) = 240).
Proof.
  split; [reflexivity|]. split; [reflexivity|].
  eexists. split; [vm_compute; reflexivity|].
  split; [vm_compute; reflexivity|].
  split; [vm_compute; reflexivity|].
  vm_compute. intros [H _]. discriminate.
Qed.

(** ** Adjusting under a constraint *)

Lemma Handle_eqb_eq a b : Handle_eqb a b = true <-> a = b.
Proof. destruct a, b; simpl; split; intros H; congruence. Qed.

(** [adjusted_frame_rect] is its two halves, one after the other. *)
Lemma adjusted_frame_rect_split w mode tl br fw fh :
  adjusted_frame_rect w mode tl br fw fh
  = (let '(x1, y1, x2, y2) := clamped_frame_rect w mode tl br fw fh in
     '(x1, y1, x2, y2) <- apply_constraints w x1 y1 x2 y2 ;;
     Ok (reclamp w mode fw fh x1 y1 x2 y2)).
Proof.
  unfold adjusted_frame_rect, clamped_frame_rect, reclamp.
  repeat first
    [ reflexivity
    | match goal with |- context [if ?c then _ else _] => destruct c end ].
Qed.

Lemma adjusted_frame_rect_inputs v w mode tl br fw fh :
  adjusted_frame_rect (with_crop_rect_widget v w) mode tl br fw fh
  = adjusted_frame_rect w mode tl br fw fh.
Proof. destruct w; reflexivity. Qed.

(** An update of [adjust_crop_rect] either commits nothing, or commits on both
    objects the rectangle [adjusted_frame_rect] computes for the current mode. *)
Lemma adjust_crop_rect_commits pos mw mw' :
  adjust_crop_rect pos mw = Ok mw' ->
  (crop_rect (preview_widget mw') = crop_rect (preview_widget mw)
   /\ main_crop_rect mw' = main_crop_rect mw)
  \/ exists mode frame tl br x1 y1 x2 y2,
       adjust_mode (preview_widget mw) = Some mode
       /\ current_frame (preview_widget mw) = Some frame
       /\ adjusted_frame_rect (preview_widget mw) mode tl br
            (shape_width frame) (shape_height frame) = Ok (x1, y1, x2, y2)
       /\ crop_rect (preview_widget mw') = Some (QRect_xywh x1 y1 (x2 - x1) (y2 - y1))
       /\ main_crop_rect mw' = Some (QRect_xywh x1 y1 (x2 - x1) (y2 - y1)).
Proof.
  unfold adjust_crop_rect.
  destruct (original_crop_rect_widget (preview_widget mw)) as [orig|];
    [|intros H; injection H as <-; now left].
  destruct (current_frame (preview_widget mw)) as [frame|] eqn:Hf;
    [|intros H; injection H as <-; now left].
  destruct (negb (Rect.isValid orig)); [intros H; injection H as <-; now left|].
  destruct (start_point_widget (preview_widget mw)) as [spw|]; [|discriminate].
  destruct (adjust_mode (preview_widget mw)) as [mode|] eqn:Hm.
  2:{ destruct (lock_aspect_ratio (preview_widget mw));
      [destruct (aspect_ratio (preview_widget mw)) as [[? [|?|?]]|]|];
      try discriminate; intros H; injection H as <-; now left. }
  match goal with |- bind ?c _ = _ -> _ => destruct c as [[dx dy]|]; [|discriminate] end.
  cbn [bind].
  match goal with |- context [with_crop_rect_widget (Some ?e) _] => set (r := e) end.
  destruct (widget_to_frame_coords _ (Rect.topLeft r)) as [tlo|]; [|discriminate].
  cbn [bind].
  destruct (widget_to_frame_coords _ (Rect.bottomRight r)) as [bro|]; [|discriminate].
  cbn [bind].
  destruct tlo as [tl|]; [|intros H; injection H as <-; destruct mw; now left].
  destruct bro as [br|]; [|intros H; injection H as <-; destruct mw; now left].
  destruct (point_truthy (Some tl) && point_truthy (Some br));
    [|intros H; injection H as <-; destruct mw; now left].
  rewrite adjusted_frame_rect_inputs.
  destruct (adjusted_frame_rect (preview_widget mw) mode tl br _ _)
    as [[[[x1 y1] x2] y2]|] eqn:Ha; [|discriminate].
  cbn [bind]. unfold on_crop_changed. fields.
  match goal with |- bind (update_shadow_crops ?n ?v) _ = _ -> _ =>
    destruct (update_shadow_crops n v) as [v'|] eqn:Hv; [|discriminate] end.
  cbn [bind]. intros H; injection H as <-.
  right. exists mode, frame, tl, br, x1, y1, x2, y2.
  split; [reflexivity|]. split; [reflexivity|]. split; [exact Ha|].
  fields. split; [|destruct mw; reflexivity].
  rewrite (update_shadow_crops_shape _ _ _ Hv). fields.
  match goal with |- context [if ?c then _ else _] => destruct c end; reflexivity.
Qed.

Lemma clamped_frame_rect_resize w mode tl br fw fh x1 y1 x2 y2 :
  mode <> move -> 0 < fw -> 0 < fh ->
  clamped_frame_rect w mode tl br fw fh = (x1, y1, x2, y2) ->
  0 <= x1 < x2 /\ x2 <= fw /\ 0 <= y1 < y2 /\ y2 <= fh.
Proof.
  intros Hm Hfw Hfh. unfold clamped_frame_rect.
  destruct (Handle_eqb mode move) eqn:E; [apply Handle_eqb_eq in E; contradiction|].
  unfold clamp.
  repeat match goal with
         | |- context [if ?c then _ else _] => destruct c eqn:?
         end;
  intros H; injection H as <- <- <- <-;
  repeat match goal with
         | H : (_ <=? _) = true |- _ => apply Z.leb_le in H
         | H : (_ <=? _) = false |- _ => apply Z.leb_gt in H
         | H : (_ <? _) = true |- _ => apply Z.ltb_lt in H
         | H : (_ <? _) = false |- _ => apply Z.ltb_ge in H
         | H : (_ || _) = false |- _ => apply orb_false_iff in H; destruct H
         end; lia.
Qed.

Lemma locked_deltas_ok mode orig rw rh dx dy :
  0 < rw -> 0 < rh -> exists d, locked_deltas mode orig rw rh dx dy = Ok d.
Proof.
  intros Hrw Hrh. unfold locked_deltas.
  destruct (rh =? 0) eqn:E; [apply Z.eqb_eq in E; lia|].
  rewrite Qeq_bool_true_div_pos by lia.
  repeat match goal with |- context [if ?c then _ else _] => destruct c end;
    eexists; reflexivity.
Qed.

Lemma widget_to_frame_coords_ok w p frame :
  current_frame w = Some frame -> scale_nonzero w ->
  exists q, widget_to_frame_coords w p = Ok (Some q).
Proof.
  intros Hf [Hx Hy]. unfold widget_to_frame_coords. rewrite Hf, Hx, Hy.
  eexists; reflexivity.
Qed.

Lemma adjusted_frame_rect_ok w mode tl br fw fh :
  ratio_well_formed w -> exists r, adjusted_frame_rect w mode tl br fw fh = Ok r.
Proof.
  intros Hr. rewrite adjusted_frame_rect_split.
  destruct (clamped_frame_rect w mode tl br fw fh) as [[[x1 y1] x2] y2].
  destruct (apply_constraints_ok w x1 y1 x2 y2 Hr) as ([[[a b] c] d] & E).
  rewrite E. cbn [bind]. eexists; reflexivity.
Qed.

(** [adjust_crop_rect] returns normally in the states a press leaves. *)
Lemma adjust_crop_rect_ok pos mw :
  start_point_widget (preview_widget mw) <> None ->
  adjust_mode (preview_widget mw) <> None ->
  scale_nonzero (preview_widget mw) ->
  ratio_well_formed (preview_widget mw) ->
  exists mw', adjust_crop_rect pos mw = Ok mw'.
Proof.
  intros Hs Hm Hsc Hr. unfold adjust_crop_rect.
  destruct (original_crop_rect_widget (preview_widget mw)) as [orig|]; [|eauto].
  destruct (current_frame (preview_widget mw)) as [frame|] eqn:Hf; [|eauto].
  destruct (negb (Rect.isValid orig)); [eauto|].
  destruct (start_point_widget (preview_widget mw)) as [spw|]; [|congruence].
  destruct (adjust_mode (preview_widget mw)) as [mode|]; [|congruence].
  match goal with |- context [bind ?c _] =>
    assert (Hd : exists d, c = Ok d) end.
  { destruct (lock_aspect_ratio (preview_widget mw)); [|eauto].
    unfold ratio_well_formed in Hr.
    destruct (aspect_ratio (preview_widget mw)) as [[rw rh]|]; [|eauto].
    destruct (Handle_eqb mode move); [eauto|].
    now apply locked_deltas_ok. }
  destruct Hd as ([dx dy] & ->). cbn [bind].
  match goal with |- context [with_crop_rect_widget (Some ?e) _] => set (r := e) end.
  set (w1 := with_crop_rect_widget (Some r) (preview_widget mw)).
  assert (Hf1 : current_frame w1 = Some frame) by exact Hf.
  assert (Hsc1 : scale_nonzero w1) by exact Hsc.
  destruct (widget_to_frame_coords_ok w1 (Rect.topLeft r) frame Hf1 Hsc1) as (tl & ->).
  destruct (widget_to_frame_coords_ok w1 (Rect.bottomRight r) frame Hf1 Hsc1) as (br & ->).
  cbn [bind].
  destruct (point_truthy (Some tl) && point_truthy (Some br)); [|eauto].
  assert (Hr1 : ratio_well_formed w1) by exact Hr.
  destruct (adjusted_frame_rect_ok w1 mode tl br (shape_width frame) (shape_height frame) Hr1)
    as ([[[x1 y1] x2] y2] & ->).
  cbn [bind]. unfold on_crop_changed. fields.
  match goal with |- context [update_shadow_crops ?n ?v] =>
    destruct (update_shadow_crops_ok n v frame) as (v' & ->) end.
  - match goal with |- context [if ?c then _ else _] => destruct c end; exact Hf.
  - cbn [bind]. eauto.
Qed.

Lemma apply_constraints_fixed_size w tw th x1 y1 x2 y2 :
  lock_size w = true -> locked_size w = Some (tw, th) ->
  apply_constraints w x1 y1 x2 y2 = Ok (x1, y1, x1 + tw, y1 + th).
Proof.
  intros H1 H2. unfold apply_constraints. now rewrite H1, H2.
Qed.

Lemma adjusted_frame_rect_fixed_size w mode tl br fw fh tw th x1 y1 x2 y2 :
  lock_size w = true -> locked_size w = Some (tw, th) ->
  0 < fw -> 0 < fh -> 0 < tw -> 0 < th ->
  adjusted_frame_rect w mode tl br fw fh = Ok (x1, y1, x2, y2) ->
  (mode = move -> x2 - x1 = tw /\ y2 - y1 = th)
  /\ (mode <> move ->
      0 <= x1 < fw /\ 0 <= y1 < fh
      /\ x2 - x1 = Z.min tw (fw - x1) /\ y2 - y1 = Z.min th (fh - y1)).
Proof.
  intros Hl Hs Hfw Hfh Htw Hth. rewrite adjusted_frame_rect_split.
  destruct (clamped_frame_rect w mode tl br fw fh) as [[[a1 b1] a2] b2] eqn:Ec.
  rewrite (apply_constraints_fixed_size w tw th) by assumption.
  cbn [bind]. unfold reclamp. rewrite Hl. cbn [orb]. intros H.
  split.
  - intros ->. cbn in H. injection H as <- <- <- <-. lia.
  - intros Hm.
    destruct (Handle_eqb mode move) eqn:E; [apply Handle_eqb_eq in E; contradiction|].
    cbn [andb] in H. injection H as <- <- <- <-.
    pose proof (clamped_frame_rect_resize _ _ _ _ _ _ _ _ _ _ Hm Hfw Hfh Ec) as Hb.
    unfold clamp. lia.
Qed.

(** The fixed-size lock as the code has it (compare C2).  With the size
    locked to 320 x 240 and a frame loaded, every
    update of [adjust_crop_rect] that commits a rectangle commits, in move
    mode, one of exactly 320 x 240, and in a resize mode one whose origin is
    inside the frame and whose width is [min 320 (frame width - x)] and height
    [min 240 (frame height - y)], so 320 x 240 only where that size fits
    between the origin and the right and bottom edges of the frame.  The
    update returns normally in the states a press leaves. *)
Theorem fixed_size_after_adjust (pos : QPoint) (mw : MainWindow) (frame : Frame) :
  lock_size (preview_widget mw) = true ->
  locked_size (preview_widget mw) = Some (320, 240) ->
  current_frame (preview_widget mw) = Some frame ->
  0 < shape_width frame -> 0 < shape_height frame ->
  (forall mw', adjust_crop_rect pos mw = Ok mw' ->
     (crop_rect (preview_widget mw') = crop_rect (preview_widget mw)
      /\ main_crop_rect mw' = main_crop_rect mw)
     \/ exists r,
          crop_rect (preview_widget mw') = Some r /\ main_crop_rect mw' = Some r
          /\ (adjust_mode (preview_widget mw) = Some move ->
              Rect.width r = 320 /\ Rect.height r = 240)
          /\ (adjust_mode (preview_widget mw) <> Some move ->
              0 <= Rect.x r < shape_width frame /\ 0 <= Rect.y r < shape_height frame
              /\ Rect.width r = Z.min 320 (shape_width frame - Rect.x r)
              /\ Rect.height r = Z.min 240 (shape_height frame - Rect.y r)))
  /\ (start_point_widget (preview_widget mw) <> None ->
      adjust_mode (preview_widget mw) <> None ->
      scale_nonzero (preview_widget mw) ->
      ratio_well_formed (preview_widget mw) ->
      exists mw', adjust_crop_rect pos mw = Ok mw').
Proof.
  intros Hl Hs Hf Hfw Hfh. split; [|apply adjust_crop_rect_ok].
  intros mw' H.
  destruct (adjust_crop_rect_commits _ _ _ H)
    as [E|(mode & frame' & tl & br & x1 & y1 & x2 & y2 & Hm & Hf' & Ha & Hc & Hmc)];
    [now left|right].
  rewrite Hf in Hf'. injection Hf' as <-.
  destruct (adjusted_frame_rect_fixed_size _ _ _ _ _ _ 320 240 _ _ _ _
              Hl Hs Hfw Hfh ltac:(lia) ltac:(lia) Ha) as [Hmove Hres].
  exists (QRect_xywh x1 y1 (x2 - x1) (y2 - y1)).
  split; [exact Hc|]. split; [exact Hmc|].
  unfold Rect.width, Rect.height, Rect.x, Rect.y, QRect_xywh. cbn [rx1 rx2 ry1 ry2].
  split.
  - intros Hmv. rewrite Hm in Hmv. injection Hmv as ->.
    specialize (Hmove eq_refl). lia.
  - intros Hmv. assert (Hne : mode <> move) by congruence.
    specialize (Hres Hne). lia.
Qed.

Lemma fixed_size_after_adjust_witness :
  let mw := fixed_size_resizing in
  let frame := mkFrame 360 640 in
  lock_size (preview_widget mw) = true
  /\ locked_size (preview_widget mw) = Some (320, 240)
  /\ current_frame (preview_widget mw) = Some frame
  /\ 0 < shape_width frame /\ 0 < shape_height frame
  /\ (forall mw', adjust_crop_rect (mkQPoint 520 220) mw = Ok mw' ->
       (crop_rect (preview_widget mw') = crop_rect (preview_widget mw)
        /\ main_crop_rect mw' = main_crop_rect mw)
       \/ exists r,
            crop_rect (preview_widget mw') = Some r /\ main_crop_rect mw' = Some r
            /\ (adjust_mode (preview_widget mw) = Some move ->
                Rect.width r = 320 /\ Rect.height r = 240)
            /\ (adjust_mode (preview_widget mw) <> Some move ->
                0 <= Rect.x r < shape_width frame /\ 0 <= Rect.y r < shape_height frame
                /\ Rect.width r = Z.min 320 (shape_width frame - Rect.x r)
                /\ Rect.height r = Z.min 240 (shape_height frame - Rect.y r)))
  /\ (start_point_widget (preview_widget mw) <> None ->
      adjust_mode (preview_widget mw) <> None ->
      scale_nonzero (preview_widget mw) ->
      ratio_well_formed (preview_widget mw) ->
      exists mw', adjust_crop_rect (mkQPoint 520 220) mw = Ok mw').
Proof.
  intros mw frame.
  do 3 (split; [vm_compute; reflexivity|]).
  split; [reflexivity|]. split; [reflexivity|].
  apply (fixed_size_after_adjust (mkQPoint 520 220) mw frame);
    first [vm_compute; reflexivity | reflexivity].
Defined.

(** Side conditions of [field]: an injected positive integer is not zero. *)
Ltac nonzero :=
  repeat split;
  match goal with
  | |- ~ (inject_Z ?z == 0)%Q =>
      let H := fresh in intros H; apply (inject_Z_injective z 0) in H; lia
  end.

Lemma Qle_bool_true_div (a b c d : Z) :
  0 < b -> 0 < d -> Qle_bool (true_div a b) (true_div c d) = (a * d <=? c * b).
Proof.
  intros Hb Hd. destruct b as [|b|b], d as [|d|d]; try lia.
  apply eq_true_iff_eq. rewrite Qle_bool_iff, Z.leb_le. unfold true_div.
  rewrite <- !Qmake_Qdiv. unfold Qle. simpl. reflexivity.
Qed.

(** With positive ratio terms and a non-empty rectangle, the constraint keeps
    the origin and recomputes one side as the floor of the other times the
    ratio, never making the rectangle smaller. *)
Lemma apply_aspect_ratio_constraint_spec rw rh x1 y1 x2 y2 :
  0 < rw -> 0 < rh -> x1 < x2 -> y1 < y2 ->
  (rw * (y2 - y1) < rh * (x2 - x1)
   /\ apply_aspect_ratio_constraint x1 y1 x2 y2 (Some (rw, rh))
      = Ok (x1, y1, x2, y1 + rh * (x2 - x1) / rw)
   /\ y2 - y1 <= rh * (x2 - x1) / rw)
  \/ (rh * (x2 - x1) <= rw * (y2 - y1)
      /\ apply_aspect_ratio_constraint x1 y1 x2 y2 (Some (rw, rh))
         = Ok (x1, y1, x1 + rw * (y2 - y1) / rh, y2)
      /\ x2 - x1 <= rw * (y2 - y1) / rh).
Proof.
  intros Hrw Hrh Hx Hy. unfold apply_aspect_ratio_constraint.
  destruct (rh =? 0) eqn:E; [apply Z.eqb_eq in E; lia|].
  destruct (0 <? y2 - y1) eqn:E2; [|apply Z.ltb_ge in E2; lia].
  unfold Qgtb. rewrite Qle_bool_true_div by lia.
  rewrite Qeq_bool_true_div_pos by lia.
  destruct ((x2 - x1) * rh <=? rw * (y2 - y1)) eqn:El; cbn [negb].
  - apply Z.leb_le in El. right. split; [lia|]. split.
    + do 3 f_equal. rewrite (int_of_float_quot (rw * (y2 - y1)) rh) by
        (try lia; unfold true_div; push_inject; field; nonzero).
      f_equal. apply Z.quot_div_nonneg; nia.
    + apply Z.div_le_lower_bound; lia.
  - apply Z.leb_gt in El. left. split; [lia|]. split.
    + do 2 f_equal. rewrite (int_of_float_quot (rh * (x2 - x1)) rw) by
        (try lia; unfold true_div; push_inject; field; nonzero).
      f_equal. apply Z.quot_div_nonneg; nia.
    + apply Z.div_le_lower_bound; lia.
Qed.

Lemma adjusted_frame_rect_aspect w mode tl br fw fh rw rh x1 y1 x2 y2 :
  lock_size w = false -> lock_aspect_ratio w = true -> aspect_ratio w = Some (rw, rh) ->
  0 < rw -> 0 < rh -> 0 < fw -> 0 < fh -> mode <> move ->
  adjusted_frame_rect w mode tl br fw fh = Ok (x1, y1, x2, y2) ->
  0 <= x1 < x2 /\ x2 <= fw /\ 0 <= y1 < y2 /\ y2 <= fh
  /\ (x2 < fw -> y2 < fh ->
      y2 - y1 = rh * (x2 - x1) / rw \/ x2 - x1 = rw * (y2 - y1) / rh).
Proof.
  intros Hl Ha Hr Hrw Hrh Hfw Hfh Hm. rewrite adjusted_frame_rect_split.
  destruct (clamped_frame_rect w mode tl br fw fh) as [[[a1 b1] a2] b2] eqn:Ec.
  pose proof (clamped_frame_rect_resize _ _ _ _ _ _ _ _ _ _ Hm Hfw Hfh Ec) as Hb.
  unfold apply_constraints. rewrite Hl, Ha, Hr.
  unfold reclamp.
  destruct (Handle_eqb mode move) eqn:E; [apply Handle_eqb_eq in E; contradiction|].
  cbn [andb].
  destruct (apply_aspect_ratio_constraint_spec rw rh a1 b1 a2 b2 Hrw Hrh
              ltac:(lia) ltac:(lia)) as [(Hc & -> & Hg)|(Hc & -> & Hg)];
    cbn [bind]; intros H; injection H as <- <- <- <-; unfold clamp.
  - repeat split; try lia. intros _ Hy. left.
    replace (Z.max 0 (Z.min a2 fw)) with a2 by lia.
    replace (Z.max 0 (Z.min a1 (fw - 1))) with a1 by lia.
    replace (Z.max 0 (Z.min b1 (fh - 1))) with b1 by lia.
    replace (Z.max 0 (Z.min (b1 + rh * (a2 - a1) / rw) fh))
      with (b1 + rh * (a2 - a1) / rw) by lia.
    lia.
  - repeat split; try lia. intros Hx _. right.
    replace (Z.max 0 (Z.min b2 fh)) with b2 by lia.
    replace (Z.max 0 (Z.min a1 (fw - 1))) with a1 by lia.
    replace (Z.max 0 (Z.min b1 (fh - 1))) with b1 by lia.
    replace (Z.max 0 (Z.min (a1 + rw * (b2 - b1) / rh) fw))
      with (a1 + rw * (b2 - b1) / rh) by lia.
    lia.
Qed.

(** The aspect lock as the code has it (compare C7).  With the ratio 16:9
    locked (and no size lock) and a frame
    loaded, every drag-resize update of [adjust_crop_rect] that commits a
    rectangle commits one inside the frame, at least 1 x 1, and, when it stays
    clear of the right and bottom edges of the frame, with
    [height = floor(9 * width / 16)] or [width = floor(16 * height / 9)], hence
    [-8 <= 9 * width - 16 * height <= 15], that is
    [|width/height - 16/9| <= 15 / (9 * height)].  The update returns normally
    in the states a press leaves. *)
Theorem aspect_after_resize (pos : QPoint) (mw : MainWindow) (frame : Frame) :
  lock_size (preview_widget mw) = false ->
  lock_aspect_ratio (preview_widget mw) = true ->
  aspect_ratio (preview_widget mw) = Some (16, 9) ->
  current_frame (preview_widget mw) = Some frame ->
  0 < shape_width frame -> 0 < shape_height frame ->
  adjust_mode (preview_widget mw) <> Some move ->
  (forall mw', adjust_crop_rect pos mw = Ok mw' ->
     (crop_rect (preview_widget mw') = crop_rect (preview_widget mw)
      /\ main_crop_rect mw' = main_crop_rect mw)
     \/ exists r,
          crop_rect (preview_widget mw') = Some r /\ main_crop_rect mw' = Some r
          /\ within_frame frame r
          /\ (Rect.x r + Rect.width r < shape_width frame ->
              Rect.y r + Rect.height r < shape_height frame ->
              (Rect.height r = 9 * Rect.width r / 16
               \/ Rect.width r = 16 * Rect.height r / 9)
              /\ -8 <= 9 * Rect.width r - 16 * Rect.height r <= 15))
  /\ (start_point_widget (preview_widget mw) <> None ->
      adjust_mode (preview_widget mw) <> None ->
      scale_nonzero (preview_widget mw) ->
      exists mw', adjust_crop_rect pos mw = Ok mw').
Proof.
  intros Hl Ha Hr Hf Hfw Hfh Hmv. split.
  - intros mw' H.
    destruct (adjust_crop_rect_commits _ _ _ H)
      as [E|(mode & frame' & tl & br & x1 & y1 & x2 & y2 & Hm & Hf' & Hadj & Hc & Hmc)];
      [now left|right].
    rewrite Hf in Hf'. injection Hf' as <-.
    assert (Hne : mode <> move) by congruence.
    destruct (adjusted_frame_rect_aspect _ _ _ _ _ _ 16 9 _ _ _ _
                Hl Ha Hr ltac:(lia) ltac:(lia) Hfw Hfh Hne Hadj)
      as (Hx & Hx2 & Hy & Hy2 & Hratio).
    exists (QRect_xywh x1 y1 (x2 - x1) (y2 - y1)).
    split; [exact Hc|]. split; [exact Hmc|].
    unfold within_frame, Rect.width, Rect.height, Rect.x, Rect.y, QRect_xywh.
    cbn [rx1 rx2 ry1 ry2].
    split; [lia|]. intros H1 H2.
    assert (Hd : y2 - y1 = 9 * (x2 - x1) / 16 \/ x2 - x1 = 16 * (y2 - y1) / 9)
      by (apply Hratio; lia).
    replace (x1 + (x2 - x1) - 1 - x1 + 1) with (x2 - x1) by lia.
    replace (y1 + (y2 - y1) - 1 - y1 + 1) with (y2 - y1) by lia.
    split; [exact Hd|].
    destruct Hd as [Hd|Hd]; rewrite Hd at 2.
    + pose proof (Z.mul_div_le (9 * (x2 - x1)) 16 ltac:(lia)).
      pose proof (Z.mul_succ_div_gt (9 * (x2 - x1)) 16 ltac:(lia)). lia.
    + pose proof (Z.mul_div_le (16 * (y2 - y1)) 9 ltac:(lia)).
      pose proof (Z.mul_succ_div_gt (16 * (y2 - y1)) 9 ltac:(lia)).
      rewrite Hd at 1. lia.
  - intros Hs Hm Hsc. apply adjust_crop_rect_ok; try assumption.
    unfold ratio_well_formed. rewrite Hr. lia.
Qed.

Lemma aspect_after_resize_witness :
  let mw := corner_resizing in
  let frame := mkFrame 360 640 in
  lock_size (preview_widget mw) = false
  /\ lock_aspect_ratio (preview_widget mw) = true
  /\ aspect_ratio (preview_widget mw) = Some (16, 9)
  /\ current_frame (preview_widget mw) = Some frame
  /\ 0 < shape_width frame /\ 0 < shape_height frame
  /\ adjust_mode (preview_widget mw) <> Some move
  /\ (forall mw', adjust_crop_rect (mkQPoint 132 120) mw = Ok mw' ->
       (crop_rect (preview_widget mw') = crop_rect (preview_widget mw)
        /\ main_crop_rect mw' = main_crop_rect mw)
       \/ exists r,
            crop_rect (preview_widget mw') = Some r /\ main_crop_rect mw' = Some r
            /\ within_frame frame r
            /\ (Rect.x r + Rect.width r < shape_width frame ->
                Rect.y r + Rect.height r < shape_height frame ->
                (Rect.height r = 9 * Rect.width r / 16
                 \/ Rect.width r = 16 * Rect.height r / 9)
                /\ -8 <= 9 * Rect.width r - 16 * Rect.height r <= 15))
  /\ (start_point_widget (preview_widget mw) <> None ->
      adjust_mode (preview_widget mw) <> None ->
      scale_nonzero (preview_widget mw) ->
      exists mw', adjust_crop_rect (mkQPoint 132 120) mw = Ok mw').
Proof.
  intros mw frame.
  do 4 (split; [vm_compute; reflexivity|]).
  split; [reflexivity|]. split; [reflexivity|].
  split; [vm_compute; discriminate|].
  apply (aspect_after_resize (mkQPoint 132 120) mw frame);
    first [vm_compute; reflexivity | reflexivity | vm_compute; discriminate].
Defined.

(* ================================================================== *)
(** * Further properties of the code *)

(** ** Coordinates *)

Lemma int_of_float_monotone (x y : Q) : (x <= y)%Q -> int_of_float x <= int_of_float y.
Proof.
  intros H. unfold int_of_float.
  destruct (Qle_bool 0 x) eqn:Ex, (Qle_bool 0 y) eqn:Ey.
  - now apply Qfloor_resp_le.
  - apply Qle_bool_iff in Ex.
    assert (Hy : ~ (0 <= y)%Q) by (rewrite <- Qle_bool_iff; congruence).
    exfalso. apply Hy. now apply Qle_trans with x.
  - assert (Hx : (x < 0)%Q).
    { apply Qnot_le_lt. rewrite <- Qle_bool_iff. congruence. }
    apply Qle_bool_iff in Ey.
    assert (Qceiling x <= 0).
    { change 0 with (Qceiling 0). apply Qceiling_resp_le. now apply Qlt_le_weak. }
    assert (0 <= Qfloor y).
    { change 0 with (Qfloor 0). now apply Qfloor_resp_le. }
    lia.
  - now apply Qceiling_resp_le.
Qed.

(** [widget_to_frame_coords] never leaves the frame: with a frame loaded, both
    coordinates of its answer lie between 0 and the frame extent, bounds
    included, whatever the widget point and the transform; and it answers
    whenever the transform has a non-zero scale. *)
Theorem widget_to_frame_coords_in_frame (w : VideoPreviewWidget) (p : QPoint)
  (frame : Frame) :
  current_frame w = Some frame ->
  0 <= shape_width frame -> 0 <= shape_height frame ->
  (forall q, widget_to_frame_coords w p = Ok (Some q) ->
             0 <= px q <= shape_width frame /\ 0 <= py q <= shape_height frame)
  /\ (scale_nonzero w -> exists q, widget_to_frame_coords w p = Ok (Some q)).
Proof.
  intros Hf Hw Hh. split.
  - intros q. unfold widget_to_frame_coords. rewrite Hf.
    destruct (_ || _); [discriminate|].
    intros H; injection H as <-. unfold clamp. simpl. lia.
  - intros Hs. now apply widget_to_frame_coords_ok with frame.
Qed.

Lemma widget_to_frame_coords_in_frame_witness :
  current_frame qhd_widget = Some (mkFrame 1440 2560)
  /\ (forall q, widget_to_frame_coords qhd_widget (mkQPoint 700 (-5)) = Ok (Some q) ->
                0 <= px q <= 2560 /\ 0 <= py q <= 1440)
  /\ (scale_nonzero qhd_widget ->
      exists q, widget_to_frame_coords qhd_widget (mkQPoint 700 (-5)) = Ok (Some q)).
Proof.
  split; [vm_compute; reflexivity|].
  apply (widget_to_frame_coords_in_frame qhd_widget (mkQPoint 700 (-5)) (mkFrame 1440 2560));
    [vm_compute; reflexivity | simpl; lia | simpl; lia].
Defined.

(** [widget_to_frame_coords] preserves order on each axis when the scales are
    positive: a widget point to the right of (below) another maps to a frame
    point that is not to the left of (above) it. *)
Theorem widget_to_frame_coords_monotone (w : VideoPreviewWidget) (p p' q q' : QPoint) :
  (0 < frame_to_widget_scale_x w)%Q -> (0 < frame_to_widget_scale_y w)%Q ->
  widget_to_frame_coords w p = Ok (Some q) ->
  widget_to_frame_coords w p' = Ok (Some q') ->
  (px p <= px p' -> px q <= px q') /\ (py p <= py p' -> py q <= py q').
Proof.
  intros Hsx Hsy. unfold widget_to_frame_coords.
  destruct (current_frame w) as [frame|]; [|discriminate].
  destruct (_ || _); [discriminate|].
  intros H H'. injection H as <-. injection H' as <-. simpl.
  assert (Hdiv : forall a b off s, (0 < s)%Q -> a <= b ->
            int_of_float ((inject_Z a - off) / s) <= int_of_float ((inject_Z b - off) / s)).
  { intros a b off s Hs Hab. apply int_of_float_monotone.
    apply Qmult_le_compat_r.
    - apply Qplus_le_compat; [|apply Qle_refl]. now rewrite <- Zle_Qle.
    - apply Qlt_le_weak. now apply Qinv_lt_0_compat. }
  split; intros Hle; unfold clamp.
  - specialize (Hdiv (px p) (px p') (widget_offset_x w) _ Hsx Hle). lia.
  - specialize (Hdiv (py p) (py p') (widget_offset_y w) _ Hsy Hle). lia.
Qed.

Lemma widget_to_frame_coords_monotone_witness :
  (0 < frame_to_widget_scale_x qhd_widget)%Q
  /\ (0 < frame_to_widget_scale_y qhd_widget)%Q
  /\ widget_to_frame_coords qhd_widget (mkQPoint 10 10) = Ok (Some (mkQPoint 40 40))
  /\ widget_to_frame_coords qhd_widget (mkQPoint 20 30) = Ok (Some (mkQPoint 80 120))
  /\ (10 <= 20 -> 40 <= 80) /\ (10 <= 30 -> 40 <= 120).
Proof.
  split; [vm_compute; reflexivity|]. split; [vm_compute; reflexivity|].
  split; [vm_compute; reflexivity|]. split; [vm_compute; reflexivity|].
  apply (widget_to_frame_coords_monotone qhd_widget (mkQPoint 10 10) (mkQPoint 20 30)
           (mkQPoint 40 40) (mkQPoint 80 120)); vm_compute; reflexivity.
Defined.

(** ** Handles *)

(** Booleans of comparisons into propositions, for [lia]. *)
Ltac reflect_bools :=
  repeat match goal with
         | H : (_ && _) = true |- _ => apply andb_true_iff in H; destruct H
         | H : (_ || _) = false |- _ => apply orb_false_iff in H; destruct H
         | H : negb _ = true |- _ => apply negb_true_iff in H
         | H : negb _ = false |- _ => apply negb_false_iff in H
         | H : (_ <=? _) = true |- _ => apply Z.leb_le in H
         | H : (_ <=? _) = false |- _ => apply Z.leb_gt in H
         | H : (_ <? _) = true |- _ => apply Z.ltb_lt in H
         | H : (_ <? _) = false |- _ => apply Z.ltb_ge in H
         | H : (_ =? _) = true |- _ => apply Z.eqb_eq in H
         | H : (_ =? _) = false |- _ => apply Z.eqb_neq in H
         end.

Lemma contains_valid rect point :
  Rect.isValid rect = true ->
  Rect.contains rect point
  = ((Rect.left rect <=? px point) && (px point <=? Rect.right rect))
    && ((Rect.top rect <=? py point) && (py point <=? Rect.bottom rect)).
Proof.
  unfold Rect.isValid, Rect.contains, Rect.isNull, Rect.left, Rect.right, Rect.top,
    Rect.bottom.
  intros H. reflect_bools.
  destruct (rx2 rect =? rx1 rect - 1) eqn:E1; reflect_bools; [lia|]. cbn [andb].
  destruct (rx2 rect <? rx1 rect - 1) eqn:E2; reflect_bools; [lia|].
  destruct (ry2 rect <? ry1 rect - 1) eqn:E3; reflect_bools; [lia|].
  destruct (px point <? rx1 rect) eqn:A1, (rx2 rect <? px point) eqn:A2,
    (py point <? ry1 rect) eqn:A3, (ry2 rect <? py point) eqn:A4;
    destruct (rx1 rect <=? px point) eqn:B1, (px point <=? rx2 rect) eqn:B2,
      (ry1 rect <=? py point) eqn:B3, (py point <=? ry2 rect) eqn:B4;
    reflect_bools; try reflexivity; lia.
Qed.

(** A handle is only ever reported for a point on the rectangle or within the
    tolerance around it: whenever [get_crop_handle_at] answers a handle, the
    rectangle is a valid one and the point lies in it grown by [handle_size]
    on every side. *)
Theorem handle_hit_is_near (w : VideoPreviewWidget) (rect : QRect) (point : QPoint)
  (h : Handle) :
  crop_rect_widget w = Some rect -> 0 <= handle_size w ->
  get_crop_handle_at w point = Some h ->
  Rect.isValid rect = true
  /\ Rect.left rect - handle_size w <= px point <= Rect.right rect + handle_size w
  /\ Rect.top rect - handle_size w <= py point <= Rect.bottom rect + handle_size w.
Proof.
  intros Hr Hs. unfold get_crop_handle_at. rewrite Hr. cbn [rect_truthy].
  destruct (Rect.isValid rect) eqn:Hv; cbn [negb]; [|discriminate].
  rewrite contains_valid by exact Hv.
  assert (Hlr : Rect.left rect <= Rect.right rect /\ Rect.top rect <= Rect.bottom rect).
  { unfold Rect.isValid, Rect.left, Rect.right, Rect.top, Rect.bottom in *.
    reflect_bools. lia. }
  repeat match goal with
         | |- context [if ?c then _ else _] => destruct c eqn:?
         end; intros H; try discriminate; reflect_bools; (split; [reflexivity|lia]).
Qed.

Lemma handle_hit_is_near_witness :
  let w := with_crop_rect_widget (Some (QRect_xywh 100 100 200 100)) VideoPreviewWidget_init in
  crop_rect_widget w = Some (QRect_xywh 100 100 200 100)
  /\ 0 <= handle_size w
  /\ get_crop_handle_at w (mkQPoint 305 150) = Some resize_r
  /\ Rect.isValid (QRect_xywh 100 100 200 100) = true
  /\ Rect.left (QRect_xywh 100 100 200 100) - handle_size w <= 305
     <= Rect.right (QRect_xywh 100 100 200 100) + handle_size w
  /\ Rect.top (QRect_xywh 100 100 200 100) - handle_size w <= 150
     <= Rect.bottom (QRect_xywh 100 100 200 100) + handle_size w.
Proof.
  intros w. split; [reflexivity|]. split; [simpl; lia|]. split; [reflexivity|].
  apply (handle_hit_is_near w (QRect_xywh 100 100 200 100) (mkQPoint 305 150) resize_r);
    [reflexivity | simpl; lia | reflexivity].
Defined.

(** The interior is the move handle exactly away from the edges: the answer is
    [move] if and only if the rectangle is valid, the point is in it, and the
    point is farther than [handle_size] from each of its four edges. *)
Theorem move_handle_iff (w : VideoPreviewWidget) (rect : QRect) (point : QPoint) :
  crop_rect_widget w = Some rect ->
  (get_crop_handle_at w point = Some move
   <-> Rect.isValid rect = true
       /\ Rect.left rect <= px point <= Rect.right rect
       /\ Rect.top rect <= py point <= Rect.bottom rect
       /\ handle_size w < Z.abs (px point - Rect.left rect)
       /\ handle_size w < Z.abs (px point - Rect.right rect)
       /\ handle_size w < Z.abs (py point - Rect.top rect)
       /\ handle_size w < Z.abs (py point - Rect.bottom rect)).
Proof.
  intros Hr. unfold get_crop_handle_at. rewrite Hr. cbn [rect_truthy].
  destruct (Rect.isValid rect) eqn:Hv; cbn [negb];
    [|split; [discriminate|intros [H _]; discriminate]].
  rewrite contains_valid by exact Hv.
  repeat match goal with
         | |- context [if ?c then _ else _] => destruct c eqn:?
         end;
    (split; [intros H; try discriminate; reflect_bools; (split; [reflexivity|lia])
            |intros (_ & H1 & H2 & H3 & H4 & H5 & H6); reflect_bools;
             try reflexivity; try lia]).
Qed.

Lemma move_handle_iff_witness :
  let w := with_crop_rect_widget (Some (QRect_xywh 100 100 200 100)) VideoPreviewWidget_init in
  crop_rect_widget w = Some (QRect_xywh 100 100 200 100)
  /\ get_crop_handle_at w (mkQPoint 200 150) = Some move.
Proof.
  intros w. split; [reflexivity|].
  apply (move_handle_iff w (QRect_xywh 100 100 200 100) (mkQPoint 200 150));
    [reflexivity|].
  vm_compute. repeat split; congruence.
Defined.

(** ** Bounds of the committed rectangle *)





Lemma drawn_frame_rect_in_frame w sp ep frame crop :
  0 < shape_width frame -> 0 < shape_height frame ->
  drawn_frame_rect w sp ep frame = Ok crop -> within_frame frame crop.
Proof.
  intros Hfw Hfh. unfold drawn_frame_rect.
  destruct (apply_constraints _ _ _ _ _) as [[[[x1 y1] x2] y2]|]; [|discriminate].
  cbn [bind]. unfold clamp.
  repeat match goal with
         | |- context [if ?c then _ else _] => destruct c eqn:?
         end;
    intros H; injection H as <-; reflect_bools;
    unfold within_frame, Rect.width, Rect.height, Rect.x, Rect.y, QRect_xywh;
    cbn [rx1 rx2 ry1 ry2]; lia.
Qed.



(** Moving a free rectangle keeps its size: in move mode with no constraint
    active and an original rectangle that lies in the frame, every committed
    rectangle has the width and height of the original and lies in the frame;
    at the edges it is shifted, not shrunk. *)
Theorem free_move_keeps_size (pos : QPoint) (mw : MainWindow) (frame : Frame)
  (orig : QRect) :
  current_frame (preview_widget mw) = Some frame ->
  adjust_mode (preview_widget mw) = Some move ->
  original_crop_rect (preview_widget mw) = Some orig ->
  within_frame frame orig ->
  lock_size (preview_widget mw) = false ->
  lock_aspect_ratio (preview_widget mw) = false ->
  forall mw', adjust_crop_rect pos mw = Ok mw' ->
    (crop_rect (preview_widget mw') = crop_rect (preview_widget mw)
     /\ main_crop_rect mw' = main_crop_rect mw)
    \/ exists r,
         crop_rect (preview_widget mw') = Some r /\ main_crop_rect mw' = Some r
         /\ Rect.width r = Rect.width orig /\ Rect.height r = Rect.height orig
         /\ within_frame frame r.
Proof.
  intros Hf Hm Ho Hin Hls Hla mw' H.
  destruct (adjust_crop_rect_commits _ _ _ H)
    as [E|(mode & frame' & tl & br & x1 & y1 & x2 & y2 & Hm' & Hf' & Hadj & Hc & Hmc)];
    [now left|right].
  rewrite Hf in Hf'. injection Hf' as <-.
  rewrite Hm in Hm'. injection Hm' as <-.
  exists (QRect_xywh x1 y1 (x2 - x1) (y2 - y1)).
  split; [exact Hc|]. split; [exact Hmc|].
  revert Hadj. rewrite adjusted_frame_rect_split.
  unfold clamped_frame_rect, apply_constraints, reclamp.
  rewrite Ho, Hls, Hla. cbn [Handle_eqb andb orb].
  unfold within_frame in Hin.
  assert (Hv : Rect.isValid orig = true).
  { unfold Rect.isValid. apply andb_true_iff.
    unfold Rect.width, Rect.height in Hin. split; apply Z.leb_le; lia. }
  rewrite Hv.
  set (ow := Rect.width orig) in *. set (oh := Rect.height orig) in *.
  set (fw := shape_width frame) in *. set (fh := shape_height frame) in *.
  set (X1 := clamp 0 (px tl) (fw - ow)). set (Y1 := clamp 0 (py tl) (fh - oh)).
  assert (HX : 0 <= X1 <= fw - ow) by (unfold X1, clamp; lia).
  assert (HY : 0 <= Y1 <= fh - oh) by (unfold Y1, clamp; lia).
  assert (B1 : (fw <? X1 + ow) = false) by (apply Z.ltb_ge; lia).
  assert (B2 : (fh <? Y1 + oh) = false) by (apply Z.ltb_ge; lia).
  assert (B3 : (X1 + ow <=? X1) = false) by (apply Z.leb_gt; lia).
  assert (B4 : (Y1 + oh <=? Y1) = false) by (apply Z.leb_gt; lia).
  assert (B5 : (X1 <? 0) = false) by (apply Z.ltb_ge; lia).
  assert (B6 : (Y1 <? 0) = false) by (apply Z.ltb_ge; lia).
  repeat (rewrite ?B1, ?B2, ?B3, ?B4, ?B5, ?B6; cbn [orb bind]).
  destruct (locked_size (preview_widget mw)); destruct (aspect_ratio (preview_widget mw));
    cbn [bind]; intros E; injection E as <- <- <- <-;
    unfold within_frame, Rect.width, Rect.height, Rect.x, Rect.y, QRect_xywh, clamp;
    cbn [rx1 rx2 ry1 ry2]; lia.
Qed.

Lemma free_move_keeps_size_witness :
  let frame := mkFrame 360 640 in
  let orig := QRect_xywh 100 100 200 100 in
  current_frame (preview_widget moving) = Some frame
  /\ adjust_mode (preview_widget moving) = Some move
  /\ original_crop_rect (preview_widget moving) = Some orig
  /\ within_frame frame orig
  /\ lock_size (preview_widget moving) = false
  /\ lock_aspect_ratio (preview_widget moving) = false
  /\ forall mw', adjust_crop_rect (mkQPoint 250 150) moving = Ok mw' ->
       (crop_rect (preview_widget mw') = crop_rect (preview_widget moving)
        /\ main_crop_rect mw' = main_crop_rect moving)
       \/ exists r,
            crop_rect (preview_widget mw') = Some r /\ main_crop_rect mw' = Some r
            /\ Rect.width r = Rect.width orig /\ Rect.height r = Rect.height orig
            /\ within_frame frame r.
Proof.
  intros frame orig.
  do 3 (split; [vm_compute; reflexivity|]).
  split; [unfold within_frame; vm_compute; repeat split; congruence|].
  do 2 (split; [vm_compute; reflexivity|]).
  apply (free_move_keeps_size (mkQPoint 250 150) moving frame orig);
    first [ vm_compute; reflexivity
          | unfold within_frame; vm_compute; repeat split; congruence ].
Defined.

(** ** Replicas: how many, and in which order *)

Lemma range_nil lo hi : hi <= lo -> range lo hi = [].
Proof.
  intros H. unfold range. replace (Z.to_nat (hi - lo)) with 0%nat by lia. reflexivity.
Qed.

Lemma range_cons lo hi : lo < hi -> range lo hi = lo :: range (lo + 1) hi.
Proof.
  intros H. unfold range.
  replace (Z.to_nat (hi - lo)) with (S (Z.to_nat (hi - (lo + 1)))) by lia.
  cbn [seq map]. f_equal; [lia|].
  rewrite <- seq_shift, map_map. apply map_ext. intros k. lia.
Qed.

(** Filtering a range by an upper bound cuts it. *)
Lemma filter_range_le K n : forall lo hi,
  Z.to_nat (hi - lo) = n ->
  filter (fun i => i <=? K) (range lo hi) = range lo (Z.max lo (Z.min hi (K + 1))).
Proof.
  induction n as [|n IH]; intros lo hi Hn.
  - rewrite !range_nil by lia. reflexivity.
  - rewrite (range_cons lo hi) by lia. cbn [filter].
    destruct (lo <=? K) eqn:E.
    + apply Z.leb_le in E.
      rewrite (range_cons lo (Z.max lo (Z.min hi (K + 1)))) by lia.
      f_equal. rewrite IH by lia. f_equal. lia.
    + apply Z.leb_gt in E.
      rewrite (range_nil lo (Z.max lo (Z.min hi (K + 1)))) by lia.
      assert (Hall : forall l, (forall i, In i l -> K < i) ->
                filter (fun i => i <=? K) l = []).
      { induction l as [|a l IHl]; intros Hl; [reflexivity|]. cbn [filter].
        assert (Ha : (a <=? K) = false) by (apply Z.leb_gt, Hl; now left).
        rewrite Ha. apply IHl. intros i Hi. apply Hl. now right. }
      apply Hall. intros i Hi. apply in_range in Hi. lia.
Qed.

Lemma shadow_fits_bound frame_width crop i :
  0 < Rect.width crop ->
  shadow_fits frame_width crop i
  = (i <=? (frame_width - Rect.x crop) / Rect.width crop - 1).
Proof.
  intros Hw. unfold shadow_fits.
  set (w := Rect.width crop) in *. set (x := Rect.x crop).
  pose proof (Z.mul_div_le (frame_width - x) w Hw).
  pose proof (Z.mul_succ_div_gt (frame_width - x) w Hw).
  destruct (x + w * i + w <=? frame_width) eqn:E1;
    destruct (i <=? (frame_width - x) / w - 1) eqn:E2; try reflexivity;
    reflect_bools; nia.
Qed.

Lemma length_range lo hi : Z.of_nat (List.length (range lo hi)) = Z.max 0 (hi - lo).
Proof. unfold range. rewrite List.length_map, List.length_seq. lia. Qed.

(** The replicas are the first [k] candidates, in order and without a gap,
    where [k] is the number of further copies of the primary that fit between
    its right edge and the right edge of the frame, capped by the count:
    [k = max(0, min(n - 1, (frame_width - x) // width - 1))]. *)
Theorem replicas_are_a_prefix (w : VideoPreviewWidget) (n : Z) (crop : QRect)
  (frame : Frame) :
  crop_rect w = Some crop -> Rect.isValid crop = true ->
  current_frame w = Some frame ->
  exists w' k, update_shadow_crops n w = Ok w'
    /\ k = Z.max 0 (Z.min (n - 1)
                      ((shape_width frame - Rect.x crop) / Rect.width crop - 1))
    /\ shadow_crop_rects w' = map (shadow_rect crop) (range 1 (k + 1))
    /\ Z.of_nat (List.length (shadow_crop_rects w')) = k.
Proof.
  intros Hc Hv Hf.
  assert (Hw : 0 < Rect.width crop).
  { unfold Rect.isValid in Hv. unfold Rect.width. reflect_bools. lia. }
  set (K := (shape_width frame - Rect.x crop) / Rect.width crop - 1).
  assert (Hfil : filter (shadow_fits (shape_width frame) crop) (range 1 n)
                 = range 1 (Z.max 0 (Z.min (n - 1) K) + 1)).
  { rewrite (filter_ext _ (fun i => i <=? K))
      by (intros i; now apply shadow_fits_bound).
    rewrite (filter_range_le K _ 1 n eq_refl). f_equal. lia. }
  destruct (Z_lt_le_dec 1 n) as [Hn|Hn].
  - destruct (update_shadow_crops_rects w n crop frame Hc Hv Hf Hn) as (w' & Hu & Hl).
    exists w', (Z.max 0 (Z.min (n - 1) K)).
    split; [exact Hu|]. split; [reflexivity|].
    rewrite Hl, Hfil. split; [reflexivity|].
    rewrite List.length_map, length_range. lia.
  - exists (with_shadow_crop_rects_widget [] (with_shadow_crop_rects [] w)),
      (Z.max 0 (Z.min (n - 1) K)).
    split.
    { unfold update_shadow_crops. apply Z.leb_le in Hn. rewrite Hn.
      now rewrite orb_true_r. }
    split; [reflexivity|]. fields.
    replace (Z.max 0 (Z.min (n - 1) K)) with 0 by lia.
    split; reflexivity.
Qed.

Lemma replicas_are_a_prefix_witness :
  crop_rect tiling_widget = Some (QRect_xywh 0 0 100 50)
  /\ Rect.isValid (QRect_xywh 0 0 100 50) = true
  /\ current_frame tiling_widget = Some (mkFrame 200 250)
  /\ exists w' k, update_shadow_crops 7 tiling_widget = Ok w'
       /\ k = Z.max 0 (Z.min (7 - 1)
                (((shape_width (mkFrame 200 250)) - Rect.x (QRect_xywh 0 0 100 50))
                 / Rect.width (QRect_xywh 0 0 100 50) - 1))
       /\ shadow_crop_rects w' = map (shadow_rect (QRect_xywh 0 0 100 50)) (range 1 (k + 1))
       /\ Z.of_nat (List.length (shadow_crop_rects w')) = k.
Proof.
  split; [reflexivity|]. split; [reflexivity|]. split; [reflexivity|].
  apply (replicas_are_a_prefix tiling_widget 7 (QRect_xywh 0 0 100 50) (mkFrame 200 250));
    reflexivity.
Defined.

(** The widget-side list. *)
Lemma shadow_step_transform frame_width crop w i p :
  frame_to_widget_coords (shadow_step frame_width crop w i) p = frame_to_widget_coords w p.
Proof.
  unfold shadow_step, frame_to_widget_coords.
  repeat match goal with |- context [if ?c then _ else _] => destruct c end; reflexivity.
Qed.

Lemma shadow_step_widget_rects frame_width crop w i :
  exists l, shadow_crop_rects_widget (shadow_step frame_width crop w i)
            = shadow_crop_rects_widget w ++ l
    /\ (List.length l <= if shadow_fits frame_width crop i then 1 else 0)%nat
    /\ (replica_rows_visible w crop ->
        List.length l = if shadow_fits frame_width crop i then 1%nat else 0%nat).
Proof.
  unfold shadow_step, shadow_fits.
  destruct (_ <=? frame_width).
  - match goal with |- context [if ?c then _ else _] => destruct c eqn:E end.
    + eexists; split; [reflexivity|]. split; [apply le_n|reflexivity].
    + exists []. split; [now rewrite app_nil_r|]. split; [apply Nat.le_0_l|].
      intros [H1 H2]. exfalso.
      apply andb_false_iff in E. unfold point_truthy, QPoint_isNull in E.
      unfold frame_to_widget_coords, Rect.topLeft, Rect.bottomRight, QRect_xywh,
        Rect.x, Rect.y, Rect.width, Rect.height in *.
      fields. cbn [px py rx1 ry1 rx2 ry2] in *.
      replace (ry1 crop + (ry2 crop - ry1 crop + 1) - 1) with (ry2 crop) in E by lia.
      destruct E as [E|E]; apply negb_false_iff, andb_true_iff in E; destruct E as [_ E];
        apply Z.eqb_eq in E; congruence.
  - exists []. split; [now rewrite app_nil_r|]. split; [apply le_n|reflexivity].
Qed.

Lemma shadow_loop_widget_rects frame_width crop l : forall w,
  let w' := fold_left (shadow_step frame_width crop) l w in
  (List.length (shadow_crop_rects_widget w') - List.length (shadow_crop_rects_widget w)
   <= List.length (shadow_crop_rects w') - List.length (shadow_crop_rects w))%nat
  /\ (List.length (shadow_crop_rects_widget w) <= List.length (shadow_crop_rects_widget w'))%nat
  /\ (List.length (shadow_crop_rects w) <= List.length (shadow_crop_rects w'))%nat
  /\ (replica_rows_visible w crop ->
      (List.length (shadow_crop_rects_widget w') - List.length (shadow_crop_rects_widget w)
       = List.length (shadow_crop_rects w') - List.length (shadow_crop_rects w))%nat).
Proof.
  induction l as [|i l IH]; intros w; cbn [fold_left].
  - cbn zeta. repeat split; lia.
  - cbn zeta. specialize (IH (shadow_step frame_width crop w i)). cbn zeta in IH.
    destruct IH as (I1 & I2 & I3 & I4).
    destruct (shadow_step_widget_rects frame_width crop w i) as (lw & E1 & E2 & E3).
    pose proof (shadow_step_rects frame_width crop w i) as E0.
    rewrite E1, E0 in *. rewrite !List.length_app in *.
    assert (Hlen : List.length (if shadow_fits frame_width crop i
                                then [shadow_rect crop i] else [])
                   = if shadow_fits frame_width crop i then 1%nat else 0%nat)
      by (destruct (shadow_fits frame_width crop i); reflexivity).
    rewrite Hlen in *.
    split; [lia|]. split; [lia|]. split; [lia|].
    intros Hv. specialize (E3 Hv).
    assert (Hv' : replica_rows_visible (shadow_step frame_width crop w i) crop).
    { unfold replica_rows_visible in *. now rewrite !shadow_step_transform. }
    specialize (I4 Hv'). lia.
Qed.

(** What is painted is never more than what is exported: after
    [update_shadow_crops] the widget-side list of replicas is not longer than
    the frame-side list, and it has the same length when the top and bottom
    rows of the primary do not land on widget row 0 (a replica whose corner
    lands on the widget origin is kept for export but not painted). *)
Theorem painted_replicas_bounded (w w' : VideoPreviewWidget) (n : Z) :
  update_shadow_crops n w = Ok w' ->
  (List.length (shadow_crop_rects_widget w') <= List.length (shadow_crop_rects w'))%nat
  /\ (forall crop, crop_rect w = Some crop -> replica_rows_visible w crop ->
        List.length (shadow_crop_rects_widget w') = List.length (shadow_crop_rects w')).
Proof.
  unfold update_shadow_crops.
  destruct (negb (rect_truthy (crop_rect w)) || (n <=? 1)).
  - intros H; injection H as <-. fields. split; [apply le_n|reflexivity].
  - destruct (crop_rect w) as [crop|]; [|discriminate].
    destruct (current_frame w) as [frame|]; [|discriminate].
    intros H; injection H as <-.
    match goal with |- context [fold_left ?f ?l ?v] =>
      destruct (shadow_loop_widget_rects (shape_width frame) crop l v)
        as (I1 & I2 & I3 & I4) end.
    fields. cbn [List.length] in *. split; [lia|].
    intros c Hc Hv. injection Hc as <-.
    assert (Hv' : replica_rows_visible
                    (with_shadow_crop_rects_widget [] (with_shadow_crop_rects [] w)) crop)
      by exact Hv.
    specialize (I4 Hv'). lia.
Qed.

Lemma painted_replicas_bounded_witness :
  exists w', update_shadow_crops 4 tiling_widget = Ok w'
    /\ (List.length (shadow_crop_rects_widget w') <= List.length (shadow_crop_rects w'))%nat.
Proof.
  eexists. split; [reflexivity|].
  eapply (painted_replicas_bounded tiling_widget _ 4). reflexivity.
Defined.

(** ** Counts and sizes are not cumulative *)

(** Only the last count matters: the replica lists after two changes of the
    count are those of the second change alone; nothing of the first
    survives. *)
Theorem shadow_count_last_wins (a b : Z) (w w1 : VideoPreviewWidget) :
  set_shadow_count a w = Ok w1 -> set_shadow_count b w1 = set_shadow_count b w.
Proof.
  unfold set_shadow_count.
  assert (Hc : forall n v, crop_rect (with_shadow_count n v) = crop_rect v)
    by (intros n v; destruct v; reflexivity).
  rewrite !Hc.
  destruct (rect_truthy (crop_rect w)) eqn:Ht.
  - intros H. pose proof (update_shadow_crops_shape _ _ _ H) as S1.
    assert (Hc1 : crop_rect w1 = crop_rect w) by (rewrite S1; destruct w; reflexivity).
    rewrite Hc1, Ht.
    replace (with_shadow_count b w1)
      with (with_shadow_crop_rects_widget (shadow_crop_rects_widget w1)
              (with_shadow_crop_rects (shadow_crop_rects w1) (with_shadow_count b w)))
      by (rewrite S1 at 3; destruct w; reflexivity).
    apply update_shadow_crops_ignores_lists.
  - intros H; injection H as <-. rewrite Hc, Ht. destruct w; reflexivity.
Qed.

Lemma shadow_count_last_wins_witness :
  exists w1, set_shadow_count 4 tiling_widget = Ok w1
    /\ set_shadow_count 2 w1 = set_shadow_count 2 tiling_widget.
Proof.
  eexists. split; [reflexivity|].
  apply (shadow_count_last_wins 4 2 tiling_widget). reflexivity.
Defined.

(** [fields] by need: nested setters are shared, not copied. *)
Ltac fields_lazy :=
  lazy beta iota zeta delta [
       current_frame base_pixmap crop_rect crop_rect_widget shadow_crop_rects
       shadow_crop_rects_widget drawing adjusting adjust_mode start_point end_point
       start_point_widget end_point_widget original_crop_rect
       original_crop_rect_widget frame_to_widget_scale_x frame_to_widget_scale_y
       widget_offset_x widget_offset_y handle_size lock_aspect_ratio aspect_ratio
       lock_size locked_size shadow_count size 
       with_current_frame with_base_pixmap with_crop_rect with_crop_rect_widget
       with_shadow_crop_rects with_shadow_crop_rects_widget with_drawing
       with_adjusting with_adjust_mode with_start_point with_end_point
       with_start_point_widget with_end_point_widget with_original_crop_rect
       with_original_crop_rect_widget with_frame_to_widget_scale_x
       with_frame_to_widget_scale_y with_widget_offset_x with_widget_offset_y
       with_lock_aspect_ratio with_aspect_ratio with_lock_size with_locked_size
       with_shadow_count with_size preview_widget locale main_crop_rect
       crop_aspect_ratio main_shadow_count aspect_ratio_combo custom_width_spin
       custom_height_spin lock_aspect_checkbox custom_ratio_widget
       with_preview_widget with_main_crop_rect with_crop_aspect_ratio
       with_main_shadow_count with_aspect_ratio_combo with_custom_width_spin
       with_custom_height_spin with_lock_aspect_checkbox with_custom_ratio_widget
       bind ] in *.

(** The layout after a resize depends on the final size only: resizing to
    [a] and then to [b] leaves the state that resizing to [b] directly
    leaves, so the widget rectangle does not drift however often the window
    is resized. *)
Theorem resize_last_wins (a b : QSize) (w w1 : VideoPreviewWidget) :
  resizeEvent a w = Ok w1 -> resizeEvent b w1 = resizeEvent b w.
Proof.
  intros H.
  destruct w as [cf bp cr crw scr scrw dr adj am sp ep spw epw ocr ocrw sx sy ox oy
                   hs lar ar ls lsz sc sz].
  unfold resizeEvent in *. fields_lazy.
  destruct cf as [frame|]; [|injection H as <-; reflexivity].
  unfold update_base_pixmap in *. fields_lazy.
  destruct ((shape_width frame =? 0) || (shape_height frame =? 0)) eqn:Ez;
    [discriminate|].
  fields_lazy.
  destruct cr as [crop|]; [destruct (Rect.isValid crop) eqn:Ev|].
  - pose proof (update_shadow_crops_shape _ _ _ H) as S1. fields_lazy. rewrite S1.
    generalize (shadow_crop_rects_widget w1) (shadow_crop_rects w1). intros l1 l2.
    fields_lazy. rewrite Ez. fields_lazy. rewrite Ev.
    unfold update_shadow_crops, frame_to_widget_coords. fields_lazy. reflexivity.
  - injection H as <-. fields_lazy. rewrite Ez. fields_lazy. rewrite Ev. reflexivity.
  - injection H as <-. fields_lazy. rewrite Ez. fields_lazy. reflexivity.
Qed.

Lemma resize_last_wins_witness :
  exists w1, resizeEvent (mkQSize 800 600) qhd_widget = Ok w1
    /\ resizeEvent (mkQSize 1280 720) w1 = resizeEvent (mkQSize 1280 720) qhd_widget.
Proof.
  eexists. split; [vm_compute; reflexivity|].
  apply (resize_last_wins (mkQSize 800 600) (mkQSize 1280 720) qhd_widget).
  vm_compute. reflexivity.
Defined.

(** ** Resizing and the letterbox *)

(** A resize does not touch the selection: for a frame with no zero side (or
    no frame at all) [resizeEvent] returns normally, stores the new size, and
    leaves the frame, the rectangle in frame coordinates, the gesture state
    and the stored frame points as they were. *)
Theorem resize_keeps_selection (new_size : QSize) (w : VideoPreviewWidget) :
  (forall frame, current_frame w = Some frame ->
     shape_width frame <> 0 /\ shape_height frame <> 0) ->
  exists w', resizeEvent new_size w = Ok w'
    /\ size w' = new_size
    /\ current_frame w' = current_frame w
    /\ crop_rect w' = crop_rect w
    /\ drawing w' = drawing w /\ adjusting w' = adjusting w
    /\ adjust_mode w' = adjust_mode w
    /\ start_point w' = start_point w /\ end_point w' = end_point w
    /\ shadow_count w' = shadow_count w.
Proof.
  intros Hnz.
  destruct w as [cf bp cr crw scr scrw dr adj am sp ep spw epw ocr ocrw sx sy ox oy
                   hs lar ar ls lsz sc sz].
  unfold resizeEvent. fields_lazy.
  destruct cf as [frame|]; [|eexists; split; [reflexivity|]; repeat split].
  destruct (Hnz frame eq_refl) as [Hw Hh].
  unfold update_base_pixmap. fields_lazy.
  apply Z.eqb_neq in Hw, Hh. rewrite Hw, Hh. cbn [orb]. fields_lazy.
  destruct cr as [crop|]; [destruct (Rect.isValid crop) eqn:Ev|];
    try (eexists; split; [reflexivity|]; repeat split).
  match goal with |- context [update_shadow_crops ?n ?v] =>
    destruct (update_shadow_crops_ok n v frame eq_refl) as (w' & Hu) end.
  exists w'. split; [exact Hu|].
  rewrite (update_shadow_crops_shape _ _ _ Hu). fields_lazy. repeat split.
Qed.

Lemma resize_keeps_selection_witness :
  exists w', resizeEvent (mkQSize 800 600) tiling_widget = Ok w'
    /\ size w' = mkQSize 800 600
    /\ current_frame w' = current_frame tiling_widget
    /\ crop_rect w' = crop_rect tiling_widget
    /\ drawing w' = drawing tiling_widget /\ adjusting w' = adjusting tiling_widget
    /\ adjust_mode w' = adjust_mode tiling_widget
    /\ start_point w' = start_point tiling_widget
    /\ end_point w' = end_point tiling_widget
    /\ shadow_count w' = shadow_count tiling_widget.
Proof.
  apply (resize_keeps_selection (mkQSize 800 600) tiling_widget).
  intros frame H. injection H as <-. split; discriminate.
Defined.

Lemma centered_left W pw :
  0 < pw <= W ->
  let left := Z.quot (0 + (0 + W - 1)) 2 - Z.quot (0 + pw - 1 - 0) 2 in
  0 <= left /\ left + pw <= W /\ -1 <= 2 * left - (W - pw) <= 1.
Proof.
  intros H. cbn zeta.
  rewrite !Z.quot_div_nonneg by lia.
  pose proof (Z.div_mod (0 + (0 + W - 1)) 2 ltac:(lia)).
  pose proof (Z.mod_pos_bound (0 + (0 + W - 1)) 2 ltac:(lia)).
  pose proof (Z.div_mod (0 + pw - 1 - 0) 2 ltac:(lia)).
  pose proof (Z.mod_pos_bound (0 + pw - 1 - 0) 2 ltac:(lia)).
  lia.
Qed.

(** The letterbox.  After [update_base_pixmap] on a non-empty frame in a
    non-empty widget the pixmap fits the widget and fills it on one axis at
    least; the scales are positive and the offsets are half the free space,
    hence not negative; and the rectangle in which the pixmap is painted (and
    to which pointers are clamped) lies in the widget, its left and top
    within half a pixel of those offsets. *)
Theorem letterbox_layout (w0 w : VideoPreviewWidget) (frame : Frame) :
  current_frame w0 = Some frame ->
  0 < shape_width frame -> 0 < shape_height frame ->
  0 < size_width (size w0) -> 0 < size_height (size w0) ->
  update_base_pixmap w0 = Ok w ->
  exists pm,
    base_pixmap w = Some pm
    /\ 0 < size_width pm <= size_width (size w)
    /\ 0 < size_height pm <= size_height (size w)
    /\ (size_width pm = size_width (size w) \/ size_height pm = size_height (size w))
    /\ (0 < frame_to_widget_scale_x w)%Q /\ (0 < frame_to_widget_scale_y w)%Q
    /\ (widget_offset_x w == true_div (size_width (size w) - size_width pm) 2)%Q
    /\ (widget_offset_y w == true_div (size_height (size w) - size_height pm) 2)%Q
    /\ (0 <= widget_offset_x w)%Q /\ (0 <= widget_offset_y w)%Q
    /\ (let r := centered_pixmap_rect w pm in
        0 <= Rect.left r /\ Rect.right r < size_width (size w)
        /\ 0 <= Rect.top r /\ Rect.bottom r < size_height (size w)
        /\ Rect.width r = size_width pm /\ Rect.height r = size_height pm
        /\ -1 <= 2 * Rect.left r - (size_width (size w) - size_width pm) <= 1
        /\ -1 <= 2 * Rect.top r - (size_height (size w) - size_height pm) <= 1).
Proof.
  intros Hf Hfw Hfh HW HH. unfold update_base_pixmap. rewrite Hf.
  destruct (shape_width frame =? 0) eqn:E1; [apply Z.eqb_eq in E1; lia|].
  destruct (shape_height frame =? 0) eqn:E2; [apply Z.eqb_eq in E2; lia|].
  cbn [orb]. intros H; injection H as <-.
  destruct (size w0) as [W H] eqn:Es. cbn [size_width size_height] in *.
  pose proof (scaled_fits (shape_width frame) (shape_height frame) W H Hfw Hfh HW HH) as Hfit.
  cbn zeta in Hfit.
  set (pm := scaled _ _) in *.
  assert (Hfill : size_width pm = W \/ size_height pm = H).
  { unfold pm, scaled. cbn [size_width size_height].
    destruct (shape_width frame <=? 0) eqn:A1; [apply Z.leb_le in A1; lia|].
    destruct (shape_height frame <=? 0) eqn:A2; [apply Z.leb_le in A2; lia|].
    destruct (W <=? 0) eqn:A3; [apply Z.leb_le in A3; lia|].
    destruct (H <=? 0) eqn:A4; [apply Z.leb_le in A4; lia|].
    cbn [orb].
    destruct (_ <=? W); cbn [size_width size_height]; lia. }
  exists pm. fields. rewrite Es. cbn [size_width size_height].
  split; [reflexivity|]. split; [lia|]. split; [lia|]. split; [exact Hfill|].
  assert (Hpos : forall a b, 0 < a -> 0 < b -> (0 < true_div a b)%Q).
  { intros a b Ha Hb. unfold true_div. apply Qlt_shift_div_l.
    - replace 0%Q with (inject_Z 0) by reflexivity. now rewrite <- Zlt_Qlt.
    - rewrite Qmult_0_l. replace 0%Q with (inject_Z 0) by reflexivity.
      now rewrite <- Zlt_Qlt. }
  assert (Hnn : forall a, 0 <= a -> (0 <= true_div a 2)%Q).
  { intros a Ha. unfold true_div. apply Qle_shift_div_l; [reflexivity|].
    rewrite Qmult_0_l. replace 0%Q with (inject_Z 0) by reflexivity.
    now rewrite <- Zle_Qle. }
  split; [apply Hpos; lia|]. split; [apply Hpos; lia|].
  split; [reflexivity|]. split; [reflexivity|].
  split; [apply Hnn; lia|]. split; [apply Hnn; lia|].
  unfold centered_pixmap_rect, widget_rect, Rect.moveCenter, Rect.center, QRect_xywh,
    Rect.left, Rect.right, Rect.top, Rect.bottom, Rect.width, Rect.height.
  fields. rewrite Es. cbn [size_width size_height rx1 rx2 ry1 ry2 px py].
  pose proof (centered_left W (size_width pm) ltac:(lia)) as Hx.
  pose proof (centered_left H (size_height pm) ltac:(lia)) as Hy.
  cbn zeta in Hx, Hy.
  repeat split; lia.
Qed.

Lemma letterbox_layout_witness :
  let w0 := with_current_frame (Some (mkFrame 1080 1920))
              (with_size (mkQSize 801 600) VideoPreviewWidget_init) in
  exists w pm, update_base_pixmap w0 = Ok w
    /\ base_pixmap w = Some pm
    /\ 0 < size_width pm <= size_width (size w)
    /\ 0 < size_height pm <= size_height (size w).
Proof.
  intros w0.
  destruct (update_base_pixmap w0) as [w|] eqn:E; [|vm_compute in E; discriminate].
  destruct (letterbox_layout w0 w (mkFrame 1080 1920)) as (pm & H1 & H2 & H3 & _);
    try reflexivity; try exact E.
  exists w, pm. repeat split; try assumption; lia.
Defined.

(** ** Gestures *)

Lemma widget_to_frame_coords_flags a b c w p :
  widget_to_frame_coords (with_adjust_mode a (with_adjusting b (with_drawing c w))) p
  = widget_to_frame_coords w p.
Proof. destruct w; reflexivity. Qed.

(** A plain click away from the handles replaces the selection by one pixel:
    with no constraint active, a left press on a point that is on no handle
    and maps to the frame point [q] (not the origin) commits, on both objects,
    the 1 x 1 rectangle at [q] (pulled inside at the right and bottom edge),
    whatever rectangle there was, and starts a drawing gesture. *)
Theorem click_starts_unit_rectangle (pos q : QPoint) (mw : MainWindow) (frame : Frame) :
  current_frame (preview_widget mw) = Some frame ->
  0 < shape_width frame -> 0 < shape_height frame ->
  get_crop_handle_at (preview_widget mw) pos = None ->
  widget_to_frame_coords (preview_widget mw) pos = Ok (Some q) ->
  point_truthy (Some q) = true ->
  lock_size (preview_widget mw) = false ->
  lock_aspect_ratio (preview_widget mw) = false ->
  exists mw',
    mousePressEvent LeftButton pos mw = Ok mw'
    /\ crop_rect (preview_widget mw')
       = Some (QRect_xywh (Z.min (px q) (shape_width frame - 1))
                          (Z.min (py q) (shape_height frame - 1)) 1 1)
    /\ main_crop_rect mw' = crop_rect (preview_widget mw')
    /\ drawing (preview_widget mw') = true
    /\ adjusting (preview_widget mw') = false.
Proof.
  intros Hf Hfw Hfh Hh Hq Ht Hls Hla.
  assert (Hb : 0 <= px q <= shape_width frame /\ 0 <= py q <= shape_height frame).
  { revert Hq. unfold widget_to_frame_coords. rewrite Hf.
    destruct (_ || _); [discriminate|].
    intros H; injection H as <-. unfold clamp. cbn [px py]. lia. }
  unfold mousePressEvent. rewrite Hf, Hh.
  replace (if rect_truthy (crop_rect_widget (preview_widget mw)) then None else None)
    with (@None Handle) by (destruct (rect_truthy _); reflexivity).
  rewrite widget_to_frame_coords_flags, Hq. cbn [bind]. rewrite Ht.
  set (w4 := with_end_point_widget _ _).
  set (crop := QRect_xywh (Z.min (px q) (shape_width frame - 1))
                          (Z.min (py q) (shape_height frame - 1)) 1 1).
  assert (Hd : drawn_frame_rect w4 q q frame = Ok crop).
  { unfold drawn_frame_rect, apply_constraints.
    replace (lock_size w4) with false by (rewrite <- Hls; destruct (preview_widget mw); reflexivity).
    replace (lock_aspect_ratio w4) with false
      by (rewrite <- Hla; destruct (preview_widget mw); reflexivity).
    replace (match locked_size w4 with Some _ | _ => Ok _ end)
      with (Ok (Z.min (px q) (px q), Z.min (py q) (py q), Z.max (px q) (px q),
                Z.max (py q) (py q)))
      by (destruct (locked_size w4), (aspect_ratio w4); reflexivity).
    cbn [bind]. unfold crop, QRect_xywh, clamp. f_equal.
    repeat match goal with |- context [if ?c then _ else _] => destruct c eqn:? end;
      reflect_bools; f_equal; lia. }
  destruct (update_crop_rect_runs (with_preview_widget w4 mw) q q frame crop)
    as (v1 & v2 & _ & _ & S2 & Hrun).
  - destruct mw as [w ? ? ? ? ? ? ? ? ?]; destruct w; reflexivity.
  - destruct mw as [w ? ? ? ? ? ? ? ? ?]; destruct w; reflexivity.
  - destruct mw as [w ? ? ? ? ? ? ? ? ?]; destruct w; exact Hf.
  - rewrite Ht. reflexivity.
  - replace (preview_widget (with_preview_widget w4 mw)) with w4
      by (destruct mw; reflexivity).
    exact Hd.
  - rewrite Hrun. eexists. split; [reflexivity|].
    replace (preview_widget (with_preview_widget w4 mw)) with w4 in S2
      by (destruct mw; reflexivity).
    destruct (redraw_widget_rect_keeps (with_crop_rect (Some crop) w4))
      as (_ & _ & _ & K4 & K5 & K6 & _).
    fields. rewrite S2. fields. rewrite K4, K5, K6.
    split; [destruct w4; reflexivity|]. split; [destruct w4; reflexivity|].
    split; destruct mw as [w ? ? ? ? ? ? ? ? ?]; destruct w; reflexivity.
Qed.

Lemma click_starts_unit_rectangle_witness :
  let mw := state_after (firstn 4 adjusted_session) in
  exists mw',
    mousePressEvent LeftButton (mkQPoint 500 300) mw = Ok mw'
    /\ crop_rect (preview_widget mw')
       = Some (QRect_xywh (Z.min 500 (640 - 1)) (Z.min 300 (360 - 1)) 1 1)
    /\ main_crop_rect mw' = crop_rect (preview_widget mw')
    /\ drawing (preview_widget mw') = true
    /\ adjusting (preview_widget mw') = false.
Proof.
  intros mw.
  apply (click_starts_unit_rectangle (mkQPoint 500 300) (mkQPoint 500 300) mw
           (mkFrame 360 640)); vm_compute; reflexivity.
Defined.

(** [adjust_crop_rect_commits], with what is known of the converted corner. *)
Lemma adjust_crop_rect_commits_corner pos mw mw' :
  adjust_crop_rect pos mw = Ok mw' ->
  (crop_rect (preview_widget mw') = crop_rect (preview_widget mw)
   /\ main_crop_rect mw' = main_crop_rect mw)
  \/ exists mode frame tl br x1 y1 x2 y2,
       adjust_mode (preview_widget mw) = Some mode
       /\ current_frame (preview_widget mw) = Some frame
       /\ 0 <= px tl /\ 0 <= py tl /\ point_truthy (Some tl) = true
       /\ adjusted_frame_rect (preview_widget mw) mode tl br
            (shape_width frame) (shape_height frame) = Ok (x1, y1, x2, y2)
       /\ crop_rect (preview_widget mw') = Some (QRect_xywh x1 y1 (x2 - x1) (y2 - y1))
       /\ main_crop_rect mw' = Some (QRect_xywh x1 y1 (x2 - x1) (y2 - y1)).
Proof.
  unfold adjust_crop_rect.
  destruct (original_crop_rect_widget (preview_widget mw)) as [orig|];
    [|intros H; injection H as <-; now left].
  destruct (current_frame (preview_widget mw)) as [frame|] eqn:Hf;
    [|intros H; injection H as <-; now left].
  destruct (negb (Rect.isValid orig)); [intros H; injection H as <-; now left|].
  destruct (start_point_widget (preview_widget mw)) as [spw|]; [|discriminate].
  destruct (adjust_mode (preview_widget mw)) as [mode|] eqn:Hm.
  2:{ destruct (lock_aspect_ratio (preview_widget mw));
      [destruct (aspect_ratio (preview_widget mw)) as [[? [|?|?]]|]|];
      try discriminate; intros H; injection H as <-; now left. }
  match goal with |- bind ?c _ = _ -> _ => destruct c as [[dx dy]|]; [|discriminate] end.
  cbn [bind].
  match goal with |- context [with_crop_rect_widget (Some ?e) _] => set (r := e) end.
  destruct (widget_to_frame_coords _ (Rect.topLeft r)) as [tlo|] eqn:Htl; [|discriminate].
  cbn [bind].
  destruct (widget_to_frame_coords _ (Rect.bottomRight r)) as [bro|]; [|discriminate].
  cbn [bind].
  destruct tlo as [tl|]; [|intros H; injection H as <-; destruct mw; now left].
  destruct bro as [br|]; [|intros H; injection H as <-; destruct mw; now left].
  destruct (point_truthy (Some tl) && point_truthy (Some br)) eqn:Ht;
    [|intros H; injection H as <-; destruct mw; now left].
  rewrite adjusted_frame_rect_inputs.
  destruct (adjusted_frame_rect (preview_widget mw) mode tl br _ _)
    as [[[[x1 y1] x2] y2]|] eqn:Ha; [|discriminate].
  cbn [bind]. unfold on_crop_changed. fields.
  match goal with |- bind (update_shadow_crops ?n ?v) _ = _ -> _ =>
    destruct (update_shadow_crops n v) as [v'|] eqn:Hv; [|discriminate] end.
  cbn [bind]. intros H; injection H as <-.
  right. exists mode, frame, tl, br, x1, y1, x2, y2.
  split; [reflexivity|]. split; [reflexivity|].
  assert (Hb : 0 <= px tl /\ 0 <= py tl).
  { revert Htl. unfold widget_to_frame_coords.
    destruct (current_frame _); [|discriminate].
    destruct (_ || _); [discriminate|].
    intros H; injection H as <-. unfold clamp. cbn [px py]. lia. }
  split; [apply Hb|]. split; [apply Hb|].
  split; [now apply andb_true_iff in Ht|].
  split; [exact Ha|].
  fields. split; [|destruct mw; reflexivity].
  rewrite (update_shadow_crops_shape _ _ _ Hv). fields.
  match goal with |- context [if ?c then _ else _] => destruct c end; reflexivity.
Qed.

(** The top-left pixel of the frame is out of reach: when an unconstrained
    rectangle smaller than the frame is moved, no rectangle that
    [adjust_crop_rect] commits has its corner at the frame origin (0, 0).  A
    corner converted to the origin is a falsy [QPoint], and the update is
    then shown in the widget but not committed. *)
Theorem moved_crop_never_at_origin (pos : QPoint) (mw : MainWindow) (frame : Frame)
  (orig : QRect) :
  current_frame (preview_widget mw) = Some frame ->
  adjust_mode (preview_widget mw) = Some move ->
  original_crop_rect (preview_widget mw) = Some orig ->
  within_frame frame orig ->
  Rect.width orig < shape_width frame -> Rect.height orig < shape_height frame ->
  lock_size (preview_widget mw) = false ->
  lock_aspect_ratio (preview_widget mw) = false ->
  forall mw', adjust_crop_rect pos mw = Ok mw' ->
    (crop_rect (preview_widget mw') = crop_rect (preview_widget mw)
     /\ main_crop_rect mw' = main_crop_rect mw)
    \/ exists r,
         crop_rect (preview_widget mw') = Some r /\ main_crop_rect mw' = Some r
         /\ (Rect.x r <> 0 \/ Rect.y r <> 0).
Proof.
  intros Hf Hm Ho Hin Hlw Hlh Hls Hla mw' H.
  destruct (adjust_crop_rect_commits_corner _ _ _ H)
    as [E|(mode & frame' & tl & br & x1 & y1 & x2 & y2 & Hm' & Hf' & Hx & Hy & Ht
           & Hadj & Hc & Hmc)];
    [now left|right].
  rewrite Hf in Hf'. injection Hf' as <-.
  rewrite Hm in Hm'. injection Hm' as <-.
  exists (QRect_xywh x1 y1 (x2 - x1) (y2 - y1)).
  split; [exact Hc|]. split; [exact Hmc|].
  revert Hadj. rewrite adjusted_frame_rect_split.
  unfold clamped_frame_rect, apply_constraints, reclamp.
  rewrite Ho, Hls, Hla. cbn [Handle_eqb andb orb].
  unfold within_frame in Hin.
  assert (Hv : Rect.isValid orig = true).
  { unfold Rect.isValid. apply andb_true_iff.
    unfold Rect.width, Rect.height in Hin. split; apply Z.leb_le; lia. }
  rewrite Hv.
  set (ow := Rect.width orig) in *. set (oh := Rect.height orig) in *.
  set (fw := shape_width frame) in *. set (fh := shape_height frame) in *.
  set (X1 := clamp 0 (px tl) (fw - ow)). set (Y1 := clamp 0 (py tl) (fh - oh)).
  assert (HX : 0 <= X1 <= fw - ow) by (unfold X1, clamp; lia).
  assert (HY : 0 <= Y1 <= fh - oh) by (unfold Y1, clamp; lia).
  assert (Hnz : X1 <> 0 \/ Y1 <> 0).
  { unfold point_truthy, QPoint_isNull in Ht.
    apply negb_true_iff, andb_false_iff in Ht.
    destruct Ht as [Ht|Ht]; apply Z.eqb_neq in Ht; [left|right]; unfold X1, Y1, clamp; lia. }
  assert (B1 : (fw <? X1 + ow) = false) by (apply Z.ltb_ge; lia).
  assert (B2 : (fh <? Y1 + oh) = false) by (apply Z.ltb_ge; lia).
  assert (B3 : (X1 + ow <=? X1) = false) by (apply Z.leb_gt; lia).
  assert (B4 : (Y1 + oh <=? Y1) = false) by (apply Z.leb_gt; lia).
  assert (B5 : (X1 <? 0) = false) by (apply Z.ltb_ge; lia).
  assert (B6 : (Y1 <? 0) = false) by (apply Z.ltb_ge; lia).
  repeat (rewrite ?B1, ?B2, ?B3, ?B4, ?B5, ?B6; cbn [orb bind]).
  destruct (locked_size (preview_widget mw)); destruct (aspect_ratio (preview_widget mw));
    cbn [bind]; intros E; injection E as <- <- <- <-;
    unfold Rect.x, Rect.y, QRect_xywh, clamp;
    cbn [rx1 rx2 ry1 ry2]; lia.
Qed.

Lemma moved_crop_never_at_origin_witness :
  let frame := mkFrame 360 640 in
  let orig := QRect_xywh 100 100 200 100 in
  current_frame (preview_widget moving) = Some frame
  /\ adjust_mode (preview_widget moving) = Some move
  /\ original_crop_rect (preview_widget moving) = Some orig
  /\ within_frame frame orig
  /\ Rect.width orig < shape_width frame /\ Rect.height orig < shape_height frame
  /\ lock_size (preview_widget moving) = false
  /\ lock_aspect_ratio (preview_widget moving) = false
  /\ forall mw', adjust_crop_rect (mkQPoint 100 50) moving = Ok mw' ->
       (crop_rect (preview_widget mw') = crop_rect (preview_widget moving)
        /\ main_crop_rect mw' = main_crop_rect moving)
       \/ exists r,
            crop_rect (preview_widget mw') = Some r /\ main_crop_rect mw' = Some r
            /\ (Rect.x r <> 0 \/ Rect.y r <> 0).
Proof.
  intros frame orig.
  do 3 (split; [vm_compute; reflexivity|]).
  split; [unfold within_frame; vm_compute; repeat split; congruence|].
  do 4 (split; [vm_compute; reflexivity|]).
  apply (moved_crop_never_at_origin (mkQPoint 100 50) moving frame orig);
    first [ vm_compute; reflexivity
          | unfold within_frame; vm_compute; repeat split; congruence ].
Defined.

(** ** The constraint controls *)

Lemma bind_no_loop {A B} (m : Result A) (k : A -> Result B) :
  m <> Err SignalLoop -> (forall a, m = Ok a -> k a <> Err SignalLoop) ->
  bind m k <> Err SignalLoop.
Proof.
  destruct m as [a|e]; cbn [bind]; intros Hm Hk; [now apply Hk|].
  intros H; injection H as ->. now apply Hm.
Qed.

Lemma bind_more_fuel {A B} (m m' : Result A) (k k' : A -> Result B) :
  (m <> Err SignalLoop -> m' = m) ->
  (forall a, m = Ok a -> k a <> Err SignalLoop -> k' a = k a) ->
  bind m k <> Err SignalLoop -> bind m' k' = bind m k.
Proof.
  intros Hm Hk H. destruct m as [a|e]; cbn [bind] in *.
  - rewrite Hm by discriminate. cbn [bind]. now apply Hk.
  - rewrite Hm; [reflexivity|]. intros E; injection E as ->. now apply H.
Qed.

Lemma apply_constraints_raises w x1 y1 x2 y2 e :
  apply_constraints w x1 y1 x2 y2 = Err e -> e = ZeroDivisionError.
Proof.
  unfold apply_constraints, apply_aspect_ratio_constraint.
  repeat match goal with
         | |- context [match ?c with _ => _ end] => destruct c
         end; intros H; try discriminate; now injection H as <-.
Qed.

Lemma update_crop_rect_no_loop mw : update_crop_rect mw <> Err SignalLoop.
Proof.
  unfold update_crop_rect.
  destruct (start_point (preview_widget mw)) as [sp|] eqn:Hs; [|discriminate].
  destruct (end_point (preview_widget mw)) as [ep|] eqn:He; [|discriminate].
  destruct (current_frame (preview_widget mw)) as [frame|] eqn:Hf; [|discriminate].
  destruct (point_truthy (Some sp) && point_truthy (Some ep)) eqn:Ht; [|discriminate].
  destruct (drawn_frame_rect (preview_widget mw) sp ep frame) as [crop|e] eqn:Hd.
  - destruct (update_crop_rect_runs mw sp ep frame crop Hs He Hf Ht Hd)
      as (v1 & v2 & _ & _ & _ & Hrun).
    unfold update_crop_rect in Hrun. rewrite Hs, He, Hf, Ht, Hd in Hrun.
    rewrite Hrun. discriminate.
  - cbn [bind]. revert Hd. unfold drawn_frame_rect.
    destruct (apply_constraints _ _ _ _ _) as [[[[x1 y1] x2] y2]|e'] eqn:Ea;
      cbn [bind]; [discriminate|].
    intros H; injection H as <-.
    rewrite (apply_constraints_raises _ _ _ _ _ _ Ea). discriminate.
Qed.

(** The controls of the window, apart from the rectangle. *)
Lemma update_crop_rect_controls mw mw' :
  update_crop_rect mw = Ok mw' -> same_controls mw mw'.
Proof.
  intros H.
  destruct (update_crop_rect_cases _ _ H)
    as [->|(sp & ep & frame & crop & v2 & _ & _ & _ & _ & _ & _ & ->)];
    unfold same_controls; fields; repeat split.
Qed.

Section Controls.

Variable tr : string -> string -> string.

Lemma on_lock_aspect_toggled_at_S fuel locked mw :
  on_lock_aspect_toggled_at tr (S fuel) locked mw
  = (mw <- (if negb locked then
              setCurrentText_at tr fuel (tr "free" (locale mw))
                (with_crop_aspect_ratio None mw)
            else Ok mw) ;;
     let w := with_lock_aspect_ratio locked (preview_widget mw) in
     let w := with_aspect_ratio (if locked then crop_aspect_ratio mw else None) w in
     let mw := with_preview_widget w mw in
     if rect_truthy (crop_rect (preview_widget mw)) then update_crop_rect mw else Ok mw).
Proof. reflexivity. Qed.

Lemma on_aspect_ratio_changed_at_S fuel ratio_text mw :
  on_aspect_ratio_changed_at tr (S fuel) ratio_text mw
  = (let free_text := tr "free" (locale mw) in
     let custom_text := tr "custom" (locale mw) in
     mw <- (if String.eqb ratio_text custom_text then
              let mw := with_custom_ratio_widget true mw in
              let mw := with_crop_aspect_ratio
                          (Some (custom_width_spin mw, custom_height_spin mw)) mw in
              setChecked_at tr fuel true mw
            else Ok (with_custom_ratio_widget false mw)) ;;
     let old_ratio := crop_aspect_ratio mw in
     mw <- (if String.eqb ratio_text free_text then
              setChecked_at tr fuel false (with_crop_aspect_ratio None mw)
            else if negb (String.eqb ratio_text custom_text) then
              setChecked_at tr fuel true
                (with_crop_aspect_ratio (dict_get ratio_map ratio_text) mw)
            else Ok mw) ;;
     let mw := if negb (ratio_eqb old_ratio (crop_aspect_ratio mw))
               then MainWindow_clear_crop mw else mw in
     let w := with_aspect_ratio (crop_aspect_ratio mw) (preview_widget mw) in
     let w := with_lock_aspect_ratio
                (match crop_aspect_ratio mw with Some _ => true | None => false end) w in
     Ok (with_preview_widget w mw)).
Proof. reflexivity. Qed.

(** More fuel changes nothing once the nesting has ended. *)
Lemma more_fuel fuel :
  (forall t mw, on_aspect_ratio_changed_at tr fuel t mw <> Err SignalLoop ->
     on_aspect_ratio_changed_at tr (S fuel) t mw = on_aspect_ratio_changed_at tr fuel t mw)
  /\ (forall b mw, on_lock_aspect_toggled_at tr fuel b mw <> Err SignalLoop ->
        on_lock_aspect_toggled_at tr (S fuel) b mw = on_lock_aspect_toggled_at tr fuel b mw).
Proof.
  induction fuel as [|fuel [IHa IHt]].
  - split; intros ? ? H; now contradiction H.
  - assert (Hc : forall b mw, setChecked_at tr fuel b mw <> Err SignalLoop ->
                   setChecked_at tr (S fuel) b mw = setChecked_at tr fuel b mw).
    { intros b mw. unfold setChecked_at. destruct (Bool.eqb _ _); [reflexivity|apply IHt]. }
    assert (Ht : forall t mw, setCurrentText_at tr fuel t mw <> Err SignalLoop ->
                   setCurrentText_at tr (S fuel) t mw = setCurrentText_at tr fuel t mw).
    { intros t mw. unfold setCurrentText_at. destruct (String.eqb _ _); [reflexivity|apply IHa]. }
    split.
    + intros t mw. rewrite (on_aspect_ratio_changed_at_S (S fuel)),
        (on_aspect_ratio_changed_at_S fuel). cbn zeta.
      destruct (String.eqb t (tr "custom" (locale mw))),
        (String.eqb t (tr "free" (locale mw))); cbn [negb];
        (apply bind_more_fuel;
         [try apply Hc; reflexivity
         |intros mw1 _; apply bind_more_fuel; [try apply Hc|]; reflexivity]).
    + intros b mw. rewrite (on_lock_aspect_toggled_at_S (S fuel)),
        (on_lock_aspect_toggled_at_S fuel).
      apply bind_more_fuel; [|reflexivity].
      destruct (negb b); [apply Ht|reflexivity].
Qed.

Lemma toggled_on_no_loop fuel mw :
  on_lock_aspect_toggled_at tr (S fuel) true mw <> Err SignalLoop.
Proof.
  rewrite on_lock_aspect_toggled_at_S. cbn [negb bind]. cbn zeta.
  destruct (rect_truthy _); [apply update_crop_rect_no_loop|discriminate].
Qed.

Lemma toggled_on_controls fuel mw mw' :
  on_lock_aspect_toggled_at tr (S fuel) true mw = Ok mw' -> same_controls mw mw'.
Proof.
  rewrite on_lock_aspect_toggled_at_S. cbn [negb bind]. cbn zeta.
  destruct (rect_truthy _).
  - intros H. apply update_crop_rect_controls in H. revert H.
    unfold same_controls. fields. tauto.
  - intros H; injection H as <-. unfold same_controls. fields. repeat split.
Qed.

Lemma toggled_off_no_loop_free fuel mw :
  aspect_ratio_combo mw = tr "free" (locale mw) ->
  on_lock_aspect_toggled_at tr (S fuel) false mw <> Err SignalLoop.
Proof.
  intros Hc. rewrite on_lock_aspect_toggled_at_S. cbn [negb].
  unfold setCurrentText_at. fields. rewrite Hc, String.eqb_refl. cbn [bind]. cbn zeta.
  destruct (rect_truthy _); [apply update_crop_rect_no_loop|discriminate].
Qed.

Lemma setChecked_no_loop_free fuel b mw :
  aspect_ratio_combo mw = tr "free" (locale mw) ->
  setChecked_at tr (S fuel) b mw <> Err SignalLoop.
Proof.
  intros Hc. unfold setChecked_at. destruct (Bool.eqb _ _); [discriminate|].
  destruct b; [apply toggled_on_no_loop|now apply toggled_off_no_loop_free].
Qed.

Lemma setChecked_on_controls fuel mw mw' :
  setChecked_at tr (S fuel) true mw = Ok mw' ->
  locale mw' = locale mw /\ aspect_ratio_combo mw' = aspect_ratio_combo mw.
Proof.
  unfold setChecked_at. destruct (Bool.eqb _ _).
  - intros H; injection H as <-. split; reflexivity.
  - intros H. apply toggled_on_controls in H. unfold same_controls in H. fields. tauto.
Qed.

Lemma changed_no_loop_free fuel t mw :
  aspect_ratio_combo mw = tr "free" (locale mw) ->
  on_aspect_ratio_changed_at tr (S (S fuel)) t mw <> Err SignalLoop.
Proof.
  intros Hc. rewrite on_aspect_ratio_changed_at_S. cbn zeta.
  destruct (String.eqb t (tr "custom" (locale mw))) eqn:Ecu; cbn [negb];
    (apply bind_no_loop;
     [first [discriminate | now apply setChecked_no_loop_free]|]);
    intros mw1 H1;
    (assert (K : locale mw1 = locale mw /\ aspect_ratio_combo mw1 = aspect_ratio_combo mw)
       by first [ apply setChecked_on_controls in H1; fields; exact H1
                | injection H1 as <-; split; reflexivity ]);
    destruct K as [K1 K2];
    (apply bind_no_loop; [|discriminate]);
    destruct (String.eqb t (tr "free" (locale mw)));
    first [discriminate | apply setChecked_no_loop_free; fields; congruence].
Qed.

Lemma toggled_no_loop fuel b mw :
  on_lock_aspect_toggled_at tr (S (S (S fuel))) b mw <> Err SignalLoop.
Proof.
  destruct b; [apply toggled_on_no_loop|].
  rewrite on_lock_aspect_toggled_at_S. cbn [negb].
  apply bind_no_loop.
  - unfold setCurrentText_at. destruct (String.eqb _ _); [discriminate|].
    apply changed_no_loop_free. reflexivity.
  - intros mw1 _. cbn zeta.
    destruct (rect_truthy _); [apply update_crop_rect_no_loop|discriminate].
Qed.

Lemma changed_no_loop fuel t mw :
  on_aspect_ratio_changed_at tr (S (S (S (S fuel)))) t mw <> Err SignalLoop.
Proof.
  assert (Hc : forall b m, setChecked_at tr (S (S (S fuel))) b m <> Err SignalLoop).
  { intros b m. unfold setChecked_at. destruct (Bool.eqb _ _); [discriminate|].
    apply toggled_no_loop. }
  rewrite on_aspect_ratio_changed_at_S. cbn zeta.
  destruct (String.eqb t (tr "custom" (locale mw))),
    (String.eqb t (tr "free" (locale mw))); cbn [negb];
    (apply bind_no_loop;
     [first [apply Hc | discriminate]
     |intros mw1 _; apply bind_no_loop; [first [apply Hc | discriminate]|discriminate]]).
Qed.

(** The signals settle.  The two slots call each other through the controls
    they set, and the nesting always ends: neither handler runs out of the
    fuel of the model, and any larger fuel gives the same result, so the
    results below are those of the unbounded Python calls. *)
Theorem signals_settle (ratio_text : string) (locked : bool) (mw : MainWindow) (k : nat) :
  on_aspect_ratio_changed tr ratio_text mw <> Err SignalLoop
  /\ on_lock_aspect_toggled tr locked mw <> Err SignalLoop
  /\ on_aspect_ratio_changed_at tr (6 + k) ratio_text mw
     = on_aspect_ratio_changed tr ratio_text mw
  /\ on_lock_aspect_toggled_at tr (6 + k) locked mw
     = on_lock_aspect_toggled tr locked mw.
Proof.
  unfold on_aspect_ratio_changed, on_lock_aspect_toggled.
  split; [apply changed_no_loop|]. split; [apply toggled_no_loop|].
  induction k as [|k [IHa IHt]]; [split; reflexivity|].
  replace (6 + S k)%nat with (S (6 + k)) by lia.
  destruct (more_fuel (6 + k)) as [Ma Mt].
  split.
  - rewrite Ma; [exact IHa|]. rewrite IHa. apply changed_no_loop.
  - rewrite Mt; [exact IHt|]. rewrite IHt. apply toggled_no_loop.
Qed.

End Controls.

Lemma update_crop_rect_gesture mw mw' :
  update_crop_rect mw = Ok mw' -> same_gesture (preview_widget mw) (preview_widget mw').
Proof.
  intros H.
  destruct (update_crop_rect_cases _ _ H)
    as [->|(sp & ep & frame & crop & v2 & _ & _ & _ & _ & _ & S2 & ->)];
    [unfold same_gesture; repeat split|].
  fields. rewrite S2. unfold same_gesture, redraw_widget_rect.
  repeat match goal with |- context [match ?c with _ => _ end] => destruct c end;
    fields; repeat split.
Qed.

Lemma update_crop_rect_some mw mw' :
  update_crop_rect mw = Ok mw' ->
  crop_rect (preview_widget mw) <> None -> crop_rect (preview_widget mw') <> None.
Proof.
  intros H Hc.
  destruct (update_crop_rect_cases _ _ H)
    as [->|(sp & ep & frame & crop & v2 & _ & _ & _ & _ & _ & S2 & ->)]; [exact Hc|].
  fields. rewrite S2. fields.
  destruct (redraw_widget_rect_keeps (with_crop_rect (Some crop) (preview_widget mw)))
    as (_ & _ & _ & _ & _ & -> & _).
  fields. discriminate.
Qed.

Lemma ratio_map_positive t a b :
  dict_get ratio_map t = Some (a, b) -> 0 < a /\ 0 < b.
Proof.
  unfold ratio_map. cbn [dict_get].
  repeat match goal with |- context [if ?c then _ else _] => destruct c end;
    intros H; try discriminate; injection H as <- <-; lia.
Qed.

(** A ratio of positive sides, or none. *)
Lemma ratio_well_formed_with r w :
  match r with Some (a, b) => 0 < a /\ 0 < b | None => True end ->
  ratio_well_formed (with_aspect_ratio r w).
Proof. unfold ratio_well_formed. fields. tauto. Qed.

Lemma same_controls_trans a b c :
  same_controls a b -> same_controls b c -> same_controls a c.
Proof.
  unfold same_controls.
  intros (A1 & A2 & A3 & A4 & A5 & A6 & A7 & A8) (B1 & B2 & B3 & B4 & B5 & B6 & B7 & B8).
  repeat split; congruence.
Qed.

Section Items.

Variable tr : string -> string -> string.

Lemma toggled_on_ok fuel mw :
  match crop_aspect_ratio mw with Some (a, b) => 0 < a /\ 0 < b | None => True end ->
  exists mw',
    on_lock_aspect_toggled_at tr (S fuel) true mw = Ok mw'
    /\ same_controls mw mw'
    /\ (crop_rect (preview_widget mw) <> None -> crop_rect (preview_widget mw') <> None).
Proof.
  intros Hr. rewrite on_lock_aspect_toggled_at_S. cbn [negb bind]. cbn zeta.
  set (mw2 := with_preview_widget _ mw).
  assert (Hc2 : crop_rect (preview_widget mw2) = crop_rect (preview_widget mw))
    by (destruct mw as [w ? ? ? ? ? ? ? ? ?]; destruct w; reflexivity).
  assert (S2 : same_controls mw mw2) by (unfold same_controls; repeat split).
  destruct (rect_truthy _).
  - destruct (update_crop_rect_ok mw2) as (mw' & H).
    { unfold mw2. fields. now apply ratio_well_formed_with. }
    exists mw'. split; [exact H|]. split.
    + apply same_controls_trans with mw2; [exact S2|].
      now apply update_crop_rect_controls.
    + rewrite <- Hc2. now apply update_crop_rect_some.
  - exists mw2. split; [reflexivity|]. split; [exact S2|]. now rewrite Hc2.
Qed.

Lemma setChecked_on_ok fuel mw :
  match crop_aspect_ratio mw with Some (a, b) => 0 < a /\ 0 < b | None => True end ->
  exists mw',
    setChecked_at tr (S fuel) true mw = Ok mw'
    /\ same_controls (with_lock_aspect_checkbox true mw) mw'
    /\ (lock_aspect_checkbox mw = true -> mw' = mw)
    /\ (crop_rect (preview_widget mw) <> None -> crop_rect (preview_widget mw') <> None).
Proof.
  intros Hr. unfold setChecked_at.
  destruct (lock_aspect_checkbox mw) eqn:E; cbn [Bool.eqb].
  - exists mw. split; [reflexivity|]. split; [|tauto].
    unfold same_controls. fields. rewrite E. repeat split.
  - destruct (toggled_on_ok fuel (with_lock_aspect_checkbox true mw) Hr) as (mw' & H & K & C).
    exists mw'. split; [exact H|]. split; [exact K|]. split; [discriminate|exact C].
Qed.

Lemma setChecked_off_ok fuel mw :
  crop_aspect_ratio mw = None -> aspect_ratio_combo mw = tr "free" (locale mw) ->
  exists mw',
    setChecked_at tr (S fuel) false mw = Ok mw'
    /\ same_controls (with_lock_aspect_checkbox false mw) mw'
    /\ (crop_rect (preview_widget mw) <> None -> crop_rect (preview_widget mw') <> None).
Proof.
  intros Hn Hc. unfold setChecked_at.
  destruct (lock_aspect_checkbox mw) eqn:E; cbn [Bool.eqb].
  - rewrite on_lock_aspect_toggled_at_S. cbn [negb].
    unfold setCurrentText_at. fields. rewrite Hc, String.eqb_refl. cbn [bind]. cbn zeta.
    set (mw2 := with_preview_widget _ _).
    assert (Hc2 : crop_rect (preview_widget mw2) = crop_rect (preview_widget mw))
      by (destruct mw as [w ? ? ? ? ? ? ? ? ?]; destruct w; reflexivity).
    assert (S2 : same_controls (with_lock_aspect_checkbox false mw) mw2).
    { unfold same_controls, mw2. fields. rewrite Hn. repeat split. }
    destruct (rect_truthy _).
    + destruct (update_crop_rect_ok mw2) as (mw' & H).
      { unfold mw2. fields. now apply ratio_well_formed_with. }
      exists mw'. split; [exact H|]. split.
      * apply same_controls_trans with mw2; [exact S2|].
        now apply update_crop_rect_controls.
      * rewrite <- Hc2. now apply update_crop_rect_some.
    + exists mw2. split; [reflexivity|]. split; [exact S2|]. now rewrite Hc2.
  - exists mw. split; [reflexivity|]. split; [|tauto].
    unfold same_controls. fields. rewrite E. repeat split.
Qed.

(** Choosing an item of the ratio box other than the custom one.  The handler
    returns normally; the ratio of the window and of the widget becomes the
    item's (none for the free item), the widget locks exactly when there is a
    ratio, the lock box is checked for every item but the free one; and when
    the ratio differs from the one before, the rectangle, its replicas and the
    stored frame points are discarded on both objects. *)
Theorem select_ratio_item (ratio_text : string) (mw : MainWindow) :
  aspect_ratio_combo mw = ratio_text ->
  ratio_text <> tr "custom" (locale mw) ->
  exists mw',
    on_aspect_ratio_changed tr ratio_text mw = Ok mw'
    /\ crop_aspect_ratio mw' = item_ratio tr mw ratio_text
    /\ aspect_ratio (preview_widget mw') = item_ratio tr mw ratio_text
    /\ lock_aspect_ratio (preview_widget mw')
       = (match item_ratio tr mw ratio_text with Some _ => true | None => false end)
    /\ lock_aspect_checkbox mw' = negb (String.eqb ratio_text (tr "free" (locale mw)))
    /\ (ratio_eqb (crop_aspect_ratio mw) (item_ratio tr mw ratio_text) = false ->
        cleared mw').
Proof.
  intros Hcombo Hcu. unfold on_aspect_ratio_changed.
  rewrite on_aspect_ratio_changed_at_S. cbn zeta.
  apply String.eqb_neq in Hcu. rewrite Hcu. cbn [bind negb]. fields.
  unfold item_ratio.
  set (mw1 := with_custom_ratio_widget false mw).
  assert (Hstep : exists mw3,
            (if String.eqb ratio_text (tr "free" (locale mw))
             then setChecked_at tr 5 false (with_crop_aspect_ratio None mw1)
             else setChecked_at tr 5 true
                    (with_crop_aspect_ratio (dict_get ratio_map ratio_text) mw1)) = Ok mw3
            /\ crop_aspect_ratio mw3
               = (if String.eqb ratio_text (tr "free" (locale mw)) then None
                  else dict_get ratio_map ratio_text)
            /\ lock_aspect_checkbox mw3
               = negb (String.eqb ratio_text (tr "free" (locale mw)))).
  { destruct (String.eqb ratio_text (tr "free" (locale mw))) eqn:Ef.
    - apply String.eqb_eq in Ef.
      destruct (setChecked_off_ok 4 (with_crop_aspect_ratio None mw1)) as (mw3 & H & K & _).
      + reflexivity.
      + unfold mw1. fields. congruence.
      + exists mw3. split; [exact H|]. unfold same_controls in K. fields. tauto.
    - destruct (setChecked_on_ok 4 (with_crop_aspect_ratio (dict_get ratio_map ratio_text) mw1))
        as (mw3 & H & K & _).
      + fields. destruct (dict_get ratio_map ratio_text) as [[a b]|] eqn:Ed; [|exact I].
        now apply ratio_map_positive with ratio_text.
      + exists mw3. split; [exact H|]. unfold same_controls in K. fields. tauto. }
  destruct Hstep as (mw3 & -> & Hr3 & Hb3). cbn [bind].
  eexists. split; [reflexivity|]. fields.
  destruct (negb (ratio_eqb (crop_aspect_ratio mw) (crop_aspect_ratio mw3))) eqn:Ech.
  - unfold MainWindow_clear_crop, clear_crop. fields.
    rewrite Hr3, Hb3. repeat split.
  - rewrite Hr3, Hb3. split; [reflexivity|]. split; [reflexivity|].
    split; [reflexivity|]. split; [reflexivity|].
    intros Hne. rewrite Hr3 in Ech. rewrite Hne in Ech. discriminate.
Qed.

Lemma ratio_eqb_refl r : ratio_eqb r r = true.
Proof. destruct r as [[a b]|]; [|reflexivity]. cbn. now rewrite !Z.eqb_refl. Qed.

(** Choosing the custom item never discards the rectangle.  The ratio becomes
    that of the two spin boxes and the widget locks on it, but the handler
    compares the ratio with itself, so nothing is cleared: a rectangle that
    was there is still there, and when the lock box was already checked it is
    the same rectangle, whatever its shape. *)
Theorem select_custom_item (mw : MainWindow) :
  tr "custom" (locale mw) <> tr "free" (locale mw) ->
  0 < custom_width_spin mw -> 0 < custom_height_spin mw ->
  exists mw',
    on_aspect_ratio_changed tr (tr "custom" (locale mw)) mw = Ok mw'
    /\ crop_aspect_ratio mw' = Some (custom_width_spin mw, custom_height_spin mw)
    /\ aspect_ratio (preview_widget mw') = crop_aspect_ratio mw'
    /\ lock_aspect_ratio (preview_widget mw') = true
    /\ lock_aspect_checkbox mw' = true
    /\ (crop_rect (preview_widget mw) <> None -> crop_rect (preview_widget mw') <> None)
    /\ (lock_aspect_checkbox mw = true ->
        crop_rect (preview_widget mw') = crop_rect (preview_widget mw)
        /\ main_crop_rect mw' = main_crop_rect mw).
Proof.
  intros Hne Hw Hh. unfold on_aspect_ratio_changed.
  rewrite on_aspect_ratio_changed_at_S. cbn zeta.
  rewrite String.eqb_refl. apply String.eqb_neq in Hne. rewrite Hne. cbn [negb]. fields.
  destruct (setChecked_on_ok 4
              (with_crop_aspect_ratio (Some (custom_width_spin mw, custom_height_spin mw))
                 (with_custom_ratio_widget true mw)))
    as (mw1 & -> & K & Hsame & Hsome); [fields; lia|].
  cbn [bind]. rewrite ratio_eqb_refl. cbn [negb].
  eexists. split; [reflexivity|].
  unfold same_controls in K. fields.
  destruct K as (_ & _ & K3 & K4 & _).
  rewrite K3, K4.
  split; [reflexivity|]. split; [reflexivity|]. split; [reflexivity|].
  split; [reflexivity|]. split; [exact Hsome|].
  intros Hb. rewrite (Hsame Hb). fields. split; reflexivity.
Qed.

(** Unchecking the lock box keeps the rectangle.  The ratio is dropped on the
    window and on the widget and the ratio box goes back to the free item,
    yet nothing is cleared: a rectangle that was there is still there,
    redrawn from the stored drag points without the ratio when there are
    any. *)
Theorem unlock_keeps_crop (mw : MainWindow) :
  lock_aspect_checkbox mw = true ->
  tr "custom" (locale mw) <> tr "free" (locale mw) ->
  exists mw',
    handle tr ClickLock mw = Ok mw'
    /\ lock_aspect_checkbox mw' = false
    /\ crop_aspect_ratio mw' = None
    /\ aspect_ratio (preview_widget mw') = None
    /\ lock_aspect_ratio (preview_widget mw') = false
    /\ aspect_ratio_combo mw' = tr "free" (locale mw)
    /\ (crop_rect (preview_widget mw) <> None -> crop_rect (preview_widget mw') <> None).
Proof.
  intros Hb Hne. cbn [handle]. rewrite Hb. cbn [negb].
  unfold on_lock_aspect_toggled. rewrite on_lock_aspect_toggled_at_S. cbn [negb]. fields.
  set (mw0 := with_crop_aspect_ratio None (with_lock_aspect_checkbox false mw)).
  assert (Hst : exists mw1,
            setCurrentText_at tr 5 (tr "free" (locale mw)) mw0 = Ok mw1
            /\ lock_aspect_checkbox mw1 = false /\ crop_aspect_ratio mw1 = None
            /\ aspect_ratio_combo mw1 = tr "free" (locale mw)
            /\ crop_rect (preview_widget mw1) = crop_rect (preview_widget mw)).
  { unfold setCurrentText_at.
    destruct (String.eqb (aspect_ratio_combo mw0) (tr "free" (locale mw))) eqn:Ec.
    - apply String.eqb_eq in Ec. exists mw0. repeat split; exact Ec.
    - rewrite on_aspect_ratio_changed_at_S. cbn zeta. unfold mw0. fields.
      assert (Hfc : String.eqb (tr "free" (locale mw)) (tr "custom" (locale mw)) = false)
        by (apply String.eqb_neq; congruence).
      rewrite Hfc, String.eqb_refl. cbn [bind]. fields.
      unfold setChecked_at. fields. cbn [Bool.eqb bind]. fields. cbn [ratio_eqb negb].
      eexists. split; [reflexivity|]. fields. repeat split. }
  destruct Hst as (mw1 & -> & H1 & H2 & H3 & H4). cbn [bind]. cbn zeta.
  set (mw2 := with_preview_widget _ mw1).
  assert (Hc2 : crop_rect (preview_widget mw2) = crop_rect (preview_widget mw))
    by (rewrite <- H4; destruct mw1 as [w ? ? ? ? ? ? ? ? ?]; destruct w; reflexivity).
  destruct (rect_truthy _).
  - destruct (update_crop_rect_ok mw2) as (mw' & H).
    { unfold mw2. fields. now apply ratio_well_formed_with. }
    exists mw'. split; [exact H|].
    pose proof (update_crop_rect_controls _ _ H) as K.
    pose proof (update_crop_rect_gesture _ _ H) as G.
    unfold same_controls in K. unfold same_gesture in G.
    destruct K as (_ & K2 & K3 & K4 & _).
    destruct G as (_ & _ & _ & _ & _ & _ & _ & _ & _ & _ & G1 & G2 & _).
    rewrite K2, K3, K4, G1, G2. unfold mw2. fields.
    repeat split; try assumption.
    rewrite <- Hc2. now apply update_crop_rect_some.
  - exists mw2. split; [reflexivity|]. clear Hc2. unfold mw2. fields.
    repeat split; try assumption. now rewrite H4.
Qed.

End Items.

Lemma select_ratio_item_witness :
  let mw := with_aspect_ratio_combo "16:9" (state_after (firstn 4 adjusted_session)) in
  aspect_ratio_combo mw = "16:9"%string
  /\ "16:9"%string <> tr_en "custom" (locale mw)
  /\ main_crop_rect mw = Some (QRect_xywh 100 100 200 100)
  /\ exists mw', on_aspect_ratio_changed tr_en "16:9" mw = Ok mw'
       /\ crop_aspect_ratio mw' = Some (16, 9)
       /\ cleared mw'.
Proof.
  intros mw.
  split; [reflexivity|]. split; [vm_compute; discriminate|].
  split; [vm_compute; reflexivity|].
  destruct (select_ratio_item tr_en "16:9" mw) as (mw' & H & H1 & _ & _ & _ & Hc);
    [reflexivity|vm_compute; discriminate|].
  exists mw'. split; [exact H|]. split; [exact H1|].
  apply Hc. vm_compute. reflexivity.
Defined.

Lemma select_custom_item_witness :
  let mw := state_after [LoadFrame (mkFrame 360 640); SelectRatio "16:9";
                         Press LeftButton (mkQPoint 100 100); Move (mkQPoint 300 200);
                         Release LeftButton; SetCustomWidth 4; SetCustomHeight 3] in
  tr_en "custom" (locale mw) <> tr_en "free" (locale mw)
  /\ lock_aspect_checkbox mw = true
  /\ exists mw', on_aspect_ratio_changed tr_en (tr_en "custom" (locale mw)) mw = Ok mw'
       /\ crop_aspect_ratio mw' = Some (4, 3)
       /\ crop_rect (preview_widget mw') = crop_rect (preview_widget mw)
       /\ main_crop_rect mw' = main_crop_rect mw.
Proof.
  intros mw.
  split; [vm_compute; discriminate|]. split; [vm_compute; reflexivity|].
  destruct (select_custom_item tr_en mw) as (mw' & H & H1 & _ & _ & _ & _ & Hk);
    [vm_compute; discriminate|vm_compute; reflexivity|vm_compute; reflexivity|].
  exists mw'. split; [exact H|]. split; [exact H1|].
  apply Hk. vm_compute. reflexivity.
Defined.

Lemma unlock_keeps_crop_witness :
  let mw := state_after (firstn 5 corner_resize_session) in
  lock_aspect_checkbox mw = true
  /\ tr_en "custom" (locale mw) <> tr_en "free" (locale mw)
  /\ crop_rect (preview_widget mw) <> None
  /\ exists mw', handle tr_en ClickLock mw = Ok mw'
       /\ crop_aspect_ratio mw' = None
       /\ crop_rect (preview_widget mw') <> None.
Proof.
  intros mw.
  split; [vm_compute; reflexivity|]. split; [vm_compute; discriminate|].
  split; [vm_compute; discriminate|].
  destruct (unlock_keeps_crop tr_en mw) as (mw' & H & _ & H1 & _ & _ & _ & Hk);
    [vm_compute; reflexivity|vm_compute; discriminate|].
  exists mw'. split; [exact H|]. split; [exact H1|].
  apply Hk. vm_compute. discriminate.
Defined.

(** ** The window mirrors the widget *)

Lemma keeps_refl mw : keeps mw mw.
Proof. unfold keeps, same_controls. repeat split; tauto. Qed.

Lemma keeps_trans a b c : keeps a b -> keeps b c -> keeps a c.
Proof.
  unfold keeps. intros (A1 & A2 & A3 & A4) (B1 & B2 & B3 & B4).
  split; [now apply same_controls_trans with b|].
  split; [congruence|]. split; [congruence|]. tauto.
Qed.

Lemma keeps_mirrored mw mw' : keeps mw mw' -> mirrored mw -> mirrored mw'.
Proof.
  unfold keeps, mirrored, same_controls.
  intros ((_ & _ & _ & C4 & _ & _ & _ & C8) & K1 & K2 & K3) (M1 & M2 & M3).
  split; [tauto|]. split; congruence.
Qed.

Lemma update_crop_rect_keeps_window mw mw' :
  update_crop_rect mw = Ok mw' -> keeps mw mw'.
Proof.
  intros H. unfold keeps.
  split; [now apply update_crop_rect_controls|].
  pose proof (update_crop_rect_gesture _ _ H) as G. unfold same_gesture in G.
  split; [tauto|]. split; [tauto|].
  destruct (update_crop_rect_cases _ _ H)
    as [->|(sp & ep & frame & crop & v2 & _ & _ & _ & _ & _ & S2 & ->)]; [tauto|].
  intros _. fields. rewrite S2. fields.
  destruct (redraw_widget_rect_keeps (with_crop_rect (Some crop) (preview_widget mw)))
    as (_ & _ & _ & _ & _ & -> & _).
  reflexivity.
Qed.

Lemma update_shadow_crops_fields n w w' :
  update_shadow_crops n w = Ok w' ->
  crop_rect w' = crop_rect w /\ shadow_count w' = shadow_count w
  /\ aspect_ratio w' = aspect_ratio w.
Proof.
  intros H. rewrite (update_shadow_crops_shape _ _ _ H). fields. repeat split.
Qed.

Lemma adjust_crop_rect_keeps_window pos mw mw' :
  adjust_crop_rect pos mw = Ok mw' -> keeps mw mw'.
Proof.
  unfold adjust_crop_rect.
  destruct (original_crop_rect_widget (preview_widget mw)) as [orig|];
    [|intros H; injection H as <-; apply keeps_refl].
  destruct (current_frame (preview_widget mw)) as [frame|] eqn:Hf;
    [|intros H; injection H as <-; apply keeps_refl].
  destruct (negb (Rect.isValid orig)); [intros H; injection H as <-; apply keeps_refl|].
  destruct (start_point_widget (preview_widget mw)) as [spw|]; [|discriminate].
  destruct (adjust_mode (preview_widget mw)) as [mode|] eqn:Hm.
  2:{ destruct (lock_aspect_ratio (preview_widget mw));
      [destruct (aspect_ratio (preview_widget mw)) as [[? [|?|?]]|]|];
      try discriminate; intros H; injection H as <-; apply keeps_refl. }
  match goal with |- bind ?c _ = _ -> _ => destruct c as [[dx dy]|]; [|discriminate] end.
  cbn [bind].
  match goal with |- context [with_crop_rect_widget (Some ?e) _] => set (r := e) end.
  assert (Kw : keeps mw (with_preview_widget
                           (with_crop_rect_widget (Some r) (preview_widget mw)) mw))
    by (unfold keeps, same_controls; fields; repeat split; tauto).
  destruct (widget_to_frame_coords _ (Rect.topLeft r)) as [tlo|]; [|discriminate].
  cbn [bind].
  destruct (widget_to_frame_coords _ (Rect.bottomRight r)) as [bro|]; [|discriminate].
  cbn [bind].
  destruct tlo as [tl|]; [|intros H; injection H as <-; exact Kw].
  destruct bro as [br|]; [|intros H; injection H as <-; exact Kw].
  destruct (point_truthy (Some tl) && point_truthy (Some br));
    [|intros H; injection H as <-; exact Kw].
  destruct (adjusted_frame_rect _ mode tl br _ _)
    as [[[[x1 y1] x2] y2]|] eqn:Ha; [|discriminate].
  cbn [bind]. unfold on_crop_changed. fields.
  match goal with |- bind (update_shadow_crops ?n ?v) _ = _ -> _ =>
    destruct (update_shadow_crops n v) as [v'|] eqn:Hv; [|discriminate] end.
  cbn [bind]. intros H; injection H as <-.
  destruct (update_shadow_crops_fields _ _ _ Hv) as (F1 & F2 & F3).
  unfold keeps, same_controls. fields. rewrite F1, F2, F3.
  match goal with |- context [if ?c then _ else _] => destruct c end;
    fields; repeat split.
Qed.

Lemma keeps_widget w' mw :
  shadow_count w' = shadow_count (preview_widget mw) ->
  aspect_ratio w' = aspect_ratio (preview_widget mw) ->
  crop_rect w' = crop_rect (preview_widget mw) ->
  keeps mw (with_preview_widget w' mw).
Proof.
  intros H1 H2 H3. unfold keeps, same_controls. fields.
  repeat split; try assumption. congruence.
Qed.

Lemma mousePressEvent_keeps button pos mw mw' :
  mousePressEvent button pos mw = Ok mw' -> keeps mw mw'.
Proof.
  unfold mousePressEvent.
  destruct (current_frame (preview_widget mw)); [|intros H; injection H as <-; apply keeps_refl].
  destruct button; [|intros H; injection H as <-; apply keeps_refl].
  match goal with |- context [match ?c with Some _ => _ | None => _ end] =>
    destruct c as [h|] end.
  - intros H; injection H as <-.
    apply keeps_widget; destruct (preview_widget mw); reflexivity.
  - destruct (widget_to_frame_coords _ pos) as [fp|]; [|discriminate]. cbn [bind].
    destruct (point_truthy fp).
    + intros H. eapply keeps_trans; [|exact (update_crop_rect_keeps_window _ _ H)].
      apply keeps_widget; destruct (preview_widget mw); reflexivity.
    + intros H; injection H as <-.
      apply keeps_widget; destruct (preview_widget mw); reflexivity.
Qed.

Lemma mouseMoveEvent_keeps pos mw mw' :
  mouseMoveEvent pos mw = Ok mw' -> keeps mw mw'.
Proof.
  unfold mouseMoveEvent.
  destruct (current_frame (preview_widget mw)); [|intros H; injection H as <-; apply keeps_refl].
  destruct (adjusting _ && _); [apply adjust_crop_rect_keeps_window|].
  destruct (drawing _); [|intros H; injection H as <-; apply keeps_refl].
  destruct (ratio_constrained_pos _ _) as [p|]; [|discriminate]. cbn [bind].
  destruct (widget_to_frame_coords _ p) as [fp|]; [|discriminate]. cbn [bind].
  destruct (point_truthy fp); [|intros H; injection H as <-; apply keeps_refl].
  intros H. eapply keeps_trans; [|exact (update_crop_rect_keeps_window _ _ H)].
  apply keeps_widget; destruct (preview_widget mw); reflexivity.
Qed.

Lemma mouseReleaseEvent_keeps button mw mw' :
  mouseReleaseEvent button mw = Ok mw' -> keeps mw mw'.
Proof.
  unfold mouseReleaseEvent.
  destruct button; [|intros H; injection H as <-; apply keeps_refl].
  destruct (adjusting _).
  - intros H; injection H as <-.
    apply keeps_widget; destruct (preview_widget mw); reflexivity.
  - destruct (_ && _).
    + intros H. eapply keeps_trans; [|exact (update_crop_rect_keeps_window _ _ H)].
      apply keeps_widget; destruct (preview_widget mw); reflexivity.
    + intros H; injection H as <-.
      apply keeps_widget; destruct (preview_widget mw); reflexivity.
Qed.

Lemma update_base_pixmap_fields w w' :
  update_base_pixmap w = Ok w' ->
  crop_rect w' = crop_rect w /\ shadow_count w' = shadow_count w
  /\ aspect_ratio w' = aspect_ratio w /\ current_frame w' = current_frame w.
Proof.
  unfold update_base_pixmap.
  destruct (current_frame w) eqn:E; [|intros H; injection H as <-; now rewrite E].
  destruct (_ || _); [discriminate|]. intros H; injection H as <-.
  destruct w; cbn in E; subst; repeat split.
Qed.

Lemma resizeEvent_fields new_size w w' :
  resizeEvent new_size w = Ok w' ->
  crop_rect w' = crop_rect w /\ shadow_count w' = shadow_count w
  /\ aspect_ratio w' = aspect_ratio w.
Proof.
  unfold resizeEvent.
  assert (Hs : crop_rect (with_size new_size w) = crop_rect w
               /\ shadow_count (with_size new_size w) = shadow_count w
               /\ aspect_ratio (with_size new_size w) = aspect_ratio w)
    by (destruct w; repeat split).
  destruct Hs as (S1 & S2 & S3).
  destruct (current_frame _); [|intros H; injection H as <-; repeat split; assumption].
  destruct (update_base_pixmap _) as [u|] eqn:Eu; [|discriminate]. cbn [bind].
  destruct (update_base_pixmap_fields _ _ Eu) as (U1 & U2 & U3 & _).
  assert (Hw : forall v, crop_rect (with_crop_rect_widget v u) = crop_rect u
               /\ shadow_count (with_crop_rect_widget v u) = shadow_count u
               /\ aspect_ratio (with_crop_rect_widget v u) = aspect_ratio u)
    by (intros v; destruct u; repeat split).
  destruct (crop_rect u) as [crop|] eqn:Ec;
    [destruct (Rect.isValid crop)|];
    try (intros H; injection H as <-; repeat split; congruence).
  intros H. destruct (update_shadow_crops_fields _ _ _ H) as (F1 & F2 & F3).
  match type of F1 with _ = crop_rect (with_crop_rect_widget ?v u) =>
    destruct (Hw v) as (W1 & W2 & W3) end.
  repeat split; congruence.
Qed.

Lemma keeps_rect_mirrored mw mw' : keeps mw mw' -> rect_mirrored mw -> rect_mirrored mw'.
Proof.
  unfold keeps, rect_mirrored, same_controls.
  intros ((_ & _ & _ & _ & _ & _ & _ & C8) & K1 & K2 & K3) (M1 & M2).
  split; [tauto|congruence].
Qed.

Lemma clear_crop_rect_mirrored mw : rect_mirrored mw -> rect_mirrored (MainWindow_clear_crop mw).
Proof.
  unfold rect_mirrored, MainWindow_clear_crop, clear_crop. fields_lazy.
  intros [_ H]. split; [reflexivity|exact H].
Qed.

Section Mirror.

Variable tr : string -> string -> string.

Lemma slots_mirror fuel :
  (forall t mw mw', on_aspect_ratio_changed_at tr fuel t mw = Ok mw' ->
     locale mw' = locale mw
     /\ (rect_mirrored mw -> mirrored mw')
     /\ (t = tr "free" (locale mw) -> crop_aspect_ratio mw' = None))
  /\ (forall b mw mw', on_lock_aspect_toggled_at tr fuel b mw = Ok mw' ->
        locale mw' = locale mw
        /\ (rect_mirrored mw -> rect_mirrored mw')
        /\ aspect_ratio (preview_widget mw') = (if b then crop_aspect_ratio mw else None)
        /\ crop_aspect_ratio mw' = (if b then crop_aspect_ratio mw else None)).
Proof.
  induction fuel as [|fuel [IHa IHt]]; [split; intros; discriminate|].
  assert (Hc : forall b mw mw', setChecked_at tr fuel b mw = Ok mw' ->
             locale mw' = locale mw
             /\ (rect_mirrored mw -> rect_mirrored mw')
             /\ (crop_aspect_ratio mw' = crop_aspect_ratio mw
                 \/ (b = false /\ crop_aspect_ratio mw' = None))).
  { intros b mw mw'. unfold setChecked_at. destruct (Bool.eqb _ _).
    - intros H; injection H as <-. split; [reflexivity|]. split; [tauto|]. now left.
    - intros H. destruct (IHt _ _ _ H) as (L & P & _ & C). fields_lazy.
      split; [exact L|]. split; [exact P|].
      destruct b; [now left|now right]. }
  split.
  - intros t mw mw'. rewrite on_aspect_ratio_changed_at_S. cbn zeta.
    match goal with |- bind ?m _ = _ -> _ => destruct m as [mw1|] eqn:E1; [|discriminate] end.
    cbn [bind].
    match goal with |- bind ?m _ = _ -> _ => destruct m as [mw2|] eqn:E2; [|discriminate] end.
    cbn [bind]. intros H; injection H as <-.
    assert (K1 : locale mw1 = locale mw /\ (rect_mirrored mw -> rect_mirrored mw1)).
    { destruct (String.eqb t (tr "custom" (locale mw))).
      - destruct (Hc _ _ _ E1) as (L & P & _). fields_lazy. tauto.
      - injection E1 as <-. fields_lazy. tauto. }
    destruct K1 as [L1 P1].
    assert (K2 : locale mw2 = locale mw1 /\ (rect_mirrored mw1 -> rect_mirrored mw2)
                 /\ (t = tr "free" (locale mw) -> crop_aspect_ratio mw2 = None)).
    { destruct (String.eqb t (tr "free" (locale mw))) eqn:Ef.
      - destruct (Hc _ _ _ E2) as (L & P & C). fields_lazy.
        split; [exact L|]. split; [exact P|]. intros _. destruct C as [C|[_ C]]; exact C.
      - apply String.eqb_neq in Ef.
        destruct (negb _).
        + destruct (Hc _ _ _ E2) as (L & P & C). fields_lazy.
          split; [exact L|]. split; [exact P|]. intros; contradiction.
        + injection E2 as <-. split; [reflexivity|]. split; [tauto|]. intros; contradiction. }
    destruct K2 as (L2 & P2 & C2).
    destruct (negb (ratio_eqb (crop_aspect_ratio mw1) (crop_aspect_ratio mw2))).
    + unfold MainWindow_clear_crop, clear_crop, mirrored, rect_mirrored in *. fields_lazy.
      split; [congruence|]. split; [|exact C2].
      intros Hm. specialize (P2 (P1 Hm)). repeat split; first [reflexivity | tauto | congruence].
    + unfold mirrored, rect_mirrored in *. fields_lazy.
      split; [congruence|]. split; [|exact C2].
      intros Hm. specialize (P2 (P1 Hm)). repeat split; first [reflexivity | tauto | congruence].
  - intros b mw mw'. rewrite on_lock_aspect_toggled_at_S.
    match goal with |- bind ?m _ = _ -> _ => destruct m as [mw1|] eqn:E1; [|discriminate] end.
    cbn [bind]. cbn zeta.
    assert (K1 : locale mw1 = locale mw /\ (rect_mirrored mw -> rect_mirrored mw1)
                 /\ crop_aspect_ratio mw1 = (if b then crop_aspect_ratio mw else None)).
    { destruct b; cbn [negb] in E1.
      - injection E1 as <-. split; [reflexivity|]. split; [tauto|reflexivity].
      - revert E1. unfold setCurrentText_at. destruct (String.eqb _ _).
        + intros H; injection H as <-. fields_lazy.
          split; [reflexivity|]. split; [|reflexivity]. unfold rect_mirrored. fields_lazy. tauto.
        + intros H. destruct (IHa _ _ _ H) as (L & P & C). fields_lazy.
          split; [exact L|]. split.
          * intros Hm. unfold mirrored, rect_mirrored in *. specialize (P Hm). tauto.
          * apply C. reflexivity. }
    destruct K1 as (L1 & P1 & C1).
    set (mw2 := with_preview_widget _ mw1).
    assert (K2 : locale mw2 = locale mw1 /\ (rect_mirrored mw1 -> rect_mirrored mw2)
                 /\ aspect_ratio (preview_widget mw2)
                    = (if b then crop_aspect_ratio mw1 else None)
                 /\ crop_aspect_ratio mw2 = crop_aspect_ratio mw1).
    { unfold mw2, rect_mirrored. fields_lazy.
      split; [reflexivity|]. split; [tauto|]. split; reflexivity. }
    destruct K2 as (L2 & P2 & A2 & C2).
    assert (Hfin : forall m, keeps mw2 m ->
              locale m = locale mw
              /\ (rect_mirrored mw -> rect_mirrored m)
              /\ aspect_ratio (preview_widget m) = (if b then crop_aspect_ratio mw else None)
              /\ crop_aspect_ratio m = (if b then crop_aspect_ratio mw else None)).
    { intros m Hk. pose proof (keeps_rect_mirrored _ _ Hk) as Pk.
      unfold keeps, same_controls in Hk.
      destruct Hk as ((Hl & _ & _ & Hcar & _) & _ & Ha & _).
      split; [congruence|]. split; [tauto|].
      split; [rewrite Ha, A2; destruct b; congruence|].
      rewrite Hcar, C2. exact C1. }
    destruct (rect_truthy _).
    + intros H. apply Hfin. now apply update_crop_rect_keeps_window.
    + intros H; injection H as <-. apply Hfin, keeps_refl.
Qed.

Lemma on_custom_ratio_changed_mirrored mw :
  rect_mirrored mw -> aspect_ratio (preview_widget mw) = crop_aspect_ratio mw ->
  mirrored (on_custom_ratio_changed tr mw).
Proof.
  unfold on_custom_ratio_changed, mirrored, rect_mirrored. intros [M1 M2] M3.
  destruct (String.eqb _ _); [|repeat split; congruence].
  fields_lazy.
  destruct (negb _); unfold MainWindow_clear_crop, clear_crop; fields_lazy;
    repeat split; assumption.
Qed.

Lemma handle_mirrored e mw mw' :
  handle tr e mw = Ok mw' -> mirrored mw -> mirrored mw'.
Proof.
  assert (Hr : forall m, mirrored m -> rect_mirrored m)
    by (unfold mirrored, rect_mirrored; tauto).
  destruct e; cbn [handle].
  - destruct (set_frame _ _) as [w|] eqn:E; [|discriminate]. cbn [bind].
    intros H; injection H as <-. apply keeps_mirrored.
    unfold set_frame in E. destruct (update_base_pixmap_fields _ _ E) as (F1 & F2 & F3 & _).
    apply keeps_widget; [rewrite F2|rewrite F3|rewrite F1];
      destruct (preview_widget mw); reflexivity.
  - destruct (resizeEvent _ _) as [w|] eqn:E; [|discriminate]. cbn [bind].
    intros H; injection H as <-. apply keeps_mirrored.
    destruct (resizeEvent_fields _ _ _ E) as (F1 & F2 & F3).
    now apply keeps_widget.
  - intros H. apply keeps_mirrored. now apply mousePressEvent_keeps with button pos.
  - intros H. apply keeps_mirrored. now apply mouseMoveEvent_keeps with pos.
  - intros H. apply keeps_mirrored. now apply mouseReleaseEvent_keeps with button.
  - destruct (String.eqb _ _); [intros H; now injection H as <-|].
    intros H Hm. destruct (proj1 (slots_mirror 6) _ _ _ H) as (_ & P & _).
    apply P. apply Hr in Hm. exact Hm.
  - intros H Hm. destruct (proj2 (slots_mirror 6) _ _ _ H) as (_ & P & A & C).
    unfold mirrored. specialize (P (Hr _ Hm)). unfold rect_mirrored in P.
    split; [tauto|]. split; [tauto|]. congruence.
  - destruct (_ =? _); [intros H; now injection H as <-|].
    intros H Hm; injection H as <-. unfold mirrored in Hm.
    apply on_custom_ratio_changed_mirrored; [apply (Hr _ Hm)|symmetry; tauto].
  - destruct (_ =? _); [intros H; now injection H as <-|].
    intros H Hm; injection H as <-. unfold mirrored in Hm.
    apply on_custom_ratio_changed_mirrored; [apply (Hr _ Hm)|symmetry; tauto].
  - destruct (_ =? _); [intros H; now injection H as <-|].
    unfold on_shadow_count_changed, set_shadow_count. fields.
    destruct (rect_truthy _).
    + destruct (update_shadow_crops _ _) as [w|] eqn:E; [|discriminate].
      intros H; injection H as <-. unfold mirrored. fields.
      destruct (update_shadow_crops_fields _ _ _ E) as (F1 & F2 & F3).
      rewrite F1, F2, F3. fields. tauto.
    + intros H; injection H as <-. unfold mirrored. fields. tauto.
  - intros H; injection H as <-. unfold mirrored, MainWindow_clear_crop, clear_crop.
    fields. tauto.
Qed.

(** The window mirrors the widget.  In every state a session of events can
    reach from a fresh window, [MainWindow.crop_rect], [shadow_count] and
    [crop_aspect_ratio] equal the widget's [crop_rect], [shadow_count] and
    [aspect_ratio]: the rectangle that is exported first is the one the
    widget holds, and the replicas exported with it were made for it. *)
Theorem window_mirrors_widget (events : list Event) (mw : MainWindow) :
  run tr events (MainWindow_init tr) = Ok mw -> mirrored mw.
Proof.
  assert (G : forall l m m', run tr l m = Ok m' -> mirrored m -> mirrored m').
  { induction l as [|e l IH]; intros m m'; cbn [run].
    - intros H; now injection H as <-.
    - destruct (handle tr e m) as [m1|] eqn:E; [|discriminate]. cbn [bind].
      intros H Hm. apply (IH _ _ H). now apply handle_mirrored with e m. }
  intros H. apply (G _ _ _ H). unfold mirrored. repeat split.
Qed.

End Mirror.

Lemma window_mirrors_widget_witness :
  run tr_en corner_resize_session (MainWindow_init tr_en)
  = Ok (state_after corner_resize_session)
  /\ mirrored (state_after corner_resize_session).
Proof.
  split; [vm_compute; reflexivity|].
  apply (window_mirrors_widget tr_en corner_resize_session). vm_compute. reflexivity.
Defined.

(** ** What creates a rectangle, and what a cleared gesture does *)

Lemma update_base_pixmap_shape w w' :
  update_base_pixmap w = Ok w' ->
  w' = with_widget_offset_y (widget_offset_y w')
         (with_widget_offset_x (widget_offset_x w')
            (with_frame_to_widget_scale_y (frame_to_widget_scale_y w')
               (with_frame_to_widget_scale_x (frame_to_widget_scale_x w')
                  (with_base_pixmap (base_pixmap w') w)))).
Proof.
  unfold update_base_pixmap.
  destruct (current_frame w) as [frame|].
  - destruct (_ || _); [discriminate|]. intros H; injection H as <-.
    destruct w; reflexivity.
  - intros H; injection H as <-. destruct w; reflexivity.
Qed.

Lemma update_base_pixmap_gesture w w' :
  update_base_pixmap w = Ok w' ->
  crop_rect w' = crop_rect w /\ start_point w' = start_point w
  /\ adjusting w' = adjusting w.
Proof.
  intros H. rewrite (update_base_pixmap_shape _ _ H).
  destruct w; repeat split.
Qed.

Lemma no_selection_widget w' mw :
  crop_rect w' = crop_rect (preview_widget mw) ->
  start_point w' = start_point (preview_widget mw) ->
  adjusting w' = adjusting (preview_widget mw) ->
  no_selection mw -> no_selection (with_preview_widget w' mw).
Proof.
  unfold no_selection. fields. intros -> -> ->. tauto.
Qed.

Lemma resizeEvent_no_crop new_size w w' :
  crop_rect w = None -> resizeEvent new_size w = Ok w' ->
  crop_rect w' = None /\ start_point w' = start_point w /\ adjusting w' = adjusting w.
Proof.
  intros Hc. unfold resizeEvent.
  assert (Hs : crop_rect (with_size new_size w) = crop_rect w
               /\ start_point (with_size new_size w) = start_point w
               /\ adjusting (with_size new_size w) = adjusting w)
    by (destruct w; repeat split).
  destruct Hs as (S1 & S2 & S3).
  destruct (current_frame _); [|intros H; injection H as <-; repeat split; congruence].
  destruct (update_base_pixmap _) as [u|] eqn:Eu; [|discriminate]. cbn [bind].
  destruct (update_base_pixmap_gesture _ _ Eu) as (U1 & U2 & U3).
  replace (crop_rect u) with (@None QRect) by congruence.
  intros H; injection H as <-. repeat split; congruence.
Qed.

Section Creation.

Variable tr : string -> string -> string.

Lemma slots_no_selection fuel :
  (forall t mw mw', on_aspect_ratio_changed_at tr fuel t mw = Ok mw' ->
     no_selection mw -> no_selection mw')
  /\ (forall b mw mw', on_lock_aspect_toggled_at tr fuel b mw = Ok mw' ->
        no_selection mw -> no_selection mw').
Proof.
  induction fuel as [|fuel [IHa IHt]]; [split; intros; discriminate|].
  assert (Hc : forall b mw mw', setChecked_at tr fuel b mw = Ok mw' ->
             no_selection mw -> no_selection mw').
  { intros b mw mw'. unfold setChecked_at. destruct (Bool.eqb _ _).
    - intros H; now injection H as <-.
    - intros H Hn. apply (IHt _ _ _ H). exact Hn. }
  assert (Hw : forall a b mw, no_selection mw ->
             no_selection (with_preview_widget
                             (with_lock_aspect_ratio a
                                (with_aspect_ratio b (preview_widget mw))) mw)).
  { intros a b mw. apply no_selection_widget; destruct (preview_widget mw); reflexivity. }
  assert (Hw' : forall a b mw, no_selection mw ->
             no_selection (with_preview_widget
                             (with_aspect_ratio b
                                (with_lock_aspect_ratio a (preview_widget mw))) mw)).
  { intros a b mw. apply no_selection_widget; destruct (preview_widget mw); reflexivity. }
  assert (Hcl : forall mw, no_selection mw -> no_selection (MainWindow_clear_crop mw)).
  { intros mw. unfold no_selection, MainWindow_clear_crop, clear_crop. fields. tauto. }
  split.
  - intros t mw mw'. rewrite on_aspect_ratio_changed_at_S. cbn zeta.
    match goal with |- bind ?m _ = _ -> _ => destruct m as [mw1|] eqn:E1; [|discriminate] end.
    cbn [bind].
    match goal with |- bind ?m _ = _ -> _ => destruct m as [mw2|] eqn:E2; [|discriminate] end.
    cbn [bind]. intros H Hn; injection H as <-.
    assert (N1 : no_selection mw1).
    { destruct (String.eqb t (tr "custom" (locale mw))).
      - apply (Hc _ _ _ E1). exact Hn.
      - injection E1 as <-. exact Hn. }
    assert (N2 : no_selection mw2).
    { destruct (String.eqb t (tr "free" (locale mw))); [apply (Hc _ _ _ E2); exact N1|].
      destruct (negb _); [apply (Hc _ _ _ E2); exact N1|].
      injection E2 as <-. exact N1. }
    destruct (negb (ratio_eqb _ _)); apply Hw; [apply Hcl|]; exact N2.
  - intros b mw mw'. rewrite on_lock_aspect_toggled_at_S.
    match goal with |- bind ?m _ = _ -> _ => destruct m as [mw1|] eqn:E1; [|discriminate] end.
    cbn [bind]. cbn zeta. intros H Hn.
    assert (N1 : no_selection mw1).
    { destruct b; cbn [negb] in E1; [injection E1 as <-; exact Hn|].
      revert E1. unfold setCurrentText_at. destruct (String.eqb _ _).
      - intros E; injection E as <-. exact Hn.
      - intros E. apply (IHa _ _ _ E). exact Hn. }
    pose proof (Hw' b (if b then crop_aspect_ratio mw1 else None) mw1 N1) as N2.
    revert H. fields.
    replace (rect_truthy (crop_rect (preview_widget mw1))) with false
      by (destruct N1 as (_ & -> & _); reflexivity).
    intros H; injection H as <-. exact N2.
Qed.

Lemma handle_no_selection e mw mw' :
  no_left_press e -> handle tr e mw = Ok mw' -> no_selection mw -> no_selection mw'.
Proof.
  intros He H Hn. pose proof Hn as (N1 & N2 & N3 & N4).
  destruct e; cbn [handle] in H.
  - destruct (set_frame _ _) as [w|] eqn:E; [|discriminate]. cbn [bind] in H.
    injection H as <-. unfold set_frame in E.
    destruct (update_base_pixmap_gesture _ _ E) as (F1 & F2 & F3).
    apply no_selection_widget; [rewrite F1|rewrite F2|rewrite F3|exact Hn];
      destruct (preview_widget mw); reflexivity.
  - destruct (resizeEvent _ _) as [w|] eqn:E; [|discriminate]. cbn [bind] in H.
    injection H as <-.
    destruct (resizeEvent_no_crop _ _ _ N2 E) as (F1 & F2 & F3).
    apply no_selection_widget; [congruence|exact F2|exact F3|exact Hn].
  - destruct button; [contradiction|].
    unfold mousePressEvent in H. destruct (current_frame _); now injection H as <-.
  - unfold mouseMoveEvent in H.
    destruct (current_frame _); [|now injection H as <-].
    rewrite N4 in H. cbn [andb] in H.
    destruct (drawing _); [|now injection H as <-].
    destruct (ratio_constrained_pos _ _) as [p|]; [|discriminate]. cbn [bind] in H.
    destruct (widget_to_frame_coords _ p) as [fp|]; [|discriminate]. cbn [bind] in H.
    destruct (point_truthy fp); [|now injection H as <-].
    unfold update_crop_rect in H. fields. rewrite N3 in H. injection H as <-.
    apply no_selection_widget; [..|exact Hn]; destruct (preview_widget mw); reflexivity.
  - unfold mouseReleaseEvent in H. destruct button; [|now injection H as <-].
    rewrite N4 in H. fields. rewrite N3 in H. cbn [point_truthy andb] in H.
    injection H as <-.
    apply no_selection_widget; [..|exact Hn]; destruct (preview_widget mw); reflexivity.
  - destruct (String.eqb _ _); [now injection H as <-|].
    apply (proj1 (slots_no_selection 6) _ _ _ H).
    unfold no_selection. fields. tauto.
  - apply (proj2 (slots_no_selection 6) _ _ _ H).
    unfold no_selection. fields. tauto.
  - destruct (_ =? _); injection H as <-; [exact Hn|].
    unfold on_custom_ratio_changed. destruct (String.eqb _ _); [|unfold no_selection; fields; tauto].
    fields. destruct (negb _); unfold no_selection, MainWindow_clear_crop, clear_crop; fields; tauto.
  - destruct (_ =? _); injection H as <-; [exact Hn|].
    unfold on_custom_ratio_changed. destruct (String.eqb _ _); [|unfold no_selection; fields; tauto].
    fields. destruct (negb _); unfold no_selection, MainWindow_clear_crop, clear_crop; fields; tauto.
  - destruct (_ =? _); [now injection H as <-|].
    unfold on_shadow_count_changed, set_shadow_count in H. fields.
    rewrite N2 in H. cbn [rect_truthy bind] in H. injection H as <-.
    unfold no_selection. fields. tauto.
  - injection H as <-. unfold no_selection, MainWindow_clear_crop, clear_crop. fields. tauto.
Qed.

(** Only a left press starts a rectangle.  From a window with no rectangle, no
    stored start point and no adjust gesture (a fresh window is one), every
    session that contains no press of the left button leaves no rectangle on
    either object: loading, resizing, moving, releasing, the ratio and lock
    controls and the replica count never create one. *)
Theorem only_press_creates (events : list Event) (mw mw' : MainWindow) :
  no_selection mw -> Forall no_left_press events ->
  run tr events mw = Ok mw' ->
  main_crop_rect mw' = None /\ crop_rect (preview_widget mw') = None.
Proof.
  intros Hn Hall H.
  assert (G : no_selection mw'); [|unfold no_selection in G; tauto].
  revert mw Hn H. induction Hall as [|e l He Hl IH]; intros mw Hn; cbn [run].
  - intros H; now injection H as <-.
  - destruct (handle tr e mw) as [m1|] eqn:E; [|discriminate]. cbn [bind].
    apply IH. now apply handle_no_selection with e mw.
Qed.

End Creation.

Lemma only_press_creates_witness :
  let events := [LoadFrame (mkFrame 360 640); Resize (mkQSize 800 600);
                 SelectRatio "16:9"; Move (mkQPoint 300 200); Release LeftButton;
                 SetShadowCount 3; ClickLock] in
  no_selection (MainWindow_init tr_en)
  /\ Forall no_left_press events
  /\ run tr_en events (MainWindow_init tr_en) = Ok (state_after events)
  /\ main_crop_rect (state_after events) = None
  /\ crop_rect (preview_widget (state_after events)) = None.
Proof.
  intros events.
  split; [repeat split|]. split; [repeat constructor|].
  split; [vm_compute; reflexivity|].
  apply (only_press_creates tr_en events (MainWindow_init tr_en));
    [repeat split | repeat constructor | vm_compute; reflexivity].
Defined.

(** Clearing in the middle of an adjust gesture makes the next pointer move
    fail: [clear_crop] resets [start_point_widget] but neither [adjusting] nor
    [original_crop_rect_widget], so [adjust_crop_rect] is entered and reads
    [self.start_point_widget.x()] on [None]. *)
Theorem move_after_clear_raises (pos : QPoint) (mw : MainWindow) (orig : QRect)
  (frame : Frame) :
  adjusting (preview_widget mw) = true ->
  original_crop_rect_widget (preview_widget mw) = Some orig ->
  Rect.isValid orig = true ->
  current_frame (preview_widget mw) = Some frame ->
  mouseMoveEvent pos (MainWindow_clear_crop mw) = Err AttributeError.
Proof.
  intros Ha Ho Hv Hf.
  unfold mouseMoveEvent, MainWindow_clear_crop, clear_crop. fields.
  rewrite Hf, Ha, Ho. cbn [rect_truthy]. rewrite Hv. cbn [andb].
  unfold adjust_crop_rect. fields. rewrite Ho, Hf, Hv. reflexivity.
Qed.

Lemma move_after_clear_raises_witness :
  adjusting (preview_widget moving) = true
  /\ original_crop_rect_widget (preview_widget moving) = Some (QRect_xywh 100 100 200 100)
  /\ mouseMoveEvent (mkQPoint 250 150) (MainWindow_clear_crop moving) = Err AttributeError.
Proof.
  split; [vm_compute; reflexivity|]. split; [vm_compute; reflexivity|].
  apply (move_after_clear_raises (mkQPoint 250 150) moving (QRect_xywh 100 100 200 100)
           (mkFrame 360 640)); vm_compute; reflexivity.
Defined.

(** ** Export *)

(** Every frame is written.  For a valid rectangle and a non-empty frame
    [export_video] never skips a frame, wherever the rectangle lies: the
    slice it takes is inside the frame, at least 1 x 1 and no larger than the
    rectangle; it is written as it is exactly when it has the size of the
    rectangle, and stretched to that size otherwise (a rectangle beyond the
    right or bottom edge is exported as the stretched last column or row). *)
Theorem export_never_skips (crop_rect : QRect) (frame : Frame) :
  Rect.isValid crop_rect = true ->
  0 < shape_width frame -> 0 < shape_height frame ->
  exists x y w h,
    (export_frame crop_rect frame = Copied x y w h
     /\ w = Rect.width crop_rect /\ h = Rect.height crop_rect
     \/ export_frame crop_rect frame = Resized x y w h
        /\ (w < Rect.width crop_rect \/ h < Rect.height crop_rect))
    /\ 0 <= x /\ 0 <= y /\ 1 <= w /\ 1 <= h
    /\ x + w <= shape_width frame /\ y + h <= shape_height frame
    /\ w <= Rect.width crop_rect /\ h <= Rect.height crop_rect.
Proof.
  intros Hv Hfw Hfh.
  assert (Hw : 1 <= Rect.width crop_rect /\ 1 <= Rect.height crop_rect).
  { unfold Rect.isValid in Hv. unfold Rect.width, Rect.height. reflect_bools. lia. }
  unfold export_frame, slice_len.
  set (cw := Rect.width crop_rect) in *. set (ch := Rect.height crop_rect) in *.
  set (fw := shape_width frame) in *. set (fh := shape_height frame) in *.
  set (x := Z.max 0 (Z.min (Rect.x crop_rect) (fw - 1))).
  set (y := Z.max 0 (Z.min (Rect.y crop_rect) (fh - 1))).
  set (w := Z.min cw (fw - x)). set (h := Z.min ch (fh - y)).
  assert (Hx : 0 <= x <= fw - 1) by (unfold x; lia).
  assert (Hy : 0 <= y <= fh - 1) by (unfold y; lia).
  assert (Hw' : 1 <= w <= cw /\ w <= fw - x) by (unfold w; lia).
  assert (Hh' : 1 <= h <= ch /\ h <= fh - y) by (unfold h; lia).
  replace ((w <=? 0) || (h <=? 0)) with false
    by (symmetry; apply orb_false_iff; split; apply Z.leb_gt; lia).
  replace (Z.min (y + h) fh - Z.min y fh) with h by lia.
  replace (Z.min (x + w) fw - Z.min x fw) with w by lia.
  replace (h * w =? 0) with false by (symmetry; apply Z.eqb_neq; nia).
  replace ((0 <? w) && (0 <? h)) with true
    by (symmetry; apply andb_true_iff; split; apply Z.ltb_lt; lia).
  exists x, y, w, h.
  destruct (w =? cw) eqn:E1; destruct (h =? ch) eqn:E2; cbn [negb orb];
    reflect_bools; (split; [first [left; repeat split; (reflexivity || assumption)
                                  |right; split; [reflexivity|lia]]|lia]).
Qed.

Lemma export_never_skips_witness :
  let crop_rect := QRect_xywh 600 300 100 100 in
  let frame := mkFrame 360 640 in
  Rect.isValid crop_rect = true
  /\ 0 < shape_width frame /\ 0 < shape_height frame
  /\ exists x y w h,
       (export_frame crop_rect frame = Copied x y w h
        /\ w = Rect.width crop_rect /\ h = Rect.height crop_rect
        \/ export_frame crop_rect frame = Resized x y w h
           /\ (w < Rect.width crop_rect \/ h < Rect.height crop_rect))
       /\ 0 <= x /\ 0 <= y /\ 1 <= w /\ 1 <= h
       /\ x + w <= shape_width frame /\ y + h <= shape_height frame
       /\ w <= Rect.width crop_rect /\ h <= Rect.height crop_rect.
Proof.
  intros crop_rect frame.
  split; [reflexivity|]. split; [reflexivity|]. split; [reflexivity|].
  apply (export_never_skips crop_rect frame); reflexivity.
Defined.

Lemma within_frame_exported_as_is frame r :
  within_frame frame r -> exported_as_is frame r.
Proof.
  unfold within_frame, exported_as_is, export_frame, slice_len.
  set (cw := Rect.width r). set (ch := Rect.height r).
  set (fw := shape_width frame). set (fh := shape_height frame).
  intros (H1 & H2 & H3 & H4 & H5 & H6).
  replace (Z.max 0 (Z.min (Rect.x r) (fw - 1))) with (Rect.x r) by lia.
  replace (Z.max 0 (Z.min (Rect.y r) (fh - 1))) with (Rect.y r) by lia.
  replace (Z.min cw (fw - Rect.x r)) with cw by lia.
  replace (Z.min ch (fh - Rect.y r)) with ch by lia.
  replace ((cw <=? 0) || (ch <=? 0)) with false
    by (symmetry; apply orb_false_iff; split; apply Z.leb_gt; lia).
  replace (Z.min (Rect.y r + ch) fh - Z.min (Rect.y r) fh) with ch by lia.
  replace (Z.min (Rect.x r + cw) fw - Z.min (Rect.x r) fw) with cw by lia.
  replace (ch * cw =? 0) with false by (symmetry; apply Z.eqb_neq; nia).
  rewrite !Z.eqb_refl. reflexivity.
Qed.

Lemma shadow_rect_within_frame frame crop i :
  within_frame frame crop -> 1 <= i -> shadow_fits (shape_width frame) crop i = true ->
  within_frame frame (shadow_rect crop i).
Proof.
  unfold within_frame, shadow_fits, shadow_rect, QRect_xywh, Rect.x, Rect.y, Rect.width,
    Rect.height. cbn [rx1 rx2 ry1 ry2].
  intros (H1 & H2 & H3 & H4 & H5 & H6) Hi Hf. apply Z.leb_le in Hf. nia.
Qed.

(** What is drawn is what is exported.  When [update_crop_rect] commits a
    rectangle, [export_video] has at least one rectangle to export, the
    committed one first, and for a frame of the size of the one shown it
    writes every one of them, replicas included, as the exact slice
    [x, y, width, height] of the frame, with no clamping and no resizing. *)
Theorem drawn_selection_exports_as_is (mw mw' : MainWindow) (frame : Frame) :
  current_frame (preview_widget mw) = Some frame ->
  0 < shape_width frame -> 0 < shape_height frame ->
  update_crop_rect mw = Ok mw' ->
  mw' = mw
  \/ exists r rest,
       main_crop_rect mw' = Some r
       /\ all_crop_rects mw' = r :: rest
       /\ Forall (exported_as_is frame) (all_crop_rects mw').
Proof.
  intros Hf Hfw Hfh H.
  destruct (update_crop_rect_cases _ _ H)
    as [E|(sp & ep & frame' & crop & v2 & Hs & He & Hf' & Ht & Hd & _ & _)];
    [now left|right].
  rewrite Hf in Hf'. injection Hf' as <-.
  pose proof (drawn_frame_rect_in_frame _ _ _ _ _ Hfw Hfh Hd) as Hin.
  assert (Hv : Rect.isValid crop = true).
  { unfold within_frame, Rect.width, Rect.height in Hin. unfold Rect.isValid.
    apply andb_true_iff; split; apply Z.leb_le; lia. }
  destruct (update_crop_rect_runs mw sp ep frame crop Hs He Hf Ht Hd)
    as (v1 & w2 & Hv1 & Hv2 & _ & Hrun).
  rewrite Hrun in H. injection H as <-.
  set (w1 := redraw_widget_rect (with_crop_rect (Some crop) (preview_widget mw))) in *.
  assert (Hc1 : crop_rect v1 = Some crop /\ current_frame v1 = Some frame).
  { rewrite (update_shadow_crops_shape _ _ _ Hv1). fields.
    destruct (redraw_widget_rect_keeps (with_crop_rect (Some crop) (preview_widget mw)))
      as (_ & _ & K3 & _ & _ & K6 & _).
    unfold w1. rewrite K3, K6. fields. split; [reflexivity|exact Hf]. }
  destruct Hc1 as [Hc1 Hf1].
  assert (Hl : forall r, In r (shadow_crop_rects w2) -> within_frame frame r).
  { destruct (Z_lt_le_dec 1 (shadow_count v1)) as [Hn|Hn].
    - destruct (update_shadow_crops_rects v1 _ crop frame Hc1 Hv Hf1 Hn) as (w' & Hu & Hl).
      rewrite Hu in Hv2. injection Hv2 as <-. rewrite Hl.
      intros r Hr. apply in_map_iff in Hr. destruct Hr as (i & <- & Hi).
      apply filter_In in Hi. destruct Hi as [Hi Hfit]. apply in_range in Hi.
      apply shadow_rect_within_frame; [exact Hin|lia|exact Hfit].
    - revert Hv2. unfold update_shadow_crops.
      apply Z.leb_le in Hn. rewrite Hn, orb_true_r.
      intros E; injection E as <-. fields. intros r []. }
  exists crop. eexists. fields.
  split; [reflexivity|].
  unfold all_crop_rects. fields. cbn [rect_truthy]. rewrite Hv.
  split; [reflexivity|].
  apply Forall_cons; [now apply within_frame_exported_as_is|].
  apply Forall_forall. intros r Hr. apply within_frame_exported_as_is, Hl.
  destruct (shadow_crop_rects w2); [contradiction|exact Hr].
Qed.

Lemma drawn_selection_exports_as_is_witness :
  let mw := state_after (firstn 3 adjusted_session) in
  let frame := mkFrame 360 640 in
  current_frame (preview_widget mw) = Some frame
  /\ 0 < shape_width frame /\ 0 < shape_height frame
  /\ exists mw', update_crop_rect mw = Ok mw'
       /\ (mw' = mw
           \/ exists r rest,
                main_crop_rect mw' = Some r
                /\ all_crop_rects mw' = r :: rest
                /\ Forall (exported_as_is frame) (all_crop_rects mw')).
Proof.
  intros mw frame.
  split; [vm_compute; reflexivity|]. split; [reflexivity|]. split; [reflexivity|].
  destruct (update_crop_rect mw) as [mw'|] eqn:E; [|vm_compute in E; discriminate].
  exists mw'. split; [reflexivity|].
  apply (drawn_selection_exports_as_is mw mw' frame);
    first [vm_compute; reflexivity | reflexivity | exact E].
Defined.

(** ** Rotation and playback *)

Ltac player_fields :=
  cbn [main_window video_cap first_frame rotation current_frame_idx total_frames fps
       is_playing frame_slider_value frame_slider_maximum with_main_window
       with_first_frame with_rotation with_current_frame_idx with_is_playing
       with_frame_slider_value] in *.

Lemma apply_rotation_not_empty r f :
  shape_width f <> 0 /\ shape_height f <> 0 ->
  shape_width (apply_rotation r f) <> 0 /\ shape_height (apply_rotation r f) <> 0.
Proof.
  unfold apply_rotation.
  repeat match goal with |- context [if ?c then _ else _] => destruct c end;
    cbn [shape_width shape_height]; tauto.
Qed.

Lemma set_frame_ok f w :
  shape_width f <> 0 /\ shape_height f <> 0 ->
  exists w', set_frame (Some f) w = Ok w'
    /\ current_frame w' = Some f
    /\ crop_rect w' = crop_rect w /\ drawing w' = drawing w
    /\ shadow_crop_rects w' = shadow_crop_rects w.
Proof.
  intros [Hw Hh]. unfold set_frame, update_base_pixmap. fields.
  apply Z.eqb_neq in Hw, Hh. rewrite Hw, Hh. cbn [orb].
  eexists. split; [reflexivity|]. destruct w; repeat split.
Qed.

Lemma set_frame_keeps f w w' :
  set_frame (Some f) w = Ok w' ->
  current_frame w' = Some f
  /\ crop_rect w' = crop_rect w /\ drawing w' = drawing w
  /\ shadow_crop_rects w' = shadow_crop_rects w.
Proof.
  unfold set_frame. intros H.
  rewrite (update_base_pixmap_shape _ _ H). destruct w; repeat split.
Qed.

Lemma load_frame_at_S fuel frame_idx p :
  load_frame_at (S fuel) frame_idx p
  = match video_cap p with
    | None => Ok p
    | Some cap =>
        match source_frame cap frame_idx p with
        | None => Ok p
        | Some frame =>
            let p := with_current_frame_idx frame_idx p in
            let frame := apply_rotation (rotation p) frame in
            w <- set_frame (Some frame) (preview_widget (main_window p)) ;;
            let p := with_main_window (with_preview_widget w (main_window p)) p in
            let v := clamp 0 frame_idx (frame_slider_maximum p) in
            if v =? frame_slider_value p then Ok p
            else
              let p := with_frame_slider_value v p in
              if negb (is_playing p) then load_frame_at fuel v p else Ok p
        end
    end.
Proof. reflexivity. Qed.

Lemma set_frame_no_loop f w : set_frame f w <> Err SignalLoop.
Proof.
  unfold set_frame, update_base_pixmap. destruct f; [|discriminate].
  fields. destruct (_ || _); discriminate.
Qed.

(** What [load_frame] leaves alone. *)
Lemma load_frame_at_keeps fuel : forall frame_idx p p',
  load_frame_at fuel frame_idx p = Ok p' ->
  rotation p' = rotation p /\ video_cap p' = video_cap p
  /\ first_frame p' = first_frame p /\ total_frames p' = total_frames p
  /\ fps p' = fps p /\ is_playing p' = is_playing p
  /\ frame_slider_maximum p' = frame_slider_maximum p
  /\ main_crop_rect (main_window p') = main_crop_rect (main_window p)
  /\ crop_rect (preview_widget (main_window p'))
     = crop_rect (preview_widget (main_window p))
  /\ shadow_crop_rects (preview_widget (main_window p'))
     = shadow_crop_rects (preview_widget (main_window p))
  /\ drawing (preview_widget (main_window p')) = drawing (preview_widget (main_window p)).
Proof.
  induction fuel as [|fuel IH]; intros frame_idx p p'; [discriminate|].
  rewrite load_frame_at_S. cbn zeta.
  destruct (video_cap p) as [cap|] eqn:Ec;
    [|intros H; injection H as <-; rewrite Ec; repeat split].
  match goal with |- context [match ?c with Some _ => _ | None => _ end] =>
    destruct c as [frame|] end;
    [|intros H; injection H as <-; rewrite Ec; repeat split].
  player_fields.
  destruct (set_frame _ _) as [w|] eqn:Ef; [|discriminate]. cbn [bind].
  destruct (set_frame_keeps _ _ _ Ef) as (_ & K2 & K3 & K4).
  set (p1 := with_main_window _ _).
  assert (K : rotation p1 = rotation p /\ video_cap p1 = video_cap p
              /\ first_frame p1 = first_frame p /\ total_frames p1 = total_frames p
              /\ fps p1 = fps p /\ is_playing p1 = is_playing p
              /\ frame_slider_maximum p1 = frame_slider_maximum p
              /\ main_crop_rect (main_window p1) = main_crop_rect (main_window p)
              /\ crop_rect (preview_widget (main_window p1))
                 = crop_rect (preview_widget (main_window p))
              /\ shadow_crop_rects (preview_widget (main_window p1))
                 = shadow_crop_rects (preview_widget (main_window p))
              /\ drawing (preview_widget (main_window p1))
                 = drawing (preview_widget (main_window p))).
  { unfold p1. player_fields. fields. rewrite K2, K3, K4. repeat split. }
  clearbody p1.
  destruct K as (K1' & K2' & K3' & K4' & K5' & K6' & K7' & K8' & K9' & K10' & K11').
  destruct (_ =? _); [intros H; injection H as <-; repeat split; congruence|].
  destruct (negb _); [|intros H; injection H as <-; player_fields; repeat split; congruence].
  intros H. apply IH in H. player_fields.
  destruct H as (H1 & H2 & H3 & H4 & H5 & H6 & H7 & H8 & H9 & H10 & H11).
  repeat split; congruence.
Qed.

(** The nesting through the slider ends at once: the nested call finds the
    slider on its value. *)
Lemma load_frame_settles frame_idx p k :
  load_frame frame_idx p <> Err SignalLoop
  /\ load_frame_at (3 + k) frame_idx p = load_frame frame_idx p.
Proof.
  assert (Inner : forall fuel v q,
            clamp 0 v (frame_slider_maximum q) = frame_slider_value q ->
            load_frame_at (S fuel) v q <> Err SignalLoop
            /\ load_frame_at (S fuel) v q = load_frame_at 1 v q).
  { intros fuel v q Hv. rewrite !load_frame_at_S. cbn zeta.
    destruct (video_cap q); [|split; [discriminate|reflexivity]].
    match goal with |- context [match ?c with Some _ => _ | None => _ end] =>
      destruct c as [frame|] end; [|split; [discriminate|reflexivity]].
    player_fields.
    pose proof (set_frame_no_loop (Some (apply_rotation (rotation q) frame))
                  (preview_widget (main_window q))) as Hs.
    destruct (set_frame _ _) as [w|e]; cbn [bind].
    - rewrite Hv, Z.eqb_refl. split; [discriminate|reflexivity].
    - split; [|reflexivity]. intros E; injection E as ->. now apply Hs. }
  assert (Outer : forall fuel,
            load_frame_at (S (S fuel)) frame_idx p <> Err SignalLoop
            /\ load_frame_at (S (S fuel)) frame_idx p = load_frame_at 2 frame_idx p).
  { intros fuel. rewrite (load_frame_at_S (S fuel)), (load_frame_at_S 1). cbn zeta.
    destruct (video_cap p); [|split; [discriminate|reflexivity]].
    match goal with |- context [match ?c with Some _ => _ | None => _ end] =>
      destruct c as [frame|] end; [|split; [discriminate|reflexivity]].
    player_fields.
    pose proof (set_frame_no_loop (Some (apply_rotation (rotation p) frame))
                  (preview_widget (main_window p))) as Hs.
    destruct (set_frame _ _) as [w|e]; cbn [bind].
    - destruct (_ =? _); [split; [discriminate|reflexivity]|].
      destruct (negb _); [|split; [discriminate|reflexivity]].
      match goal with |- load_frame_at _ ?v ?q <> _ /\ _ =>
        assert (Hv : clamp 0 v (frame_slider_maximum q) = frame_slider_value q)
          by (player_fields; unfold clamp; lia);
        destruct (Inner fuel v q Hv) as [I1 I2];
        destruct (Inner 0%nat v q Hv) as [J1 J2] end.
      split; [exact I1|]. rewrite I2. reflexivity.
    - split; [|reflexivity]. intros E; injection E as ->. now apply Hs. }
  unfold load_frame. split; [apply (Outer 1%nat)|].
  replace (3 + k)%nat with (S (S (S k))) by lia.
  rewrite (proj2 (Outer (S k))), (proj2 (Outer 1%nat)). reflexivity.
Qed.

Lemma source_frame_of cap i p f :
  video_cap p = Some cap -> source_frame cap i p = Some f -> frame_of p f.
Proof.
  intros Hc. unfold source_frame, frame_of.
  destruct (_ && _); [intros H; now left|]. intros H. right. now exists cap, i.
Qed.

Lemma frame_of_not_empty p f :
  frames_not_empty p -> frame_of p f -> shape_width f <> 0 /\ shape_height f <> 0.
Proof.
  intros [Hv Hf] [H|(cap & i & Hc & H)]; [now apply Hf|now apply (Hv cap i)].
Qed.

Lemma load_frame_at_on_value fuel v q cap :
  video_cap q = Some cap ->
  clamp 0 v (frame_slider_maximum q) = frame_slider_value q ->
  load_frame_at (S fuel) v q
  = match source_frame cap v q with
    | None => Ok q
    | Some f =>
        w <- set_frame (Some (apply_rotation (rotation q) f))
               (preview_widget (main_window q)) ;;
        Ok (with_main_window (with_preview_widget w (main_window q))
              (with_current_frame_idx v q))
    end.
Proof.
  intros Hc Hv. rewrite load_frame_at_S, Hc. cbn zeta.
  destruct (source_frame cap v q); [|reflexivity]. player_fields.
  destruct (set_frame _ _); cbn [bind]; [|reflexivity].
  now rewrite Hv, Z.eqb_refl.
Qed.

(** [load_frame] on an open video whose frames are not empty. *)
Lemma load_frame_runs frame_idx p cap :
  video_cap p = Some cap -> frames_not_empty p ->
  exists p', load_frame frame_idx p = Ok p'
    /\ (source_frame cap frame_idx p = None -> p' = p)
    /\ (forall f, source_frame cap frame_idx p = Some f ->
          exists f', frame_of p f'
            /\ current_frame (preview_widget (main_window p'))
               = Some (apply_rotation (rotation p) f')
            /\ (is_playing p = true -> f' = f /\ current_frame_idx p' = frame_idx)).
Proof.
  intros Hc Hne. unfold load_frame. rewrite load_frame_at_S, Hc. cbn zeta.
  destruct (source_frame cap frame_idx p) as [f|] eqn:Es.
  2:{ exists p. split; [reflexivity|]. split; [reflexivity|]. intros f H; discriminate. }
  player_fields.
  pose proof (frame_of_not_empty _ _ Hne (source_frame_of _ _ _ _ Hc Es)) as Hf.
  destruct (set_frame_ok (apply_rotation (rotation p) f) (preview_widget (main_window p))
              (apply_rotation_not_empty _ _ Hf)) as (w & Ew & W1 & W2 & W3 & W4).
  rewrite Ew. cbn [bind].
  set (p1 := with_main_window (with_preview_widget w (main_window p))
               (with_current_frame_idx frame_idx p)).
  assert (Hdone : forall q, q = p1 \/ (exists v, q = with_frame_slider_value v p1) ->
            exists f', frame_of p f'
              /\ current_frame (preview_widget (main_window q))
                 = Some (apply_rotation (rotation p) f')
              /\ (is_playing p = true -> f' = f /\ current_frame_idx q = frame_idx)).
  { intros q Hq. exists f. split; [exact (source_frame_of _ _ _ _ Hc Es)|].
    destruct Hq as [->|(v & ->)]; unfold p1; player_fields; fields;
      (split; [exact W1|]); intros _; split; reflexivity. }
  destruct (_ =? _).
  { exists p1. split; [reflexivity|]. split; [discriminate|].
    intros f0 E; injection E as <-. apply Hdone. now left. }
  set (v := clamp 0 frame_idx (frame_slider_maximum p)).
  set (p2 := with_frame_slider_value v p1).
  destruct (is_playing p) eqn:Ep; cbn [negb].
  { exists p2. split; [reflexivity|]. split; [discriminate|].
    intros f0 E; injection E as <-. apply Hdone. right. now exists v. }
  rewrite (load_frame_at_on_value 1 v p2 cap);
    [|exact Hc|unfold p2, p1; player_fields; unfold v, clamp; lia].
  assert (Hs2 : source_frame cap v p2 = source_frame cap v p).
  { unfold source_frame, p2, p1. player_fields. fields. now rewrite W2, W3. }
  rewrite Hs2.
  destruct (source_frame cap v p) as [f2|] eqn:Es2.
  - pose proof (frame_of_not_empty _ _ Hne (source_frame_of _ _ _ _ Hc Es2)) as Hf2.
    destruct (set_frame_ok (apply_rotation (rotation p) f2)
                (preview_widget (main_window p2)) (apply_rotation_not_empty _ _ Hf2))
      as (w2 & Ew2 & V1 & _).
    replace (rotation p2) with (rotation p) by reflexivity.
    rewrite Ew2. cbn [bind].
    eexists. split; [reflexivity|]. split; [discriminate|].
    intros f0 E; injection E as <-. exists f2.
    split; [exact (source_frame_of _ _ _ _ Hc Es2)|].
    player_fields. fields. split; [exact V1|discriminate].
  - exists p2. split; [reflexivity|]. split; [discriminate|].
    intros f0 E; injection E as <-.
    destruct (Hdone p2) as (f' & F1 & F2 & _); [right; now exists v|].
    exists f'. split; [exact F1|]. split; [exact F2|discriminate].
Qed.

Lemma rotate_video_keeps degrees p p' :
  rotate_video degrees p = Ok p' ->
  rotation p' = degrees
  /\ main_crop_rect (main_window p') = None
  /\ crop_rect (preview_widget (main_window p')) = None
  /\ shadow_crop_rects (preview_widget (main_window p')) = [].
Proof.
  unfold rotate_video. player_fields.
  match goal with |- bind ?m _ = _ -> _ => destruct m as [p1|] eqn:E1; [|discriminate] end.
  cbn [bind].
  assert (K : rotation p1 = degrees
              /\ main_crop_rect (main_window p1) = None
              /\ crop_rect (preview_widget (main_window p1)) = None
              /\ shadow_crop_rects (preview_widget (main_window p1)) = []).
  { destruct (first_frame p); [|injection E1 as <-; repeat split].
    destruct (video_cap p); [|discriminate].
    destruct (frame_at _ 0); injection E1 as <-; repeat split. }
  destruct K as (K1 & K2 & K3 & K4).
  destruct (is_not_None _); [|intros H; injection H as <-; repeat split; assumption].
  intros H. apply load_frame_at_keeps in H.
  destruct H as (H1 & _ & _ & _ & _ & _ & _ & H8 & H9 & H10 & _).
  repeat split; congruence.
Qed.

(** The rotation buttons turn by quarter turns and undo each other.  From a
    rotation of 0, 90, 180 or 270 each button leaves one of these four, left
    then right and right then left give back the rotation there was, and four
    presses of one button come back to it. *)
Theorem quarter_turns (p : Player) :
  quarter_turn (rotation p) ->
  (forall p1, rotate_left p = Ok p1 ->
     quarter_turn (rotation p1)
     /\ forall p2, rotate_right p1 = Ok p2 -> rotation p2 = rotation p)
  /\ (forall p1, rotate_right p = Ok p1 ->
        quarter_turn (rotation p1)
        /\ (forall p2, rotate_left p1 = Ok p2 -> rotation p2 = rotation p)
        /\ forall p2 p3 p4, rotate_right p1 = Ok p2 -> rotate_right p2 = Ok p3 ->
             rotate_right p3 = Ok p4 -> rotation p4 = rotation p).
Proof.
  intros Hq.
  assert (L : forall q q', rotate_left q = Ok q' -> rotation q' = (rotation q - 90) mod 360)
    by (intros q q' H; unfold rotate_left in H; apply rotate_video_keeps in H; tauto).
  assert (R : forall q q', rotate_right q = Ok q' -> rotation q' = (rotation q + 90) mod 360)
    by (intros q q' H; unfold rotate_right in H; apply rotate_video_keeps in H; tauto).
  unfold quarter_turn in *. split.
  - intros p1 H1. apply L in H1. split.
    + destruct Hq as [E|[E|[E|E]]]; rewrite E in H1; rewrite H1;
        first [left; reflexivity | right; left; reflexivity
              | right; right; left; reflexivity | right; right; right; reflexivity].
    + intros p2 H2. apply R in H2. rewrite H2, H1.
      destruct Hq as [E|[E|[E|E]]]; rewrite E; reflexivity.
  - intros p1 H1. apply R in H1. split; [|split].
    + destruct Hq as [E|[E|[E|E]]]; rewrite E in H1; rewrite H1;
        first [left; reflexivity | right; left; reflexivity
              | right; right; left; reflexivity | right; right; right; reflexivity].
    + intros p2 H2. apply L in H2. rewrite H2, H1.
      destruct Hq as [E|[E|[E|E]]]; rewrite E; reflexivity.
    + intros p2 p3 p4 H2 H3 H4. apply R in H2, H3, H4. rewrite H4, H3, H2, H1.
      destruct Hq as [E|[E|[E|E]]]; rewrite E; reflexivity.
Qed.

(** Any rotation discards the selection, and the frame comes back turned.
    On an open video whose frames all have one shape, with the current frame
    readable, [rotate_video] returns normally, stores the angle, leaves no
    rectangle and no replica (so nothing to export), and shows a frame whose
    sides are swapped for 90 and 270 and kept otherwise; this holds for every
    angle, the present one included. *)
Theorem rotation_discards_selection (degrees : Z) (p : Player) (cap : Video)
  (shape : Frame) :
  video_cap p = Some cap ->
  (forall f, frame_of p f -> f = shape) ->
  shape_width shape <> 0 -> shape_height shape <> 0 ->
  frame_at cap (current_frame_idx p) <> None ->
  exists p',
    rotate_video degrees p = Ok p'
    /\ rotation p' = degrees
    /\ main_crop_rect (main_window p') = None
    /\ crop_rect (preview_widget (main_window p')) = None
    /\ all_crop_rects (main_window p') = []
    /\ current_frame (preview_widget (main_window p'))
       = Some (apply_rotation degrees shape).
Proof.
  intros Hc Hu Hw Hh Hr.
  assert (Hk : forall p', rotate_video degrees p = Ok p' ->
            rotation p' = degrees
            /\ main_crop_rect (main_window p') = None
            /\ crop_rect (preview_widget (main_window p')) = None
            /\ all_crop_rects (main_window p') = []).
  { intros p' H. destruct (rotate_video_keeps _ _ _ H) as (K1 & K2 & K3 & K4).
    repeat split; try assumption. unfold all_crop_rects. now rewrite K2. }
  revert Hk. unfold rotate_video. player_fields.
  set (p0 := with_main_window _ _).
  assert (Hstep : exists p1,
            (match first_frame p with
             | Some _ =>
                 match video_cap p with
                 | Some cap0 =>
                     match frame_at cap0 0 with
                     | Some first_frame => Ok (with_first_frame (Some first_frame) p0)
                     | None => Ok p0
                     end
                 | None => Err AttributeError
                 end
             | None => Ok p0
             end) = Ok p1
            /\ video_cap p1 = Some cap /\ rotation p1 = degrees
            /\ current_frame_idx p1 = current_frame_idx p
            /\ (forall f, frame_of p1 f -> f = shape)
            /\ crop_rect (preview_widget (main_window p1)) = None).
  { rewrite Hc.
    assert (H0 : forall f, frame_of p0 f -> f = shape) by (intros f H; apply Hu, H).
    destruct (first_frame p) as [ff|] eqn:Ef; [destruct (frame_at cap 0) as [f0|] eqn:E0|];
      eexists; (split; [reflexivity|]); player_fields;
      repeat split; try assumption; try exact H0.
    intros g [H|(c & i & H1 & H2)]; player_fields.
    - injection H as <-. apply Hu. right. now exists cap, 0.
    - apply Hu. right. now exists c, i. }
  destruct Hstep as (p1 & -> & C1 & R1 & I1 & U1 & N1). cbn [bind].
  rewrite C1. cbn [is_not_None].
  assert (Hne : frames_not_empty p1).
  { split.
    - intros c i f Hc1 Hf. rewrite (U1 f); [tauto|]. right. now exists c, i.
    - intros f Hf. rewrite (U1 f); [tauto|]. now left. }
  destruct (load_frame_runs (current_frame_idx p1) p1 cap C1 Hne) as (p' & Hl & _ & Hs).
  rewrite Hl. intros Hk. exists p'. split; [reflexivity|].
  destruct (Hk p' eq_refl) as (K1 & K2 & K3 & K4).
  split; [exact K1|]. split; [exact K2|]. split; [exact K3|]. split; [exact K4|].
  assert (Hsrc : exists f, source_frame cap (current_frame_idx p1) p1 = Some f).
  { unfold source_frame. rewrite I1.
    destruct (_ && _) eqn:Ea.
    - apply andb_true_iff in Ea. destruct Ea as [_ Ea].
      destruct (first_frame p1); [eauto|discriminate].
    - destruct (frame_at cap (current_frame_idx p)); [eauto|contradiction]. }
  destruct Hsrc as (f & Hf).
  destruct (Hs f Hf) as (f' & F1 & F2 & _).
  rewrite F2, R1, (U1 f' F1). reflexivity.
Qed.

Lemma quarter_turns_witness :
  quarter_turn (rotation sample_player)
  /\ forall p1, rotate_left sample_player = Ok p1 ->
       quarter_turn (rotation p1)
       /\ forall p2, rotate_right p1 = Ok p2 -> rotation p2 = rotation sample_player.
Proof.
  split; [left; reflexivity|].
  apply (quarter_turns sample_player). left. reflexivity.
Defined.

Lemma rotation_discards_selection_witness :
  video_cap sample_player = Some sample_video
  /\ exists p',
       rotate_video 90 sample_player = Ok p'
       /\ rotation p' = 90
       /\ main_crop_rect (main_window p') = None
       /\ crop_rect (preview_widget (main_window p')) = None
       /\ all_crop_rects (main_window p') = []
       /\ current_frame (preview_widget (main_window p'))
          = Some (apply_rotation 90 (mkFrame 360 640)).
Proof.
  split; [reflexivity|].
  apply (rotation_discards_selection 90 sample_player sample_video (mkFrame 360 640)).
  - reflexivity.
  - intros f [H|(c & i & Hc & H)].
    + vm_compute in H. now injection H as <-.
    + assert (Hv : video_cap sample_player = Some sample_video) by (vm_compute; reflexivity).
      rewrite Hv in Hc. injection Hc as <-. unfold sample_video in H. cbn [frame_at] in H.
      destruct ((0 <=? i) && (i <? 100)); [now injection H as <-|discriminate].
  - discriminate.
  - discriminate.
  - vm_compute. discriminate.
Defined.

Lemma ticks_app a b p : ticks (a + b) p = (q <- ticks a p ;; ticks b q).
Proof.
  revert p. induction a as [|a IH]; intros p; [reflexivity|].
  cbn [ticks Nat.add].
  destruct (if is_playing p then next_frame p else Ok p) as [q|]; cbn [bind]; [apply IH|reflexivity].
Qed.

Lemma ticks_stopped m p : is_playing p = false -> ticks m p = Ok p.
Proof.
  intros H. induction m as [|m IH]; [reflexivity|].
  cbn [ticks]. rewrite H. cbn [bind]. exact IH.
Qed.

(** The state in which the timer runs on an open video whose frames can all
    be read. *)
Lemma next_frame_step p cap :
  video_cap p = Some cap -> frames_not_empty p -> is_playing p = true ->
  (forall i, 0 <= i < total_frames p -> frame_at cap i <> None) ->
  0 <= current_frame_idx p < total_frames p - 1 ->
  exists p', next_frame p = Ok p'
    /\ current_frame_idx p' = current_frame_idx p + 1
    /\ video_cap p' = Some cap /\ frames_not_empty p' /\ is_playing p' = true
    /\ total_frames p' = total_frames p.
Proof.
  intros Hc Hne Hp Hr Hi. unfold next_frame.
  replace (current_frame_idx p <? total_frames p - 1) with true
    by (symmetry; apply Z.ltb_lt; lia).
  destruct (load_frame_runs (current_frame_idx p + 1) p cap Hc Hne) as (p' & Hl & _ & Hs).
  exists p'. split; [exact Hl|].
  assert (Hsrc : exists f, source_frame cap (current_frame_idx p + 1) p = Some f).
  { unfold source_frame. destruct (_ && _) eqn:Ea.
    - apply andb_true_iff in Ea. destruct Ea as [_ Ea].
      destruct (first_frame p); [eauto|discriminate].
    - specialize (Hr (current_frame_idx p + 1) ltac:(lia)).
      destruct (frame_at cap _); [eauto|contradiction]. }
  destruct Hsrc as (f & Hf).
  destruct (Hs f Hf) as (f' & _ & _ & Hidx). destruct (Hidx Hp) as [_ Hidx'].
  unfold load_frame in Hl.
  destruct (load_frame_at_keeps _ _ _ _ Hl) as (_ & K2 & K3 & K4 & _ & K6 & _).
  split; [exact Hidx'|]. split; [congruence|]. split; [|split; congruence].
  destruct Hne as [N1 N2]. split.
  - intros c i g Hc' Hg. apply (N1 c i); congruence.
  - intros g Hg. apply N2. congruence.
Qed.

(** Playback runs to the last frame and stops there.  On an open video whose
    frames can all be read, with the timer running from frame [i], the [k]-th
    tick shows frame [i + k] for every [k] up to the last frame; the tick
    after the last frame stops the playback, and the frame index never passes
    [total_frames - 1]. *)
Theorem playback_reaches_the_end (p : Player) (cap : Video) :
  video_cap p = Some cap -> frames_not_empty p -> is_playing p = true ->
  (forall i, 0 <= i < total_frames p -> frame_at cap i <> None) ->
  0 <= current_frame_idx p < total_frames p ->
  let n := Z.to_nat (total_frames p - 1 - current_frame_idx p) in
  (forall k, (k <= n)%nat ->
     exists p', ticks k p = Ok p'
       /\ current_frame_idx p' = current_frame_idx p + Z.of_nat k
       /\ is_playing p' = true)
  /\ exists p', ticks (S n) p = Ok p'
       /\ current_frame_idx p' = total_frames p - 1
       /\ is_playing p' = false
       /\ forall m, ticks m p' = Ok p'.
Proof.
  intros Hc Hne Hp Hr Hi n.
  assert (G : forall k q,
            video_cap q = Some cap -> frames_not_empty q -> is_playing q = true ->
            total_frames q = total_frames p ->
            0 <= current_frame_idx q ->
            current_frame_idx q + Z.of_nat k <= total_frames p - 1 ->
            exists q', ticks k q = Ok q'
              /\ current_frame_idx q' = current_frame_idx q + Z.of_nat k
              /\ video_cap q' = Some cap /\ is_playing q' = true
              /\ total_frames q' = total_frames p).
  { induction k as [|k IH]; intros q Qc Qne Qp Qt Q0 Qk.
    - exists q. cbn [ticks]. repeat split; try assumption. lia.
    - cbn [ticks]. rewrite Qp.
      destruct (next_frame_step q cap Qc Qne Qp) as (q1 & E1 & I1 & C1 & N1 & P1 & T1).
      { intros i Hi'. apply Hr. lia. }
      { lia. }
      rewrite E1. cbn [bind].
      destruct (IH q1 C1 N1 P1) as (q' & E' & I' & C' & P' & T'); [congruence|lia|lia|].
      exists q'. split; [exact E'|]. split; [lia|]. repeat split; assumption. }
  split.
  - intros k Hk. destruct (G k p Hc Hne Hp eq_refl) as (p' & E & I & _ & P & _);
      [lia|lia|].
    exists p'. repeat split; assumption.
  - destruct (G n p Hc Hne Hp eq_refl) as (p' & E & I & C & P & T); [lia|lia|].
    replace (S n) with (n + 1)%nat by lia. rewrite ticks_app, E. cbn [bind ticks].
    rewrite P. unfold next_frame.
    replace (current_frame_idx p' <? total_frames p' - 1) with false
      by (symmetry; apply Z.ltb_ge; lia).
    unfold toggle_playback. rewrite C, P. cbn [bind].
    eexists. split; [reflexivity|]. player_fields.
    split; [lia|]. split; [reflexivity|].
    intros m. now apply ticks_stopped.
Qed.

Lemma playback_reaches_the_end_witness :
  let p := with_is_playing true (with_current_frame_idx 97 sample_player) in
  video_cap p = Some sample_video
  /\ is_playing p = true
  /\ 0 <= current_frame_idx p < total_frames p
  /\ exists p', ticks 3 p = Ok p'
       /\ current_frame_idx p' = total_frames p - 1
       /\ is_playing p' = false
       /\ forall m, ticks m p' = Ok p'.
Proof.
  intros p.
  assert (Hv : video_cap p = Some sample_video) by (vm_compute; reflexivity).
  assert (Hf : first_frame p = Some (mkFrame 360 640)) by (vm_compute; reflexivity).
  split; [exact Hv|]. split; [reflexivity|]. split; [vm_compute; split; congruence|].
  apply (playback_reaches_the_end p sample_video).
  - exact Hv.
  - split.
    + intros c i f Hc H. rewrite Hv in Hc. injection Hc as <-.
      unfold sample_video in H. cbn [frame_at] in H.
      destruct ((0 <=? i) && (i <? 100)); [injection H as <-; split; discriminate|discriminate].
    + intros f H. rewrite Hf in H. injection H as <-. split; discriminate.
  - reflexivity.
  - intros i Hi. unfold sample_video. cbn [frame_at].
    replace (total_frames p) with 100 in Hi by (vm_compute; reflexivity).
    replace ((0 <=? i) && (i <? 100)) with true; [discriminate|].
    symmetry. apply andb_true_iff. split; [apply Z.leb_le|apply Z.ltb_lt]; lia.
  - vm_compute. split; congruence.
Defined.

(** * The build script and the icons *)

Lemma last_app_singleton {A} (l : list A) (x d : A) : last (l ++ [x]) d = x.
Proof. apply last_last. Qed.

Ltac absurd_in H :=
  cbn [In] in H; repeat (destruct H as [H|H]; [discriminate H|]); contradiction.
Ltac prove_in := cbn [In]; repeat (first [left; reflexivity | right]).
Ltac absurd_hyp H :=
  repeat match type of H with
         | _ \/ _ => destruct H as [H|H]
         | _ /\ _ => let H1 := fresh in destruct H as [H H1]; try discriminate H1
         end;
  discriminate H.

(** The PyInstaller command, for every platform name and every state of the
    working directory: it starts with [pyinstaller] and ends with [main.py];
    it asks for a directory bundle exactly for the macOS names and for a
    single file otherwise, never for both; and it passes an icon exactly when
    the icon file of the platform exists ([icon.icns] for macOS, [icon.ico]
    for Windows), never elsewhere.  With [--mac] among the arguments the
    script builds for macOS whatever else is given. *)
Theorem build_cmd_shape (target_platform : string) (path_exists : string -> bool) :
  let cmd := build_cmd target_platform path_exists in
  hd_error cmd = Some "pyinstaller"%string
  /\ last cmd ""%string = "main.py"%string
  /\ (In "--onedir"%string cmd <-> targets_mac target_platform = true)
  /\ (In "--onefile"%string cmd <-> targets_mac target_platform = false)
  /\ (In "--icon"%string cmd <->
        (targets_mac target_platform = true /\ path_exists "icon.icns"%string = true)
        \/ (targets_windows target_platform = true /\ path_exists "icon.ico"%string = true))
  /\ (In "icon.icns"%string cmd -> targets_mac target_platform = true)
  /\ (In "icon.ico"%string cmd -> targets_windows target_platform = true)
  /\ forall argv system_lower run,
       in_argv "--mac" argv = true ->
       fst (build_main argv system_lower path_exists run) = build_cmd "mac" path_exists.
Proof.
  assert (Hmain : forall argv system_lower run,
            in_argv "--mac" argv = true ->
            fst (build_main argv system_lower path_exists run)
            = build_cmd "mac" path_exists)
    by (intros argv system_lower run Ha; unfold build_main; rewrite Ha; reflexivity).
  cbn zeta. set (mac_cmd := build_cmd "mac" path_exists) in *.
  unfold build_cmd, targets_windows, targets_mac.
  destruct (String.eqb target_platform "darwin" || String.eqb target_platform "mac");
    [|destruct (String.eqb target_platform "windows" || String.eqb target_platform "win")];
    destruct (path_exists "icon.icns"%string); destruct (path_exists "icon.ico"%string);
    cbn [app hd_error last negb andb];
    (split; [reflexivity|]); (split; [reflexivity|]);
    (split; [split; intros H;
             first [reflexivity | discriminate H | absurd_in H | solve [prove_in]]|]);
    (split; [split; intros H;
             first [reflexivity | discriminate H | absurd_in H | solve [prove_in]]|]);
    (split; [split; intros H;
             first [ left; split; reflexivity | right; split; reflexivity
                   | absurd_in H | solve [prove_in] | absurd_hyp H ]|]);
    (split; [intros H; first [reflexivity | absurd_in H]|]);
    (split; [intros H; first [reflexivity | absurd_in H]|]);
    exact Hmain.
Qed.

(** The V of the icon, for every square size (all the sizes the script asks
    for are square): two strokes that meet at the tip, every end point inside
    the image, the two arm tops at the same height above the tip, the left
    top to the left of the tip and the right top to its right, the two arms
    of the same horizontal extent up to one pixel, and a stroke at least 4
    wide, an eighth of the side from 32 pixels on. *)
Theorem icon_v_shape (n : Z) :
  0 < n ->
  exists a b,
    create_icon_image (n, n) = [a; b]
    /\ to_x a = from_x b /\ to_y a = from_y b
    /\ 0 <= from_x a <= to_x a /\ to_x a <= to_x b <= n
    /\ 0 <= from_y a < to_y a /\ to_y a <= n /\ to_y b = from_y a
    /\ -1 <= (to_x b - from_x b) - (to_x a - from_x a) <= 1
    /\ stroke_width a = stroke_width b /\ 4 <= stroke_width a
    /\ (32 <= n -> stroke_width a = n / 8).
Proof.
  intros Hn. unfold create_icon_image. eexists. eexists.
  split; [reflexivity|]. cbn [from_x from_y to_x to_y stroke_width].
  pose proof (Z.div_mod n 4 ltac:(lia)). pose proof (Z.mod_pos_bound n 4 ltac:(lia)).
  pose proof (Z.div_mod n 2 ltac:(lia)). pose proof (Z.mod_pos_bound n 2 ltac:(lia)).
  pose proof (Z.div_mod n 8 ltac:(lia)). pose proof (Z.mod_pos_bound n 8 ltac:(lia)).
  repeat split; try lia.
Qed.

Lemma icon_v_shape_witness :
  0 < 256
  /\ exists a b,
       create_icon_image (256, 256) = [a; b]
       /\ to_x a = from_x b /\ to_y a = from_y b
       /\ 0 <= from_x a <= to_x a /\ to_x a <= to_x b <= 256
       /\ 0 <= from_y a < to_y a /\ to_y a <= 256 /\ to_y b = from_y a
       /\ -1 <= (to_x b - from_x b) - (to_x a - from_x a) <= 1
       /\ stroke_width a = stroke_width b /\ 4 <= stroke_width a
       /\ (32 <= 256 -> stroke_width a = 256 / 8).
Proof.
  split; [lia|]. apply (icon_v_shape 256). lia.
Defined.
